(** * whatsapp-service: webhook delivery engine and admission gate

    A shallow embedding of [src/webhook-manager.js] (class [WebhookManager])
    and of the anti-ban manager (class [AdvancedAntiBanManager]), together
    with the properties of the delivery retry loop, the webhook signature,
    the event-name validation, the [webhooks] table, the per-client rate
    limiter, the proxy pool and the sessions.

    Conventions of the embedding.
    - A JavaScript string is represented by its UTF-8 encoding, one [ascii]
      per byte (well-formed strings): this is the byte sequence that
      [Buffer.from(s)], [hmac.update(s)] and [crypto.createHmac(_, s)] read.
    - Integer-valued JavaScript numbers (counters, timestamps in ms, HTTP
      status codes) are [Z]; numbers that the code divides or draws at
      random are rationals [Q].
      On [Z] the arithmetic is exact; so is that of JavaScript on the
      integers below 2^53.  Where the code computes a double that is
      rounded or overflows, the rounding and the overflow are written out:
      the random delays are rounded to binary64 ([Double.round]), and
      [Math.pow(2, n) * 1000] is [Infinity] from [n = 1015] on.
    - A thrown exception is the [Throw] constructor of [completion].
    - Mutable objects held in a [Map] are values of a [gmap]; an update in
      place is an insertion under the same key.
    - The database is the list of the rows inserted, in order; a query
      always succeeds.  The clock and the random source are arguments.
    - Of what the code tells [logger], the lines of the delivery engine
      are recorded; the informational lines of the other methods are not. *)

From Stdlib Require Import ZArith QArith Qround Qpower Lia Lqa List Ascii String.
From stdpp Require Import gmap strings list pretty.

Local Open Scope Z_scope.

(** ** Completions: a returned value or a thrown error *)

Inductive error : Type :=
  | Error (message : string)
  | TypeError (message : string)
  | RangeError (message : string).

Definition error_message (e : error) : string :=
  match e with
  | Error m | TypeError m | RangeError m => m
  end.

Inductive completion (A : Type) : Type :=
  | Return (a : A)
  | Throw (e : error).
Arguments Return {A} a.
Arguments Throw {A} e.

(** ** Node's [crypto] and [Buffer], as far as the webhook code uses them *)

Module Crypto.

(** A buffer is a list of octets, each in [0, 256). *)
Definition buffer : Type := list Z.

(** [Buffer.from(s)]: the UTF-8 bytes of [s]. *)
Definition Buffer_from (s : string) : buffer :=
  map (fun c => Z.of_N (Ascii.N_of_ascii c)) (String.list_ascii_of_string s).

(** *** SHA-256 (FIPS 180-4) on 32-bit words held in [Z] *)

Definition mask32 : Z := 0xFFFFFFFF.
Definition wrap32 (x : Z) : Z := Z.land x mask32.
Definition add32 (x y : Z) : Z := wrap32 (x + y).

Definition rotr (n x : Z) : Z :=
  Z.lor (Z.shiftr x n) (wrap32 (Z.shiftl x (32 - n))).

Definition choose (x y z : Z) : Z :=
  Z.lxor (Z.land x y) (Z.land (Z.lxor x mask32) z).
Definition majority (x y z : Z) : Z :=
  Z.lxor (Z.lxor (Z.land x y) (Z.land x z)) (Z.land y z).
Definition big_sigma0 (x : Z) : Z :=
  Z.lxor (Z.lxor (rotr 2 x) (rotr 13 x)) (rotr 22 x).
Definition big_sigma1 (x : Z) : Z :=
  Z.lxor (Z.lxor (rotr 6 x) (rotr 11 x)) (rotr 25 x).
Definition small_sigma0 (x : Z) : Z :=
  Z.lxor (Z.lxor (rotr 7 x) (rotr 18 x)) (Z.shiftr x 3).
Definition small_sigma1 (x : Z) : Z :=
  Z.lxor (Z.lxor (rotr 17 x) (rotr 19 x)) (Z.shiftr x 10).

Definition round_constants : list Z :=
  [ 0x428A2F98; 0x71374491; 0xB5C0FBCF; 0xE9B5DBA5;
    0x3956C25B; 0x59F111F1; 0x923F82A4; 0xAB1C5ED5;
    0xD807AA98; 0x12835B01; 0x243185BE; 0x550C7DC3;
    0x72BE5D74; 0x80DEB1FE; 0x9BDC06A7; 0xC19BF174;
    0xE49B69C1; 0xEFBE4786; 0x0FC19DC6; 0x240CA1CC;
    0x2DE92C6F; 0x4A7484AA; 0x5CB0A9DC; 0x76F988DA;
    0x983E5152; 0xA831C66D; 0xB00327C8; 0xBF597FC7;
    0xC6E00BF3; 0xD5A79147; 0x06CA6351; 0x14292967;
    0x27B70A85; 0x2E1B2138; 0x4D2C6DFC; 0x53380D13;
    0x650A7354; 0x766A0ABB; 0x81C2C92E; 0x92722C85;
    0xA2BFE8A1; 0xA81A664B; 0xC24B8B70; 0xC76C51A3;
    0xD192E819; 0xD6990624; 0xF40E3585; 0x106AA070;
    0x19A4C116; 0x1E376C08; 0x2748774C; 0x34B0BCB5;
    0x391C0CB3; 0x4ED8AA4A; 0x5B9CCA4F; 0x682E6FF3;
    0x748F82EE; 0x78A5636F; 0x84C87814; 0x8CC70208;
    0x90BEFFFA; 0xA4506CEB; 0xBEF9A3F7; 0xC67178F2 ].

(** The eight chaining words. *)
Record chain : Type := Chain {
  ha : Z; hb : Z; hc : Z; hd : Z; he : Z; hf : Z; hg : Z; hh : Z
}.

Definition initial_chain : chain :=
  Chain 0x6A09E667 0xBB67AE85 0x3C6EF372 0xA54FF53A
        0x510E527F 0x9B05688C 0x1F83D9AB 0x5BE0CD19.

(** Big-endian packing of four octets, and its inverse. *)
Definition word_of_octets (b : list Z) : Z :=
  fold_left (fun acc o => acc * 256 + o) b 0.
Definition octets_of_word (x : Z) : list Z :=
  [ Z.land (Z.shiftr x 24) 255; Z.land (Z.shiftr x 16) 255;
    Z.land (Z.shiftr x 8) 255; Z.land x 255 ].

(** Cut a list in consecutive pieces of [n] elements ([fuel] bounds the
    number of pieces). *)
Fixpoint pieces {A} (fuel n : nat) (l : list A) : list (list A) :=
  match fuel, l with
  | O, _ | _, [] => []
  | S fuel', _ => take n l :: pieces fuel' n (drop n l)
  end.

(** Padding: a 1 bit, zeros up to 56 mod 64, then the bit length on 64
    bits. *)
Definition pad (msg : buffer) : buffer :=
  let len := Z.of_nat (length msg) in
  let zeros := Z.to_nat ((55 - len) mod 64) in
  msg ++ [128] ++ repeat 0 zeros
      ++ octets_of_word (Z.shiftr (len * 8) 32) ++ octets_of_word (len * 8).

(** The message schedule: sixteen block words extended to sixty-four. *)
Fixpoint extend_schedule (n : nat) (w : list Z) : list Z :=
  match n with
  | O => w
  | S n' =>
      let t := length w in
      let at_ i := nth (t - i) w 0 in
      extend_schedule n'
        (w ++ [add32 (add32 (add32 (small_sigma1 (at_ 2%nat)) (at_ 7%nat))
                            (small_sigma0 (at_ 15%nat))) (at_ 16%nat)])
  end.

Definition schedule (block : list Z) : list Z :=
  extend_schedule 48 (map word_of_octets (pieces 16 4 block)).

Definition round (c : chain) (kw : Z * Z) : chain :=
  let t1 := add32 (add32 (add32 (add32 (hh c) (big_sigma1 (he c)))
                                (choose (he c) (hf c) (hg c))) (fst kw)) (snd kw) in
  let t2 := add32 (big_sigma0 (ha c)) (majority (ha c) (hb c) (hc c)) in
  Chain (add32 t1 t2) (ha c) (hb c) (hc c) (add32 (hd c) t1) (he c) (hf c) (hg c).

Definition compress (c : chain) (block : list Z) : chain :=
  let r := fold_left round (combine round_constants (schedule block)) c in
  Chain (add32 (ha c) (ha r)) (add32 (hb c) (hb r)) (add32 (hc c) (hc r))
        (add32 (hd c) (hd r)) (add32 (he c) (he r)) (add32 (hf c) (hf r))
        (add32 (hg c) (hg r)) (add32 (hh c) (hh r)).

Definition chain_octets (c : chain) : buffer :=
  octets_of_word (ha c) ++ octets_of_word (hb c) ++ octets_of_word (hc c)
    ++ octets_of_word (hd c) ++ octets_of_word (he c) ++ octets_of_word (hf c)
    ++ octets_of_word (hg c) ++ octets_of_word (hh c).

Definition sha256 (msg : buffer) : buffer :=
  let p := pad msg in
  chain_octets (fold_left compress (pieces (length p) 64 p) initial_chain).

(** *** HMAC (RFC 2104) with SHA-256, block size 64 *)

Definition hmac_sha256 (key msg : buffer) : buffer :=
  let k := if (64 <? Z.of_nat (length key)) then sha256 key else key in
  let k := k ++ repeat 0 (64 - length k)%nat in
  let inner := map (Z.lxor 0x36) k in
  let outer := map (Z.lxor 0x5C) k in
  sha256 (outer ++ sha256 (inner ++ msg)).

(** *** [digest('hex')]: two lowercase hexadecimal digits per octet *)

Definition hex_digit (d : Z) : ascii :=
  match String.get (Z.to_nat d) "0123456789abcdef" with
  | Some c => c
  | None => "0"%char
  end.

Fixpoint hex (b : buffer) : string :=
  match b with
  | [] => EmptyString
  | o :: b' => String (hex_digit (o / 16)) (String (hex_digit (o mod 16)) (hex b'))
  end.

(** [crypto.timingSafeEqual(a, b)]: throws a [RangeError] when the byte
    lengths differ, otherwise answers whether the contents are equal. *)
Definition timingSafeEqual (a b : buffer) : completion bool :=
  if decide (length a = length b)
  then Return (bool_decide (a = b))
  else Throw (RangeError "Input buffers must have the same byte length").

End Crypto.

(** ** [JSON.stringify] on payloads

    Payloads are opaque to the webhook code: it only serialises them.  The
    serialiser is therefore an interface of the payload type. *)

Class JSON (Payload : Type) : Type :=
  JSON_stringify : Payload -> string.

(** [Array.prototype.join]. *)
Fixpoint join (sep : string) (l : list string) : string :=
  match l with
  | [] => ""
  | [x] => x
  | x :: rest => x +:+ sep +:+ join sep rest
  end.

(** ** [src/webhook-manager.js] *)

Module WebhookManager.

(** [validEvents], the literal array of [registerWebhook]. *)
Definition validEvents : list string :=
  [ "message_sent"; "message_received"; "message_failed";
    "message_delivered"; "message_read";
    "client_connected"; "client_disconnected";
    "campaign_started"; "campaign_completed";
    "automation_triggered";
    "contact_added"; "contact_updated"; "contact_removed" ].

(** The event types as the specification and the server spell them
    (the server calls [triggerEvent] with ['message.sent'],
    ['message.received'] and ['client.connected']). *)
Definition spec_event_types : list string :=
  [ "message.sent"; "message.received"; "message.failed";
    "message.delivered"; "message.read";
    "client.connected"; "client.disconnected";
    "campaign.started"; "campaign.completed";
    "automation.triggered";
    "contact.added"; "contact.updated"; "contact.removed" ].

(** What [new URL(url)] exposes to [_validateWebhookUrl]. *)
Record URL : Type := mkURL { protocol : string; hostname : string }.

(** A row of the [webhooks] table. *)
Record webhook : Type := mkWebhook {
  w_id : Z;
  organization_id : Z;
  w_url : string;
  w_events : list string;
  secret_key : option string    (* absent when the query did not select it *)
}.

(** [w.events.includes(eventType)], the filter of [triggerEvent] and of
    [broadcastEvent]. *)
Definition listens (w : webhook) (eventType : string) : bool :=
  bool_decide (eventType ∈ w_events w).

(** The object returned by [registerWebhook]. *)
Record registration : Type := mkRegistration {
  r_id : Z;
  r_url : string;
  r_events : list string;
  r_secretKey : string
}.

(** A row of the [webhook_logs] table, as [_logWebhookDelivery] inserts it. *)
Record webhook_log : Type := mkLog {
  webhook_id : Z;
  event_type : string;
  l_payload : string;
  status_code : Z;
  response_time_ms : Z;
  error_message_ : option string;
  retry_count : Z
}.

(** The value of [Math.pow(2, retries) * 1000]: a double, which is an
    integer or, on overflow, [Infinity]. *)
Inductive number : Type :=
  | Finite (value : Z)
  | Infinity.

(** [Math.pow(2, retries) * 1000] for a count of retries (an integer from
    1 on, [retries] starting at 0 and having just been incremented).  The
    product [125 * 2^(retries + 3)] is a double as long as it is below
    [2^1024], that is up to [retries = 1014]; from 1015 on it overflows. *)
Definition backoff (retries : Z) : number :=
  if retries <=? 1014 then Finite (2 ^ retries * 1000) else Infinity.

(** Node's [TIMEOUT_MAX]. *)
Definition TIMEOUT_MAX : Z := 2 ^ 31 - 1.

(** After how many milliseconds a timer set by [setTimeout(callback,
    delay)] fires: Node replaces a delay that is not between 1 and
    [TIMEOUT_MAX] by 1. *)
Definition timeout (delay : number) : Z :=
  match delay with
  | Finite ms => if (1 <=? ms) && (ms <=? TIMEOUT_MAX) then ms else 1
  | Infinity => 1
  end.

(** What the code tells [logger]. *)
Inductive logline : Type :=
  | Warn_retry_scheduled (webhookId retry : Z) (delay : number)
  | Error_failed_after_retries (webhookId : Z) (eventType : string)
  | Info_delivered (webhookId : Z) (eventType : string).

(** The answer of the subscriber to one [axios.post]: a response of any
    status ([validateStatus] accepts them all), or a rejection (timeout,
    refused connection, DNS failure). *)
Inductive reply : Type :=
  | Response (status : Z) (statusText : string)
  | Rejected (message : string).

Section WithPayload.
Context {Payload : Type} `{JSON Payload}.

(** The work item built by [_queueWebhookDelivery]. *)
Record delivery : Type := mkDelivery {
  webhookId : Z;
  url : string;
  eventType : string;
  payload : Payload;
  secretKey : option string;
  retries : Z;
  maxRetries : Z
}.

(** One [axios.post(url, data, {headers})]. *)
Record request : Type := mkRequest {
  q_url : string;
  q_data : Payload;
  q_signature : string;      (* header X-Webhook-Signature *)
  q_event : string           (* header X-Webhook-Event *)
}.

(** The subscribers: the reply to the [n]-th POST the manager issues. *)
Definition network : Type := nat -> request -> reply.

(** The manager ([this]), the two tables it writes, the timers and
    immediates it has set, and the number of POSTs issued so far. *)
Record manager : Type := mkManager {
  this_maxRetries : Z;
  this_timeoutMs : Z;
  eventQueue : list delivery;
  timers : list (number * delivery);  (* setTimeout(push and process, delay) *)
  immediates : nat;                 (* setImmediate(process) *)
  webhooks : list webhook;
  webhook_logs : list webhook_log;
  logger : list logline;
  posts : nat
}.

(** [new WebhookManager(maxRetries = 3, timeoutMs = 30000)]. *)
Definition constructor (maxRetries timeoutMs : option Z) : manager :=
  mkManager (default 3 maxRetries) (default 30000 timeoutMs) [] [] 0 [] [] [] 0.

Definition set_eventQueue (q : list delivery) (m : manager) : manager :=
  mkManager (this_maxRetries m) (this_timeoutMs m) q (timers m) (immediates m)
            (webhooks m) (webhook_logs m) (logger m) (posts m).
Definition set_timers (t : list (number * delivery)) (m : manager) : manager :=
  mkManager (this_maxRetries m) (this_timeoutMs m) (eventQueue m) t (immediates m)
            (webhooks m) (webhook_logs m) (logger m) (posts m).
Definition set_immediates (n : nat) (m : manager) : manager :=
  mkManager (this_maxRetries m) (this_timeoutMs m) (eventQueue m) (timers m) n
            (webhooks m) (webhook_logs m) (logger m) (posts m).
Definition set_webhooks (w : list webhook) (m : manager) : manager :=
  mkManager (this_maxRetries m) (this_timeoutMs m) (eventQueue m) (timers m)
            (immediates m) w (webhook_logs m) (logger m) (posts m).
Definition set_webhook_logs (l : list webhook_log) (m : manager) : manager :=
  mkManager (this_maxRetries m) (this_timeoutMs m) (eventQueue m) (timers m)
            (immediates m) (webhooks m) l (logger m) (posts m).
Definition set_logger (l : list logline) (m : manager) : manager :=
  mkManager (this_maxRetries m) (this_timeoutMs m) (eventQueue m) (timers m)
            (immediates m) (webhooks m) (webhook_logs m) l (posts m).
Definition set_posts (n : nat) (m : manager) : manager :=
  mkManager (this_maxRetries m) (this_timeoutMs m) (eventQueue m) (timers m)
            (immediates m) (webhooks m) (webhook_logs m) (logger m) n.

(** *** Validation and registration *)

(** [_validateWebhookUrl(url)].  [parse] is [new URL(url)], which throws
    on a string that is not a URL; [production] is
    [process.env.NODE_ENV === 'production'].  Whatever is thrown inside
    is rethrown as [Invalid webhook URL: ...]. *)
Definition _validateWebhookUrl (parse : string -> completion URL)
    (production : bool) (url : string) : completion bool :=
  let body : completion bool :=
    match parse url with
    | Throw e => Throw e
    | Return parsedUrl =>
        if production && negb (bool_decide (protocol parsedUrl = "https:"))
        then Throw (Error "Only HTTPS webhooks allowed in production")
        else if production
                && (bool_decide (hostname parsedUrl = "localhost")
                    || bool_decide (hostname parsedUrl = "127.0.0.1"))
        then Throw (Error "Localhost webhooks not allowed in production")
        else Return true
    end in
  match body with
  | Throw e => Throw (Error ("Invalid webhook URL: " +:+ error_message e))
  | Return b => Return b
  end.

(** [registerWebhook(organizationId, userId, url, events)]; the method
    reads neither [userId] nor its fifth parameter [customHeaders].
    [entropy] is the result of [crypto.randomBytes(32)]; the INSERT appends
    a row whose [id] is the next serial number. *)
Definition registerWebhook (parse : string -> completion URL)
    (production : bool) (entropy : Crypto.buffer)
    (organizationId userId : Z) (url : string) (events : list string)
    (m : manager) : completion registration * manager :=
  match _validateWebhookUrl parse production url with
  | Throw e => (Throw e, m)
  | Return _ =>
      let invalidEvents :=
        List.filter (fun e => negb (bool_decide (e ∈ validEvents))) events in
      if (0 <? Z.of_nat (length invalidEvents))
      then (Throw (Error ("Invalid events: " +:+ join ", " invalidEvents)), m)
      else
        let secretKey := Crypto.hex entropy in
        let row := mkWebhook (Z.of_nat (length (webhooks m)) + 1)
                             organizationId url events (Some secretKey) in
        (Return (mkRegistration (w_id row) (w_url row) (w_events row) secretKey),
         set_webhooks (webhooks m ++ [row]) m)
  end.

(** *** Signing *)

(** [_generateSignature(payload, secretKey)].  [crypto.createHmac] throws
    a [TypeError] when the key is [undefined]. *)
Definition _generateSignature (payload : Payload) (secretKey : option string)
    : completion string :=
  match secretKey with
  | None => Throw (TypeError "ERR_INVALID_ARG_TYPE: key")
  | Some key =>
      Return (Crypto.hex (Crypto.hmac_sha256
                            (Crypto.Buffer_from key)
                            (Crypto.Buffer_from (JSON_stringify payload))))
  end.

(** [verifyWebhookSignature(payload, signature, secretKey)]. *)
Definition verifyWebhookSignature (payload : Payload) (signature : string)
    (secretKey : option string) : completion bool :=
  match _generateSignature payload secretKey with
  | Throw e => Throw e
  | Return expectedSignature =>
      Crypto.timingSafeEqual (Crypto.Buffer_from signature)
                             (Crypto.Buffer_from expectedSignature)
  end.


(** *** Delivery *)

(** [_logWebhookDelivery(webhookId, eventType, payload, statusCode,
    response, retryCount)]: one INSERT into [webhook_logs], with
    [response_time_ms] 0 and [response || null] as error message. *)
Definition _logWebhookDelivery (webhookId : Z) (eventType : string)
    (payload : Payload) (statusCode : Z) (response : string)
    (retryCount : Z) (m : manager) : manager :=
  set_webhook_logs
    (webhook_logs m ++
       [mkLog webhookId eventType (JSON_stringify payload) statusCode 0
              (if bool_decide (response = "") then None else Some response)
              retryCount]) m.

(** [delivery.retries++]. *)
Definition increment_retries (d : delivery) : delivery :=
  mkDelivery (webhookId d) (url d) (eventType d) (payload d) (secretKey d)
             (retries d + 1) (maxRetries d).

(** [_deliverWebhook(delivery)]: sign, POST, log the response whatever
    its status, then throw unless the status is 200 or 204.  A failure
    to sign and a rejected POST throw before anything is logged. *)
Definition _deliverWebhook (net : network) (delivery : delivery)
    (m : manager) : completion unit * manager :=
  match _generateSignature (payload delivery) (secretKey delivery) with
  | Throw e => (Throw e, m)
  | Return signature =>
      let request := mkRequest (url delivery) (payload delivery)
                               signature (eventType delivery) in
      let response := net (posts m) request in
      let m := set_posts (S (posts m)) m in
      match response with
      | Rejected message => (Throw (Error message), m)
      | Response status statusText =>
          let m := _logWebhookDelivery (webhookId delivery) (eventType delivery)
                     (payload delivery) status statusText (retries delivery) m in
          if negb (bool_decide (status = 200)) && negb (bool_decide (status = 204))
          then (Throw (Error ("Webhook returned " +:+ pretty status +:+ ": "
                                +:+ statusText)), m)
          else (Return tt,
                set_logger (logger m ++
                  [Info_delivered (webhookId delivery) (eventType delivery)]) m)
      end
  end.

(** The two arms of the [catch] of [_processQueue].  The delay of a timer
    is the number handed to [setTimeout]. *)
Definition schedule_retry (delivery : delivery) (m : manager) : manager :=
  let delivery := increment_retries delivery in
  let delay := backoff (retries delivery) in
  let m := set_timers (timers m ++ [(delay, delivery)]) m in
  set_logger (logger m ++
    [Warn_retry_scheduled (webhookId delivery) (retries delivery) delay]) m.

Definition record_failure (delivery : delivery) (error : error) (m : manager)
    : manager :=
  let m := set_logger (logger m ++
    [Error_failed_after_retries (webhookId delivery) (eventType delivery)]) m in
  _logWebhookDelivery (webhookId delivery) (eventType delivery)
    (payload delivery) 500 (error_message error) (retries delivery) m.

(** [_processQueue()]: take the head of the queue and deliver it.  When
    the delivery throws, either set a timer that puts it back, with the
    delay [Math.pow(2, retries) * 1000], or, with the retries used up, log
    a row of status 500.  Afterwards, a non-empty queue sets an
    immediate. *)
Definition _processQueue (net : network) (m : manager) : manager :=
  match eventQueue m with
  | [] => m
  | delivery :: rest =>
      let m := set_eventQueue rest m in
      let m :=
        match _deliverWebhook net delivery m with
        | (Return _, m) => m
        | (Throw error, m) =>
            if retries delivery <? maxRetries delivery
            then schedule_retry delivery m
            else record_failure delivery error m
        end in
      if (0 <? Z.of_nat (length (eventQueue m)))
      then set_immediates (S (immediates m)) m
      else m
  end.

(** [this.eventQueue.push(delivery); this._processQueue();], the end of
    [_queueWebhookDelivery] and the callback of the retry timer. *)
Definition push_and_process (net : network) (delivery : delivery)
    (m : manager) : manager :=
  _processQueue net (set_eventQueue (eventQueue m ++ [delivery]) m).

(** [_queueWebhookDelivery(webhook, eventType, payload)]. *)
Definition _queueWebhookDelivery (net : network) (webhook : webhook)
    (eventType : string) (payload : Payload) (m : manager) : manager :=
  let delivery := mkDelivery (w_id webhook) (w_url webhook) eventType payload
                             (secret_key webhook) 0 (this_maxRetries m) in
  push_and_process net delivery m.

(** *** The event loop

    One turn runs the oldest immediate, or else fires the oldest timer.
    A delivery has at most one timer pending, so for one delivery the
    order of the turns is the order of Node's timers. *)
Definition turn (net : network) (m : manager) : option manager :=
  match immediates m with
  | S n => Some (_processQueue net (set_immediates n m))
  | O =>
      match timers m with
      | (_, delivery) :: rest =>
          Some (push_and_process net delivery (set_timers rest m))
      | [] => None
      end
  end.

Fixpoint run (fuel : nat) (net : network) (m : manager) : manager :=
  match fuel with
  | O => m
  | S fuel' =>
      match turn net m with
      | Some m' => run fuel' net m'
      | None => m
      end
  end.

(** The timers that fire while the loop runs [fuel] turns, in the order
    in which they fire, each with the delay that was handed to
    [setTimeout] and the delivery it carries. *)
Fixpoint fired (fuel : nat) (net : network) (m : manager)
    : list (number * delivery) :=
  match fuel with
  | O => []
  | S fuel' =>
      match turn net m with
      | None => []
      | Some m' =>
          match immediates m, timers m with
          | O, t :: _ => t :: fired fuel' net m'
          | _, _ => fired fuel' net m'
          end
      end
  end.

(** The timers that [_processQueue] sets for a delivery from now on when
    each of its attempts throws: one for each retry, until [retries]
    reaches [maxRetries]. *)
Fixpoint retries_from (n : nat) (d : delivery) : list (number * delivery) :=
  match n with
  | O => []
  | S n' =>
      (backoff (retries (increment_retries d)), increment_retries d)
      :: retries_from n' (increment_retries d)
  end.

Definition retry_timers (d : delivery) : list (number * delivery) :=
  retries_from (Z.to_nat (maxRetries d - retries d)) d.

(** Nothing left to do: no queued delivery, no timer, no immediate. *)
Definition quiescent (m : manager) : Prop :=
  eventQueue m = [] /\ timers m = [] /\ immediates m = O.

(** The outcome a row of [webhook_logs] records: [clearFailedWebhooks]
    counts as failures the rows whose status is not 200 or 204. *)
Inductive outcome : Type := Delivered | Failed.

Definition outcome_of (row : webhook_log) : outcome :=
  if bool_decide (status_code row = 200) || bool_decide (status_code row = 204)
  then Delivered else Failed.

(** The row that [record_failure] appends to [webhook_logs]. *)
Definition failure_row (d : delivery) (e : error) : webhook_log :=
  mkLog (webhookId d) (eventType d) (JSON_stringify (payload d)) 500 0
        (if bool_decide (error_message e = "") then None
         else Some (error_message e)) (retries d).

(** A reply that makes [_deliverWebhook] throw. *)
Definition failing (r : reply) : Prop :=
  match r with
  | Response status _ => status <> 200 /\ status <> 204
  | Rejected _ => True
  end.

(** The course of one delivery, from an attempt in manager [m] to the
    manager in which nothing is left of it: the attempt succeeds, or it
    throws with the retries used up, or it throws, the retry timer fires
    and the course continues with the next attempt. *)
Inductive completes (net : network) : delivery -> manager -> manager -> Prop :=
  | completes_delivered d m m1 :
      _deliverWebhook net d m = (Return tt, m1) ->
      completes net d m m1
  | completes_failed d m e m1 :
      _deliverWebhook net d m = (Throw e, m1) ->
      ~ retries d < maxRetries d ->
      completes net d m (record_failure d e m1)
  | completes_retried d m e m1 m' :
      _deliverWebhook net d m = (Throw e, m1) ->
      retries d < maxRetries d ->
      completes net (increment_retries d)
                (set_timers [] (schedule_retry d m1)) m' ->
      completes net d m m'.

End WithPayload.

Arguments delivery Payload : clear implicits.
Arguments request Payload : clear implicits.
Arguments network Payload : clear implicits.
Arguments manager Payload : clear implicits.

(** *** Sample payloads and subscribers *)

(** Three payloads and what [JSON.stringify] prints for them: [{}],
    [[]] and [null]. *)
Inductive sample : Type := empty_object | empty_array | null.

#[export] Instance sample_JSON : JSON sample :=
  fun p => match p with
           | empty_object => "{}"
           | empty_array => "[]"
           | null => "null"
           end.

(** A subscriber that is down for good, and one that recovers at the
    third POST. *)
Definition always_503 : network sample :=
  fun _ _ => Response 503 "Service Unavailable".

Definition recovers_at_third : network sample :=
  fun n _ => if (n <? 2)%nat then Response 500 "Internal Server Error"
             else Response 200 "OK".

Definition unreachable : network sample :=
  fun _ _ => Rejected "connect ECONNREFUSED".

(** [new URL('https://example.com/webhook')]. *)
Definition example_parse (url : string) : completion URL :=
  if bool_decide (url = "https://example.com/webhook")
  then Return (mkURL "https:" "example.com")
  else Throw (TypeError "Invalid URL").

Definition example_webhook : webhook :=
  mkWebhook 7 1 "https://example.com/webhook" ["message_sent"]
            (Some "0f1e2d3c4b5a69788796a5b4c3d2e1f0").

(** The delivery of one [message_sent] event to [example_webhook], queued
    with its signing key by a manager built with the default
    [maxRetries = 3], run to its end. *)
Definition example_run (net : network sample) : manager sample :=
  run 3 net (_queueWebhookDelivery net example_webhook "message_sent"
               empty_object (constructor None None)).

End WebhookManager.

(** ** IEEE 754 binary64 arithmetic, as far as the delays need it *)

Module Double.
Local Open Scope Q_scope.

(** The integer part of the binary logarithm of [x], for [x > 0]: the
    exponent [e] with [2^e <= x < 2^(e+1)]. *)
Definition exponent (x : Q) : Z :=
  let k := (Z.log2 (Qnum x) - Z.log2 (Zpos (Qden x)))%Z in
  if Qle_bool (2 ^ k) x then k else (k - 1)%Z.

(** The integer nearest to [q], and the even one of two equally near. *)
Definition nearest_even (q : Q) : Z :=
  let f := Qfloor q in
  match Qcompare (q - inject_Z f) (1 # 2) with
  | Lt => f
  | Gt => (f + 1)%Z
  | Eq => if Z.even f then f else (f + 1)%Z
  end.

(** The double nearest to [x > 0]: a multiple of [2^(e - 52)], with 53
    significant bits.  Overflow and subnormal numbers are left out: the
    numbers rounded here are delays in milliseconds, between [2^-53] and
    15000. *)
Definition round_positive (x : Q) : Q :=
  let ulp := 2 ^ (exponent x - 52) in
  inject_Z (nearest_even (x / ulp)) * ulp.

(** Rounding to nearest, ties to even: the result of every arithmetic
    operation of JavaScript on numbers. *)
Definition round (x : Q) : Q :=
  match Qcompare x 0 with
  | Eq => 0
  | Gt => round_positive x
  | Lt => - round_positive (- x)
  end.

End Double.

(** ** The anti-ban manager: rate limits, suspicion, human-like delays *)

Module AntiBan.

Local Open Scope Q_scope.

(** JavaScript comparisons and [Math.max] on numbers. *)
Definition geq (a b : Q) : bool := Qle_bool b a.
Definition gt (a b : Q) : bool := negb (Qle_bool a b).
Definition lt (a b : Q) : bool := negb (Qle_bool b a).
Definition Math_max (a b : Q) : Q := if Qle_bool a b then b else a.

(** One of [limits.perMinute], [limits.perHour], [limits.perDay]:
    [window] is the time, in ms, at which the current period started. *)
Record rateWindow : Type := mkWindow { max : Q; current : Z; window : Z }.

Record limits_t : Type := mkLimits {
  perMinute : rateWindow;
  perHour : rateWindow;
  perDay : rateWindow
}.

Record limiter : Type := mkLimiter {
  clientId : string;
  limits : limits_t;
  suspiciousActivityCount : Z;
  adaptiveThreshold : Q
}.

(** The [activity] object inspected by [detectSuspiciousActivity]. *)
Record activity : Type := mkActivity {
  messagesSentInSequence : Z;
  failureRate : Q;
  ipChangesInHour : Z;
  geoLocationJump : Q;
  unusualMessageContent : bool
}.

(** A row of the [ban_alerts] table. *)
Record ban_alert : Type := mkAlert {
  client_id : string;
  alert_type : string;
  details : option activity
}.

(** The parts of the manager the rate limiter touches: the [rateLimits]
    map and the [ban_alerts] table. *)
Record manager : Type := mkManager {
  rateLimits : gmap string limiter;
  ban_alerts : list ban_alert
}.

Definition constructor : manager := mkManager ∅ [].

(** The object returned by [canSendMessage]; a property that the object
    literal does not have is [None]. *)
Record admission : Type := mkAdmission {
  allowed : bool;
  reason : option string;
  retryAfter : option Z;
  warnings : option (list string)
}.

(** [initializeRateLimiter(clientId, organizationId)] at time [now], the
    value of the three calls of [Date.now()]. *)
Definition initializeRateLimiter (now : Z) (clientId : string)
    (organizationId : Z) (m : manager) : limiter * manager :=
  let limiter :=
    mkLimiter clientId
      (mkLimits (mkWindow 20 0 now) (mkWindow 100 0 now) (mkWindow 1000 0 now))
      0 0.8 in
  (limiter, mkManager (<[clientId := limiter]> (rateLimits m)) (ban_alerts m)).

(** [if (now - w.window > duration) { w.current = 0; w.window = now; }] *)
Definition restart_if_over (duration now : Z) (w : rateWindow) : rateWindow :=
  if (duration <? now - window w)%Z then mkWindow (max w) 0 now else w.

(** The three window checks at the head of [canSendMessage]. *)
Definition refresh_windows (now : Z) (l : limiter) : limiter :=
  mkLimiter (clientId l)
    (mkLimits (restart_if_over 60000 now (perMinute (limits l)))
              (restart_if_over 3600000 now (perHour (limits l)))
              (restart_if_over 86400000 now (perDay (limits l))))
    (suspiciousActivityCount l) (adaptiveThreshold l).

(** [canSendMessage(clientId)] at time [now = Date.now()]. *)
Definition canSendMessage (now : Z) (clientId : string) (m : manager)
    : admission * manager :=
  match rateLimits m !! clientId with
  | None => (mkAdmission true (Some "No limiter"%string) None None, m)
  | Some limiter =>
      let limiter := refresh_windows now limiter in
      let m := mkManager (<[clientId := limiter]> (rateLimits m)) (ban_alerts m) in
      let minute := perMinute (limits limiter) in
      let hour := perHour (limits limiter) in
      let day := perDay (limits limiter) in
      let minuteThreshold := max minute * adaptiveThreshold limiter in
      let hourThreshold := max hour * adaptiveThreshold limiter in
      let dayThreshold := max day * adaptiveThreshold limiter in
      if geq (inject_Z (current minute)) (max minute)
      then (mkAdmission false (Some "Per-minute limit exceeded"%string)
                        (Some 60%Z) None, m)
      else if geq (inject_Z (current hour)) (max hour)
      then (mkAdmission false (Some "Per-hour limit exceeded"%string)
                        (Some 3600%Z) None, m)
      else if geq (inject_Z (current day)) (max day)
      then (mkAdmission false (Some "Per-day limit exceeded"%string)
                        (Some 86400%Z) None, m)
      else
        let warnings :=
          (if geq (inject_Z (current minute)) minuteThreshold
           then ["Approaching per-minute limit"%string] else [])
          ++ (if geq (inject_Z (current hour)) hourThreshold
              then ["Approaching per-hour limit"%string] else [])
          ++ (if geq (inject_Z (current day)) dayThreshold
              then ["Approaching per-day limit"%string] else []) in
        (mkAdmission true None None (Some warnings), m)
  end.

Definition increment (w : rateWindow) : rateWindow :=
  mkWindow (max w) (current w + 1)%Z (window w).

(** [recordMessageSend(clientId)]. *)
Definition recordMessageSend (clientId : string) (m : manager) : manager :=
  match rateLimits m !! clientId with
  | Some limiter =>
      let limiter :=
        mkLimiter (AntiBan.clientId limiter)
          (mkLimits (increment (perMinute (limits limiter)))
                    (increment (perHour (limits limiter)))
                    (increment (perDay (limits limiter))))
          (suspiciousActivityCount limiter) (adaptiveThreshold limiter) in
      mkManager (<[clientId := limiter]> (rateLimits m)) (ban_alerts m)
  | None => m
  end.

(** [triggerProtectiveMeasures(clientId)]. *)
Definition triggerProtectiveMeasures (clientId : string) (m : manager) : manager :=
  let m :=
    match rateLimits m !! clientId with
    | Some limiter =>
        let minute := perMinute (limits limiter) in
        let limiter :=
          mkLimiter (AntiBan.clientId limiter)
            (mkLimits (mkWindow (Math_max 5 (max minute / 2))
                                (current minute) (window minute))
                      (perHour (limits limiter)) (perDay (limits limiter)))
            (suspiciousActivityCount limiter) (adaptiveThreshold limiter) in
        mkManager (<[clientId := limiter]> (rateLimits m)) (ban_alerts m)
    | None => m
    end in
  mkManager (rateLimits m)
    (ban_alerts m ++ [mkAlert clientId "protective_measures_activated" None]).

(** [detectSuspiciousActivity(clientId, activity)]. *)
Definition detectSuspiciousActivity (clientId : string) (activity : activity)
    (m : manager) : bool * manager :=
  match rateLimits m !! clientId with
  | None => (false, m)
  | Some limiter =>
      let suspiciousPatterns :=
        [ (10 <? messagesSentInSequence activity)%Z;
          gt (failureRate activity) 0.3;
          (3 <? ipChangesInHour activity)%Z;
          gt (geoLocationJump activity) 1000;
          unusualMessageContent activity ] in
      let isSuspicious := existsb (fun p => p) suspiciousPatterns in
      if isSuspicious
      then
        let limiter :=
          mkLimiter (AntiBan.clientId limiter) (limits limiter)
                    (suspiciousActivityCount limiter + 1)%Z
                    (adaptiveThreshold limiter) in
        let m := mkManager (<[clientId := limiter]> (rateLimits m))
                   (ban_alerts m ++
                      [mkAlert clientId "suspicious_activity" (Some activity)]) in
        if (3 <? suspiciousActivityCount limiter)%Z
        then (isSuspicious, triggerProtectiveMeasures clientId m)
        else (isSuspicious, m)
      else (isSuspicious, m)
  end.

(** [_randomDelay(min, max)], given the value drawn by [Math.random()]:
    [Math.random() * (max - min) + min], each of the three operations
    rounded to a double. *)
Definition _randomDelay (random : Q) (min max : Q) : Q :=
  Double.round (Double.round (random * Double.round (max - min)) + min).

(** [simulateHumanBehavior(clientId, action)].  [random n] is the value of
    the [n]-th call of [Math.random()], in [0, 1).  The result is the
    returned value together with the delays, in ms, of the timers the
    function awaited before returning. *)
Definition simulateHumanBehavior (random : nat -> Q) (clientId action : string)
    : bool * list Q :=
  let st : nat * list Q := (O, []) in
  let st :=
    if bool_decide (action = "type"%string)
    then (S (fst st), snd st ++ [_randomDelay (random (fst st)) 60 100])
    else st in
  let st :=
    if bool_decide (action = "mouse"%string)
    then (S (fst st), snd st ++ [_randomDelay (random (fst st)) 100 300])
    else st in
  let st :=
    if bool_decide (action = "scroll"%string)
    then (S (fst st), snd st ++ [_randomDelay (random (fst st)) 200 500])
    else st in
  let st :=
    if bool_decide (action = "message"%string)
    then
      let delay :=
        if lt (random (fst st)) 0.1
        then _randomDelay (random (S (fst st))) 5000 15000
        else _randomDelay (random (S (fst st))) 2000 5000 in
      (S (S (fst st)), snd st ++ [delay])
    else st in
  (true, snd st).

(** The three windows of a limiter. *)
Definition windows (l : limiter) : list rateWindow :=
  [perMinute (limits l); perHour (limits l); perDay (limits l)].

(** The managers that the methods of the class can produce. *)
Inductive reachable : manager -> Prop :=
  | reachable_constructor :
      reachable constructor
  | reachable_initializeRateLimiter now c org m :
      reachable m -> reachable (snd (initializeRateLimiter now c org m))
  | reachable_canSendMessage now c m :
      reachable m -> reachable (snd (canSendMessage now c m))
  | reachable_recordMessageSend c m :
      reachable m -> reachable (recordMessageSend c m)
  | reachable_detectSuspiciousActivity c a m :
      reachable m -> reachable (snd (detectSuspiciousActivity c a m))
  | reachable_triggerProtectiveMeasures c m :
      reachable m -> reachable (triggerProtectiveMeasures c m).

(** The ceilings a reachable limiter can have: 20, 10 or 5 a minute, 100
    an hour, 1000 a day. *)
Definition whole_ceilings (l : limiter) : Prop :=
  (max (perMinute (limits l)) == 20 \/ max (perMinute (limits l)) == 10
   \/ max (perMinute (limits l)) == 5)
  /\ max (perHour (limits l)) == 100
  /\ max (perDay (limits l)) == 1000.

Definition ceilings_invariant (m : manager) : Prop :=
  forall c l, rateLimits m !! c = Some l -> whole_ceilings l.

(** The retry hint as the specification words it: the seconds left until
    the window restarts. *)
Definition spec_retryAfterSeconds (duration now : Z) (w : rateWindow) : Z :=
  ((window w + duration - now) / 1000)%Z.

(** The protective ceiling as the specification words it: halved, with a
    floor of 1. *)
Definition spec_halved_ceiling (ceiling : Q) : Q := Math_max 1 (ceiling / 2).

(** A call of one of the methods that touch the rate limiter, and what
    it does to the manager. *)
Inductive call : Type :=
  | InitializeRateLimiter (now : Z) (clientId : string) (organizationId : Z)
  | CanSendMessage (now : Z) (clientId : string)
  | RecordMessageSend (clientId : string)
  | DetectSuspiciousActivity (clientId : string) (a : activity)
  | TriggerProtectiveMeasures (clientId : string).

Definition perform (m : manager) (k : call) : manager :=
  match k with
  | InitializeRateLimiter now c org => snd (initializeRateLimiter now c org m)
  | CanSendMessage now c => snd (canSendMessage now c m)
  | RecordMessageSend c => recordMessageSend c m
  | DetectSuspiciousActivity c a => snd (detectSuspiciousActivity c a m)
  | TriggerProtectiveMeasures c => triggerProtectiveMeasures c m
  end.

(** The client whose limiter a call creates, if it creates one. *)
Definition initializes (k : call) : option string :=
  match k with
  | InitializeRateLimiter _ c _ => Some c
  | _ => None
  end.

(** *** Sample clients *)

(** A client initialised at time 0 that has sent its 20 messages of the
    minute. *)
Definition example_full_minute : manager :=
  Nat.iter 20 (recordMessageSend "c1")
             (snd (initializeRateLimiter 0 "c1" 1 constructor)).

(** An activity with a burst of 11 messages in sequence. *)
Definition example_burst : activity := mkActivity 11 0 0 0 false.

(** A client initialised at time 0 after [n] suspicious activities. *)
Definition example_suspected (n : nat) : manager :=
  Nat.iter n (fun m => snd (detectSuspiciousActivity "c1" example_burst m))
             (snd (initializeRateLimiter 0 "c1" 1 constructor)).

(** Draws of [Math.random()]: 0.05 first, then 0.5; and 0.5 throughout. *)
Definition example_draws_pause (n : nat) : Q :=
  match n with O => 0.05 | _ => 0.5 end.
Definition example_draws (n : nat) : Q := 0.5.

(** A draw just below 1: [1 - 2^-52]. *)
Definition example_draws_high (n : nat) : Q := 1 - (1 # 2 ^ 52).

End AntiBan.

(** ** [src/webhook-manager.js]: the [webhooks] table, triggering, testing *)

Module WebhookTable.
Import WebhookManager.

(** A stored row of [webhooks]: the columns the class writes or reads. *)
Record webhook_row : Type := mkRow {
  stored : webhook;
  headers : string;        (* JSON text *)
  is_active : bool
}.

(** The row that the INSERT of [registerWebhook] stores: [headers] and
    [is_active] take the defaults of the schema, ['{}'] and [TRUE]. *)
Definition inserted (w : webhook) : webhook_row := mkRow w "{}" true.

(** The [updates] object of [updateWebhook]; a property that is absent, or
    [undefined], is [None]. *)
Record updates : Type := mkUpdates {
  u_url : option string;
  u_events : option (list string);
  u_headers : option string;
  u_isActive : option bool
}.

(** [updateWebhook(webhookId, updates)]: each column becomes
    [COALESCE($n, column)] in the rows [WHERE id = $5]. *)
Definition updateWebhook (webhookId : Z) (u : updates)
    (table : list webhook_row) : list webhook_row :=
  map (fun r =>
         if bool_decide (w_id (stored r) = webhookId)
         then mkRow (mkWebhook (w_id (stored r)) (organization_id (stored r))
                               (default (w_url (stored r)) (u_url u))
                               (default (w_events (stored r)) (u_events u))
                               (secret_key (stored r)))
                    (default (headers r) (u_headers u))
                    (default (is_active r) (u_isActive u))
         else r) table.

(** [deleteWebhook(webhookId)]: [DELETE FROM webhooks WHERE id = $1]. *)
Definition deleteWebhook (webhookId : Z) (table : list webhook_row)
    : list webhook_row :=
  List.filter (fun r => negb (bool_decide (w_id (stored r) = webhookId))) table.

(** [getWebhooks(organizationId)]: [SELECT id, url, events, is_active,
    retry_count, created_at FROM webhooks WHERE organization_id = $1 AND
    is_active = true].  The objects returned have no [secret_key]
    property: the column is not selected. *)
Definition getWebhooks (table : list webhook_row) (organizationId : Z)
    : list webhook :=
  map (fun r => mkWebhook (w_id (stored r)) (organization_id (stored r))
                          (w_url (stored r)) (w_events (stored r)) None)
      (List.filter (fun r => bool_decide (organization_id (stored r) = organizationId)
                             && is_active r) table).

(** [String.prototype.includes]. *)
Fixpoint includes (pattern s : string) : bool :=
  String.prefix pattern s
  || match s with
     | EmptyString => false
     | String _ s' => includes pattern s'
     end.

(** What [testWebhook] returns: [{ success: true }]. *)
Inductive test_result : Type := success.

Section WithPayload.
Context {Payload : Type} `{JSON Payload}.

(** [triggerEvent(organizationId, eventType, payload)]. *)
Definition triggerEvent (net : network Payload) (table : list webhook_row)
    (organizationId : Z) (eventType : string) (payload : Payload)
    (m : manager Payload) : manager Payload :=
  let webhooks := getWebhooks table organizationId in
  let activeWebhooks := List.filter (fun w => listens w eventType) webhooks in
  if (length activeWebhooks =? 0)%nat
  then m
  else fold_left (fun m webhook =>
                    _queueWebhookDelivery net webhook eventType payload m)
                 activeWebhooks m.

(** [broadcastEvent(organizationId, eventType, payload, filter)];
    [filter_url] is [filter.url]. *)
Definition broadcastEvent (net : network Payload) (table : list webhook_row)
    (organizationId : Z) (eventType : string) (payload : Payload)
    (filter_url : option string) (m : manager Payload) : manager Payload :=
  let webhooks := getWebhooks table organizationId in
  let targetWebhooks := List.filter (fun w => listens w eventType) webhooks in
  let targetWebhooks :=
    match filter_url with
    | Some u => if bool_decide (u = "") then targetWebhooks
                else List.filter (fun w => includes u (w_url w)) targetWebhooks
    | None => targetWebhooks
    end in
  fold_left (fun m webhook =>
               _queueWebhookDelivery net webhook eventType payload m)
            targetWebhooks m.

(** [testWebhook(webhookId)].  [testPayload] is the object literal
    [{event: 'test', timestamp: Date.now(), message: ...}].  The POST is
    made without [validateStatus], so axios rejects every status outside
    [200, 300). *)
Definition testWebhook (net : network Payload) (table : list webhook_row)
    (webhookId : Z) (testPayload : Payload) (m : manager Payload)
    : completion test_result * manager Payload :=
  match List.find (fun r => bool_decide (w_id (stored r) = webhookId)) table with
  | None => (Throw (Error "Webhook not found"), m)
  | Some r =>
      match _generateSignature testPayload (secret_key (stored r)) with
      | Throw e => (Throw e, m)
      | Return signature =>
          let request := mkRequest (w_url (stored r)) testPayload signature "test" in
          let response := net (posts m) request in
          let m := set_posts (S (posts m)) m in
          match response with
          | Rejected message => (Throw (Error message), m)
          | Response status _ =>
              if (200 <=? status) && (status <? 300)
              then (Return success, m)
              else (Throw (Error ("Request failed with status code "
                                    +:+ pretty status)), m)
          end
      end
  end.

(** A reply that [_deliverWebhook] takes for a success. *)
Definition succeeding (r : reply) : Prop :=
  match r with
  | Response status _ => status = 200 \/ status = 204
  | Rejected _ => False
  end.

(** A reply with a status that [_deliverWebhook] takes for a failure. *)
Definition answered_failing (r : reply) : Prop :=
  match r with
  | Response status _ => status <> 200 /\ status <> 204
  | Rejected _ => False
  end.

(** A reply that [testWebhook] accepts and [_deliverWebhook] does not: a
    status in [200, 300) other than 200 and 204. *)
Definition accepted_by_test_only (r : reply) : Prop :=
  match r with
  | Response status _ => 200 <= status < 300 /\ status <> 200 /\ status <> 204
  | Rejected _ => False
  end.

(** The managers that the methods of the class and the turns of the event
    loop can produce, whatever the table and the subscribers are at each
    call.  [_queueWebhookDelivery] is called by [triggerEvent] and by
    [broadcastEvent] only. *)
Inductive reachable : manager Payload -> Prop :=
  | reachable_constructor maxRetries timeoutMs :
      reachable (constructor maxRetries timeoutMs)
  | reachable_registerWebhook parse production entropy organizationId userId
                              url events m :
      reachable m ->
      reachable (snd (registerWebhook parse production entropy organizationId
                                      userId url events m))
  | reachable_triggerEvent net table organizationId eventType payload m :
      reachable m ->
      reachable (triggerEvent net table organizationId eventType payload m)
  | reachable_broadcastEvent net table organizationId eventType payload
                             filter_url m :
      reachable m ->
      reachable (broadcastEvent net table organizationId eventType payload
                                filter_url m)
  | reachable_testWebhook net table webhookId testPayload m :
      reachable m ->
      reachable (snd (testWebhook net table webhookId testPayload m))
  | reachable_turn net m m' :
      reachable m -> turn net m = Some m' -> reachable m'.

(** Every delivery waiting in the queue or behind a timer lacks a signing
    key and has retries left or exactly used up. *)
Definition keyless (m : manager Payload) : Prop :=
  eventQueue m = [] /\ immediates m = O
  /\ Forall (fun t => secretKey (snd t) = None
                      /\ retries (snd t) <= maxRetries (snd t)) (timers m).

(** What the turns of keyless deliveries change, from [m] to [m']. *)
Definition keyless_progress (m m' : manager Payload) (rows : list webhook_log)
    : Prop :=
  keyless m' /\ posts m' = posts m
  /\ this_maxRetries m' = this_maxRetries m
  /\ webhook_logs m' = webhook_logs m ++ rows
  /\ Forall (fun row => status_code row = 500) rows.

(** The turns that the pending timers still need. *)
Definition turns_left (m : manager Payload) : nat :=
  list_sum (map (fun t => S (Z.to_nat (maxRetries (snd t) - retries (snd t))))
                (timers m)).

(** The webhooks for which [triggerEvent] queues a delivery: the rows of
    [getWebhooks] that list the event type. *)
Definition listening (table : list webhook_row) (organizationId : Z)
    (eventType : string) : list webhook :=
  List.filter (fun w => listens w eventType) (getWebhooks table organizationId).

(** The delivery that [_queueWebhookDelivery] builds for a webhook. *)
Definition queued (webhook : webhook) (eventType : string) (payload : Payload)
    (m : manager Payload) : delivery Payload :=
  mkDelivery (w_id webhook) (w_url webhook) eventType payload
             (secret_key webhook) 0 (this_maxRetries m).

(** A timer as [schedule_retry] sets it: for a count of retries from 1 on,
    with the delay computed from that count. *)
Definition backed_off (t : number * delivery Payload) : Prop :=
  1 <= retries (snd t) /\ fst t = backoff (retries (snd t)).

(** The timers that a pending timer leads to when every attempt throws:
    itself and those of the retries that follow. *)
Definition timers_after (t : number * delivery Payload)
    : list (number * delivery Payload) :=
  t :: retry_timers (snd t).

(** The subscription and the event of a row, and of a pending delivery. *)
Definition subscription_of (row : webhook_log) : Z * string :=
  (webhook_id row, event_type row).

Definition pending_subscription (t : number * delivery Payload) : Z * string :=
  (webhookId (snd t), eventType (snd t)).

(** A row by subscription, event and count of retries; and the row that
    closes a pending delivery once its retries are used up. *)
Definition row_key (row : webhook_log) : Z * string * Z :=
  (webhook_id row, event_type row, retry_count row).

Definition closing_key (t : number * delivery Payload) : Z * string * Z :=
  (webhookId (snd t), eventType (snd t), maxRetries (snd t)).

End WithPayload.

(** Three stored subscriptions, two of organization 1 and one of
    organization 2. *)
Definition example_table : list webhook_row :=
  [ inserted example_webhook;
    mkRow (mkWebhook 8 1 "https://example.org/hook" ["message_sent"; "message_read"]
                     (Some "00112233445566778899aabbccddeeff")) "{}" true;
    mkRow (mkWebhook 9 2 "https://example.net/hook" ["message_sent"]
                     (Some "ffeeddccbbaa99887766554433221100")) "{}" true ].

(** A subscriber that answers 201 every time. *)
Definition always_201 : network sample :=
  fun _ _ => Response 201 "Created".

End WebhookTable.

(** ** The anti-ban manager: the proxy pool *)

Module ProxyPool.

(** A row of [proxy_pool]: the columns the class reads or writes.
    [last_used] has no default and is [NULL] until the proxy is first
    handed out. *)
Record proxy_row : Type := mkProxy {
  p_id : Z;
  p_organization_id : Z;
  ip_address : string;
  password_encrypted : option string;
  p_status : string;
  last_used : option Z;
  failure_count : Z
}.

(** The object returned by [getAvailableProxy]: the row as selected,
    with the property [password] when the method has set it. *)
Record proxy_object : Type := mkObject {
  row : proxy_row;
  password : option string
}.

(** An entry of the [proxyRotation] map. *)
Record rotation : Type := mkRotation {
  proxyId : Z;
  rotatedAt : Z;
  ipAddress : string
}.

(** [WHERE organization_id = $1 AND status = 'active']. *)
Definition candidate (organizationId : Z) (r : proxy_row) : bool :=
  bool_decide (p_organization_id r = organizationId)
  && bool_decide (p_status r = "active").

(** [ORDER BY last_used ASC, failure_count ASC]: [before p q] when [p]
    sorts strictly before [q].  In PostgreSQL an ascending order puts the
    rows whose key is [NULL] last. *)
Definition before (p q : proxy_row) : bool :=
  match last_used p, last_used q with
  | Some a, Some b => (a <? b) || ((a =? b) && (failure_count p <? failure_count q))
  | Some _, None => true
  | None, Some _ => false
  | None, None => failure_count p <? failure_count q
  end.

(** [LIMIT 1] of the ordered rows: a row that no other row sorts before;
    among rows with equal keys, the first of the table. *)
Definition first_row (rows : list proxy_row) : option proxy_row :=
  fold_left (fun best r =>
               match best with
               | None => Some r
               | Some b => if before r b then Some r else Some b
               end) rows None.

(** [UPDATE proxy_pool SET last_used = NOW() WHERE id = $1]. *)
Definition mark_used (now id : Z) (table : list proxy_row) : list proxy_row :=
  map (fun r =>
         if bool_decide (p_id r = id)
         then mkProxy (p_id r) (p_organization_id r) (ip_address r)
                      (password_encrypted r) (p_status r) (Some now)
                      (failure_count r)
         else r) table.

(** [recordProxyFailure(proxyId)].  Both assignments of the UPDATE read
    the row as it was: the [CASE] sees the count before the increment. *)
Definition recordProxyFailure (proxyId : Z) (table : list proxy_row)
    : list proxy_row :=
  map (fun r =>
         if bool_decide (p_id r = proxyId)
         then mkProxy (p_id r) (p_organization_id r) (ip_address r)
                      (password_encrypted r)
                      (if 5 <=? failure_count r then "blocked" else p_status r)
                      (last_used r)
                      (failure_count r + 1)
         else r) table.

Section Decrypt.

(** [db.decryptSensitive], which throws [Decryption failed] on a text it
    cannot decrypt. *)
Variable decryptSensitive : string -> completion string.

(** The end of [getAvailableProxy], after the UPDATE: the password is
    decrypted when the row has one; an exception makes the method return
    [null]. *)
Definition with_password (proxy : proxy_row) : option proxy_object :=
  match password_encrypted proxy with
  | Some text =>
      if bool_decide (text = "") then Some (mkObject proxy None)
      else match decryptSensitive text with
           | Return password => Some (mkObject proxy (Some password))
           | Throw _ => None
           end
  | None => Some (mkObject proxy None)
  end.

(** [getAvailableProxy(organizationId)]; [now] is the [NOW()] of the
    database. *)
Definition getAvailableProxy (now : Z) (organizationId : Z)
    (table : list proxy_row) : option proxy_object * list proxy_row :=
  match first_row (List.filter (candidate organizationId) table) with
  | None => (None, table)
  | Some proxy => (with_password proxy, mark_used now (p_id proxy) table)
  end.

(** [rotateProxy(clientId, organizationId)]; [now] is [Date.now()] and
    [db_now] the [NOW()] of the database. *)
Definition rotateProxy (db_now now : Z) (clientId : string) (organizationId : Z)
    (st : gmap string rotation * list proxy_row)
    : option proxy_object * (gmap string rotation * list proxy_row) :=
  match getAvailableProxy db_now organizationId (snd st) with
  | (None, table) => (None, (fst st, table))
  | (Some currentProxy, table) =>
      (Some currentProxy,
       (<[clientId := mkRotation (p_id (row currentProxy)) now
                                 (ip_address (row currentProxy))]> (fst st),
        table))
  end.

(** The calls [rotateProxy(clientId, organizationId)] made one after the
    other, each with its client and its two clock values, and what they
    return. *)
Fixpoint rotations (calls : list (string * Z * Z)) (organizationId : Z)
    (st : gmap string rotation * list proxy_row)
    : list (option proxy_object) * (gmap string rotation * list proxy_row) :=
  match calls with
  | [] => ([], st)
  | (clientId, db_now, now) :: rest =>
      let (result, st) := rotateProxy db_now now clientId organizationId st in
      let (results, st) := rotations rest organizationId st in
      (result :: results, st)
  end.

End Decrypt.

(** A pool of three proxies of organization 1, none used yet. *)
Definition example_pool : list proxy_row :=
  [ mkProxy 1 1 "10.0.0.1" None "active" None 0;
    mkProxy 2 1 "10.0.0.2" None "active" None 0;
    mkProxy 3 1 "10.0.0.3" None "active" None 0 ].

(** A [decryptSensitive] that fails on every text. *)
Definition example_decrypt (text : string) : completion string :=
  Throw (Error "Decryption failed").

End ProxyPool.

(** ** The anti-ban manager: sessions and random choices *)

Module Sessions.
Import Crypto.

(** A row of [sessions]: the columns [createSession] writes. *)
Record session_row : Type := mkSession {
  client_id : string;
  session_hash : string;
  device_fingerprint : string;
  is_active : bool
}.

Section WithMetadata.
Context {Metadata : Type} `{JSON Metadata}.

(** The object returned by [createSession]. *)
Record sessionData : Type := mkSessionData {
  sessionHash : string;
  createdAt : Z;
  lastActivity : Z;
  metadata : Metadata;
  deviceFingerprint : string
}.

(** [createSession(clientId, organizationId, metadata)], which does not
    read [organizationId].  [entropy] is the result of
    [crypto.randomBytes(32)], [created] and [active] the values of the two
    calls of [Date.now()]. *)
Definition createSession (entropy : buffer) (created active : Z)
    (clientId : string) (organizationId : option Z) (metadata : Metadata)
    (table : list session_row) : sessionData * list session_row :=
  let sessionHash := hex entropy in
  let sessionData :=
    mkSessionData sessionHash created active metadata
                  (hex (sha256 (Buffer_from (JSON_stringify metadata)))) in
  (sessionData,
   table ++ [mkSession clientId sessionHash (deviceFingerprint sessionData) true]).

(** [UPDATE sessions SET is_active = false WHERE client_id = $1]. *)
Definition invalidate (clientId : string) (table : list session_row)
    : list session_row :=
  map (fun r =>
         if bool_decide (client_id r = clientId)
         then mkSession (client_id r) (session_hash r) (device_fingerprint r) false
         else r) table.

(** [rotateSession(clientId)].  [rotatedFrom now] is the object literal
    [{ rotatedFrom: Date.now() }]. *)
Definition rotateSession (rotatedFrom : Z -> Metadata) (entropy : buffer)
    (now created active : Z) (clientId : string) (table : list session_row)
    : sessionData * list session_row :=
  let table := invalidate clientId table in
  createSession entropy created active clientId None (rotatedFrom now) table.

End WithMetadata.

Arguments sessionData Metadata : clear implicits.

(** The active sessions of a client. *)
Definition active_sessions (clientId : string) (table : list session_row)
    : list session_row :=
  List.filter (fun r => bool_decide (client_id r = clientId) && is_active r) table.

End Sessions.

Module RandomChoices.
Local Open Scope Q_scope.

(** [choices[Math.floor(Math.random() * choices.length)]]; an index
    outside the array gives [undefined]. *)
Definition pick {A : Type} (choices : list A) (random : Q) : option A :=
  let index := Qfloor (random * inject_Z (Z.of_nat (length choices))) in
  if (index <? 0)%Z then None else choices !! Z.to_nat index.

Definition languages : list string :=
  [ "en-US,en;q=0.9"; "en-GB,en;q=0.8"; "en-US,en;q=0.9,fr;q=0.8";
    "en-US,en;q=0.9,es;q=0.8" ]%string.

Definition timezones : list string :=
  [ "America/New_York"; "America/Chicago"; "America/Los_Angeles";
    "Europe/London"; "Europe/Paris"; "Asia/Tokyo" ]%string.

Definition resolutions : list string :=
  [ "1920x1080"; "1366x768"; "1440x900"; "1536x864" ]%string.

Definition _randomAcceptLanguage (random : Q) : option string :=
  pick languages random.

Definition _randomTimezone (random : Q) : option string :=
  pick timezones random.

Definition _randomScreenResolution (random : Q) : option string :=
  pick resolutions random.

(** [colorDepth] and [deviceMemory] of [generateBrowserProfile]. *)
Definition colorDepth (random : Q) : option Z := pick [16; 24; 32]%Z random.
Definition deviceMemory (random : Q) : option Z := pick [4; 8; 16; 32]%Z random.

End RandomChoices.

(** * Properties *)

(** ** Digests and buffers *)

Module CryptoFacts.
Import Crypto.

(** Test vectors: FIPS 180-4 for SHA-256, and a known HMAC. *)
Example sha256_abc :
  hex (sha256 (Buffer_from "abc"))
  = "ba7816bf8f01cfea414140de5dae2223b00361a396177a9cb410ff61f20015ad".
Proof. vm_compute. reflexivity. Qed.

Example hmac_sha256_rfc_vector :
  hex (hmac_sha256 (Buffer_from "key")
     (Buffer_from "The quick brown fox jumps over the lazy dog"))
  = "f7bc83f430538424b13298e6aa6fb143ef4d59a14946175997479dbc2d1a3cd8".
Proof. vm_compute. reflexivity. Qed.

Lemma length_sha256 (msg : buffer) : length (sha256 msg) = 32%nat.
Proof. reflexivity. Qed.

Lemma length_hmac_sha256 (key msg : buffer) :
  length (hmac_sha256 key msg) = 32%nat.
Proof. unfold hmac_sha256. apply length_sha256. Qed.

Lemma length_Buffer_from (s : string) :
  length (Buffer_from s) = String.length s.
Proof.
  unfold Buffer_from. rewrite length_map.
  induction s as [|c s IH]; simpl; [reflexivity | now rewrite IH].
Qed.

Lemma length_hex (b : buffer) : String.length (hex b) = (2 * length b)%nat.
Proof. induction b as [|o b IH]; simpl; [reflexivity | rewrite IH; lia]. Qed.

Lemma length_hex_digest (key msg : buffer) :
  length (Buffer_from (hex (hmac_sha256 key msg))) = 64%nat.
Proof. now rewrite length_Buffer_from, length_hex, length_hmac_sha256. Qed.

Lemma timingSafeEqual_same (a : buffer) : timingSafeEqual a a = Return true.
Proof.
  unfold timingSafeEqual. rewrite decide_True by reflexivity.
  now rewrite bool_decide_eq_true_2.
Qed.

Lemma timingSafeEqual_tampered (a : buffer) (i : nat) (o o' : Z) :
  a !! i = Some o -> o' <> o ->
  timingSafeEqual (<[i := o']> a) a = Return false.
Proof.
  intros Hi Hne. unfold timingSafeEqual.
  rewrite decide_True by apply length_insert.
  rewrite bool_decide_eq_false_2; [reflexivity |].
  intros Heq.
  assert (Hlt : (i < length a)%nat) by (eapply lookup_lt_Some; eassumption).
  apply (f_equal (fun l : list Z => l !! i)) in Heq.
  unfold buffer in *. rewrite list_lookup_insert_eq in Heq by exact Hlt.
  congruence.
Qed.

Lemma timingSafeEqual_lengths (a b : buffer) :
  length a <> length b ->
  timingSafeEqual a b
  = Throw (RangeError "Input buffers must have the same byte length").
Proof. intros Hne. unfold timingSafeEqual. now rewrite decide_False. Qed.

End CryptoFacts.

(** ** The webhook manager *)

Module WebhookFacts.
Import Crypto CryptoFacts WebhookManager.

Section Signature.
Context {Payload : Type} `{JSON Payload}.

Lemma generateSignature_length (payload : Payload) (secret signature : string) :
  _generateSignature payload (Some secret) = Return signature ->
  length (Buffer_from signature) = 64%nat.
Proof. intros [= <-]. apply length_hex_digest. Qed.

(** C8.  Signing a payload with a secret yields the hexadecimal
    HMAC-SHA256, keyed by the secret, of [JSON.stringify(payload)];
    verifying that signature with the same payload and secret returns
    true; and verifying a candidate whose bytes are those of the
    signature with the byte at any one position replaced by a different
    one returns false. *)
Theorem signature_round_trip (payload : Payload) (secret : string) :
  exists signature,
    _generateSignature payload (Some secret) = Return signature
    /\ signature = hex (hmac_sha256 (Buffer_from secret)
                                    (Buffer_from (JSON_stringify payload)))
    /\ verifyWebhookSignature payload signature (Some secret) = Return true
    /\ forall (candidate : string) (i : nat) (o o' : Z),
         Buffer_from signature !! i = Some o ->
         o' <> o ->
         Buffer_from candidate = <[i := o']> (Buffer_from signature) ->
         verifyWebhookSignature payload candidate (Some secret) = Return false.
Proof.
  eexists. split; [reflexivity |]. split; [reflexivity |]. split.
  - unfold verifyWebhookSignature, _generateSignature.
    apply timingSafeEqual_same.
  - intros candidate i o o' Hi Hne Hcand.
    unfold verifyWebhookSignature, _generateSignature. rewrite Hcand.
    now apply timingSafeEqual_tampered with (o := o).
Qed.

(** C10.  The expected signature is 64 bytes long.  A candidate of any
    other byte length makes the verification throw a [RangeError]; the
    verification returns a boolean exactly when the candidate is 64
    bytes long. *)
Theorem verify_throws_on_length_mismatch (payload : Payload)
    (signature secret : string) :
  (length (Buffer_from signature) <> 64%nat ->
   verifyWebhookSignature payload signature (Some secret)
   = Throw (RangeError "Input buffers must have the same byte length"))
  /\ ((exists b, verifyWebhookSignature payload signature (Some secret) = Return b)
      <-> length (Buffer_from signature) = 64%nat).
Proof.
  unfold verifyWebhookSignature, _generateSignature.
  pose proof (length_hex_digest (Buffer_from secret)
                (Buffer_from (JSON_stringify payload))) as Hlen.
  split.
  - intros Hne. apply timingSafeEqual_lengths. congruence.
  - unfold timingSafeEqual. split.
    + intros [b Hb]. destruct (decide _) as [Heq|Hne'] in Hb; congruence.
    + intros H64. rewrite decide_True by congruence. eauto.
Qed.

End Signature.

Section Registration.
Context {Payload : Type} `{JSON Payload}.
Variables (parse : string -> completion URL) (production : bool)
          (entropy : buffer) (organizationId userId : Z) (url : string).

(** With a URL that passes [_validateWebhookUrl], the registration
    succeeds exactly when every event is one of [validEvents]. *)
Lemma registerWebhook_accepts (events : list string) (m : manager Payload) :
  _validateWebhookUrl parse production url = Return true ->
  (exists r, fst (registerWebhook parse production entropy organizationId
                    userId url events m) = Return r)
  <-> Forall (fun e => e ∈ validEvents) events.
Proof.
  intros Hurl. unfold registerWebhook. rewrite Hurl.
  set (invalid := List.filter _ events).
  assert (Hinv : invalid = [] <-> Forall (fun e => e ∈ validEvents) events).
  { subst invalid. induction events as [|e events IH]; simpl.
    - split; [constructor | reflexivity].
    - destruct (bool_decide (e ∈ validEvents)) eqn:He; simpl.
      + apply bool_decide_eq_true_1 in He. rewrite IH.
        split; [now constructor | now inversion 1].
      + apply bool_decide_eq_false_1 in He.
        split; [discriminate | now inversion 1]. }
  destruct invalid as [|e rest]; simpl.
  - split; [intros _; now apply Hinv | eauto].
  - split; [intros [r [=]] | intros HF; apply Hinv in HF; discriminate].
Qed.

(** C4, at the inputs where the code departs from it.  Registering any
    of the thirteen event types as the specification spells them, with
    a dot, throws: [validEvents] spells them with an underscore. *)
Theorem registerWebhook_rejects_spec_event_types (m : manager Payload) :
  Forall (fun name =>
            exists e, fst (registerWebhook parse production entropy
                             organizationId userId url [name] m) = Throw e)
         spec_event_types.
Proof.
  unfold registerWebhook.
  destruct (_validateWebhookUrl parse production url) as [b|e].
  - repeat constructor; eexists; vm_compute; reflexivity.
  - repeat constructor; eexists; reflexivity.
Qed.

(** A subscription whose events all passed the validation of
    [registerWebhook] listens to none of the event types that the server
    triggers. *)
Lemma accepted_events_never_triggered (w : webhook) :
  Forall (fun e => e ∈ validEvents) (w_events w) ->
  Forall (fun eventType => listens w eventType = false) spec_event_types.
Proof.
  intros Hvalid.
  assert (Hdisjoint : Forall (fun e => e ∉ validEvents) spec_event_types)
    by (apply (bool_decide_unpack _); vm_compute; exact I).
  eapply Forall_impl; [exact Hdisjoint |].
  intros e Hnot. unfold listens. apply bool_decide_eq_false_2.
  intros Hin. apply Hnot.
  rewrite Forall_forall in Hvalid. now apply Hvalid.
Qed.

End Registration.

(** The call of the repository's own usage notes, on a manager just
    built: [registerWebhook(org, user, 'https://example.com/webhook',
    ['message.sent', 'message.received', 'client.connected'])]. *)
Example registerWebhook_usage_notes :
  fst (registerWebhook example_parse false (repeat 0 32) 1 1
         "https://example.com/webhook"
         ["message.sent"; "message.received"; "client.connected"]
         (constructor (Payload := sample) None None))
  = Throw (Error
      "Invalid events: message.sent, message.received, client.connected").
Proof. vm_compute. reflexivity. Qed.

Example registerWebhook_underscore_names :
  fst (registerWebhook example_parse false (repeat 0 32) 1 1
         "https://example.com/webhook" ["message_sent"]
         (constructor (Payload := sample) None None))
  = Return (mkRegistration 1 "https://example.com/webhook" ["message_sent"]
      "0000000000000000000000000000000000000000000000000000000000000000").
Proof. vm_compute. reflexivity. Qed.

Section Delivery.
Context {Payload : Type} `{JSON Payload}.
Variable net : network Payload.

Implicit Types (d : delivery Payload) (m : manager Payload).

(** What one call of [_deliverWebhook] changes. *)
Lemma deliverWebhook_effect d m c m1 :
  _deliverWebhook net d m = (c, m1) ->
  eventQueue m1 = eventQueue m /\ timers m1 = timers m
  /\ immediates m1 = immediates m
  /\ this_maxRetries m1 = this_maxRetries m
  /\ (posts m <= posts m1)%nat
  /\ exists rows,
       webhook_logs m1 = webhook_logs m ++ rows
       /\ (length rows <= posts m1 - posts m)%nat
       /\ match c with
          | Return _ =>
              exists row, rows = [row] /\ outcome_of row = Delivered
                          /\ retry_count row = retries d
          | Throw _ =>
              Forall (fun row => outcome_of row = Failed
                                 /\ retry_count row = retries d) rows
          end.
Proof.
  unfold _deliverWebhook.
  destruct (_generateSignature (payload d) (secretKey d)) as [signature|e].
  2:{ intros [= <- <-]. repeat split; try lia.
      exists []. rewrite app_nil_r. repeat split; [simpl; lia | constructor]. }
  destruct (net (posts m) _) as [status statusText|message].
  2:{ intros [= <- <-]. simpl. repeat split; try lia.
      exists []. rewrite app_nil_r. repeat split; [simpl; lia | constructor]. }
  destruct (negb (bool_decide (status = 200)) && negb (bool_decide (status = 204)))
    eqn:Hstatus; intros [= <- <-]; simpl; repeat split; try lia;
    eexists; (split; [reflexivity |]); (split; [simpl; lia |]).
  - constructor; [| constructor]. split; [| reflexivity].
    unfold outcome_of; simpl.
    destruct (bool_decide (status = 200)), (bool_decide (status = 204));
      simpl in *; congruence.
  - eexists. split; [reflexivity |]. split; [| reflexivity].
    unfold outcome_of; simpl.
    destruct (bool_decide (status = 200)), (bool_decide (status = 204));
      simpl in *; congruence.
Qed.

Lemma deliverWebhook_quiescent d m c m1 :
  _deliverWebhook net d m = (c, m1) -> quiescent m -> quiescent m1.
Proof.
  intros Hd (Hq & Ht & Hi).
  destruct (deliverWebhook_effect _ _ _ _ Hd) as (E1 & E2 & E3 & _).
  unfold quiescent. now rewrite E1, E2, E3.
Qed.

(** On a manager with nothing pending, pushing a delivery and
    processing the queue is one attempt followed by one arm of the
    [catch]. *)
Lemma push_and_process_quiescent d m :
  quiescent m ->
  push_and_process net d m
  = match _deliverWebhook net d m with
    | (Return _, m1) => m1
    | (Throw e, m1) =>
        if retries d <? maxRetries d then schedule_retry d m1
        else record_failure d e m1
    end.
Proof.
  intros (Hq & Ht & Hi).
  unfold push_and_process, _processQueue.
  destruct m as [mr tm q t i w l lg p]. simpl in *. subst q t i. simpl.
  unfold set_eventQueue at 1. simpl.
  destruct (_deliverWebhook net d _) as [c m1] eqn:Hd.
  destruct (deliverWebhook_effect _ _ _ _ Hd) as (Hq1 & _).
  simpl in Hq1.
  destruct c as [[]|e]; [now rewrite Hq1 |].
  destruct (retries d <? maxRetries d); simpl; now rewrite Hq1.
Qed.

Lemma run_quiescent m fuel : quiescent m -> run fuel net m = m.
Proof.
  intros (_ & Ht & Hi). destruct fuel; [reflexivity |].
  simpl. unfold turn. now rewrite Hi, Ht.
Qed.

Lemma record_failure_quiescent d e m :
  quiescent m -> quiescent (record_failure d e m).
Proof. intros (? & ? & ?). now repeat split. Qed.

Lemma timer_fired_quiescent d m :
  quiescent m -> quiescent (set_timers [] (schedule_retry d m)).
Proof. intros (? & ? & ?). now repeat split. Qed.

Lemma turn_schedule_retry d m :
  quiescent m ->
  turn net (schedule_retry d m)
  = Some (push_and_process net (increment_retries d)
            (set_timers [] (schedule_retry d m))).
Proof.
  intros (Hq & Ht & Hi). unfold turn.
  replace (immediates (schedule_retry d m)) with O by (symmetry; exact Hi).
  unfold schedule_retry at 1. simpl. rewrite Ht. reflexivity.
Qed.

(** In any manager, an attempt that throws with retries left sets one
    timer, with the delay [Math.pow(2, retries + 1) * 1000]. *)
Lemma processQueue_sets_backoff_timer d (rest : list (delivery Payload)) m e m1 :
  eventQueue m = d :: rest ->
  _deliverWebhook net d (set_eventQueue rest m) = (Throw e, m1) ->
  retries d < maxRetries d ->
  timers (_processQueue net m)
  = timers m ++ [(backoff (retries d + 1), increment_retries d)].
Proof.
  intros Hq Hd Hlt. unfold _processQueue. rewrite Hq, Hd.
  destruct (deliverWebhook_effect _ _ _ _ Hd) as (_ & Ht & _).
  apply Z.ltb_lt in Hlt. rewrite Hlt.
  destruct (0 <? _); simpl; now rewrite Ht.
Qed.

(** The loop runs every delivery to its end: [maxRetries - retries]
    turns are enough. *)
Lemma run_completes (fuel : nat) : forall d m,
  quiescent m ->
  (Z.to_nat (maxRetries d - retries d) <= fuel)%nat ->
  completes net d m (run fuel net (push_and_process net d m)).
Proof.
  induction fuel as [|fuel IH]; intros d m Hq Hfuel;
    rewrite push_and_process_quiescent by assumption;
    destruct (_deliverWebhook net d m) as [[[]|e] m1] eqn:Hd;
    pose proof (deliverWebhook_quiescent _ _ _ _ Hd Hq) as Hq1.
  - simpl. now apply completes_delivered.
  - destruct (Z.ltb_spec (retries d) (maxRetries d)) as [Hlt|Hge]; [lia |].
    simpl. eapply completes_failed; [eassumption | lia].
  - rewrite run_quiescent by assumption. now apply completes_delivered.
  - destruct (Z.ltb_spec (retries d) (maxRetries d)) as [Hlt|Hge].
    + simpl. rewrite turn_schedule_retry by assumption.
      eapply completes_retried; [eassumption | assumption |].
      apply IH; [now apply timer_fired_quiescent | simpl; lia].
    + rewrite run_quiescent by now apply record_failure_quiescent.
      eapply completes_failed; [eassumption | lia].
Qed.

Lemma completes_quiescent d m m' :
  completes net d m m' -> quiescent m -> quiescent m'.
Proof.
  induction 1 as [d m m1 Hd|d m e m1 Hd Hge|d m e m1 m' Hd Hlt _ IH]; intros Hq;
    pose proof (deliverWebhook_quiescent _ _ _ _ Hd Hq) as Hq1.
  - assumption.
  - now apply record_failure_quiescent.
  - apply IH. now apply timer_fired_quiescent.
Qed.

Lemma record_failure_effect d e m :
  timers (record_failure d e m) = timers m
  /\ webhook_logs (record_failure d e m) = webhook_logs m ++ [failure_row d e]
  /\ posts (record_failure d e m) = posts m.
Proof. now repeat split. Qed.

Lemma timer_fired_effect d m :
  this_maxRetries (set_timers [] (schedule_retry d m)) = this_maxRetries m
  /\ webhook_logs (set_timers [] (schedule_retry d m)) = webhook_logs m
  /\ posts (set_timers [] (schedule_retry d m)) = posts m.
Proof. now repeat split. Qed.

Lemma queued_completes (w : webhook) (eventType : string) (payload : Payload) m :
  quiescent m ->
  completes net
    (mkDelivery (w_id w) (w_url w) eventType payload (secret_key w) 0
                (this_maxRetries m)) m
    (run (Z.to_nat (this_maxRetries m)) net
         (_queueWebhookDelivery net w eventType payload m)).
Proof.
  intros Hq. unfold _queueWebhookDelivery.
  apply run_completes; [assumption | simpl; lia].
Qed.

End Delivery.

(** The rows of the example delivery to a subscriber that answers 503
    every time: one row per response, then the row of status 500. *)
Example rows_always_503 :
  map (fun row => (status_code row, error_message_ row, retry_count row))
      (webhook_logs (example_run always_503))
  = [ (503, Some "Service Unavailable", 0); (503, Some "Service Unavailable", 1);
      (503, Some "Service Unavailable", 2); (503, Some "Service Unavailable", 3);
      (500, Some "Webhook returned 503: Service Unavailable", 3) ].
Proof. vm_compute. reflexivity. Qed.

(** To a subscriber that answers 500 twice and then 200. *)
Example rows_recovers_at_third :
  map (fun row => (status_code row, retry_count row))
      (webhook_logs (example_run recovers_at_third))
  = [ (500, 0); (500, 1); (200, 2) ].
Proof. vm_compute. reflexivity. Qed.

(** To a subscriber that cannot be reached: only the closing row. *)
Example rows_unreachable :
  map (fun row => (status_code row, error_message_ row, retry_count row))
      (webhook_logs (example_run unreachable))
  = [ (500, Some "connect ECONNREFUSED", 3) ].
Proof. vm_compute. reflexivity. Qed.

(** The witness of C8: the signature of [{}] under a secret, with its
    first character changed from [a] to [b]. *)
Lemma signature_round_trip_witness :
  verifyWebhookSignature empty_object
    "bdbde1ce40c89c14215687d5d762a47df6dfaefcfad61e2e86718ffc8498571b"
    (Some "s3cret") = Return false.
Proof.
  destruct (signature_round_trip empty_object "s3cret")
    as (signature & Hsig & Hhex & _ & Htampered).
  apply (Htampered _ 0%nat 97 98); subst signature.
  - vm_compute. reflexivity.
  - lia.
  - vm_compute. reflexivity.
Defined.

(** The witness of C10: a signature cut down to 63 characters. *)
Lemma verify_throws_on_length_mismatch_witness :
  verifyWebhookSignature empty_object
    "adbde1ce40c89c14215687d5d762a47df6dfaefcfad61e2e86718ffc8498571"
    (Some "s3cret")
  = Throw (RangeError "Input buffers must have the same byte length").
Proof.
  apply (proj1 (verify_throws_on_length_mismatch empty_object _ "s3cret")).
  vm_compute. lia.
Defined.

End WebhookFacts.

(** ** Rounding to doubles *)

Module DoubleFacts.
Import Double.
Local Open Scope Q_scope.

Lemma pow2_positive (e : Z) : 0 < 2 ^ e.
Proof. now apply Qpower_0_lt. Qed.

Lemma pow2_le (a b : Z) : (a <= b)%Z -> 2 ^ a <= 2 ^ b.
Proof. intros Hab. now apply Qpower_le_compat_l. Qed.

Lemma pow2_add (a b : Z) : 2 ^ (a + b) == 2 ^ a * 2 ^ b.
Proof. now apply Qpower_plus. Qed.

Lemma pow2_succ (a : Z) : 2 ^ (a + 1) == 2 * 2 ^ a.
Proof. rewrite pow2_add. simpl (2 ^ 1). ring. Qed.

Lemma pow2_inject (n : Z) : (0 <= n)%Z -> inject_Z (2 ^ n) == 2 ^ n.
Proof. intros Hn. now rewrite Zpower_Qpower. Qed.

(** [exponent x] is the integer part of the binary logarithm of [x]. *)
Lemma exponent_spec (x : Q) :
  0 < x -> 2 ^ exponent x <= x /\ x < 2 ^ (exponent x + 1).
Proof.
  intros Hx. unfold exponent.
  destruct x as [n d]. simpl Qnum. simpl Qden.
  assert (Hn : (0 < n)%Z) by (unfold Qlt in Hx; simpl in Hx; lia).
  set (a := Z.log2 n). set (b := Z.log2 (Z.pos d)).
  destruct (Z.log2_spec n Hn) as [Ha1 Ha2]. fold a in Ha1, Ha2.
  destruct (Z.log2_spec (Z.pos d) ltac:(lia)) as [Hb1 Hb2]. fold b in Hb1, Hb2.
  assert (Ha0 : (0 <= a)%Z) by apply Z.log2_nonneg.
  assert (Hb0 : (0 <= b)%Z) by apply Z.log2_nonneg.
  assert (HA := pow2_positive a). assert (HB := pow2_positive b).
  assert (Ea : inject_Z (2 ^ a) == 2 ^ a) by now apply pow2_inject.
  assert (Eb : inject_Z (2 ^ b) == 2 ^ b) by now apply pow2_inject.
  assert (Ea' : inject_Z (2 ^ Z.succ a) == 2 * 2 ^ a).
  { rewrite pow2_inject by lia. unfold Z.succ. apply pow2_succ. }
  assert (Eb' : inject_Z (2 ^ Z.succ b) == 2 * 2 ^ b).
  { rewrite pow2_inject by lia. unfold Z.succ. apply pow2_succ. }
  assert (Hn1 : 2 ^ a <= inject_Z n) by (rewrite <- Ea; now rewrite <- Zle_Qle).
  assert (Hn2 : inject_Z n < 2 * 2 ^ a) by (rewrite <- Ea'; now rewrite <- Zlt_Qlt).
  assert (Hd1 : 2 ^ b <= inject_Z (Z.pos d)) by (rewrite <- Eb; now rewrite <- Zle_Qle).
  assert (Hd2 : inject_Z (Z.pos d) < 2 * 2 ^ b) by (rewrite <- Eb'; now rewrite <- Zlt_Qlt).
  assert (Ex : n # d == inject_Z n / inject_Z (Z.pos d)) by apply Qmake_Qdiv.
  assert (Hd : 0 < inject_Z (Z.pos d)) by (apply Qlt_le_trans with (2 ^ b); assumption).
  assert (Ek : 2 ^ (a - b) * 2 ^ b == 2 ^ a).
  { rewrite <- pow2_add. now replace (a - b + b)%Z with a by lia. }
  assert (HK := pow2_positive (a - b)).
  assert (Hupper : n # d < 2 ^ (a - b + 1)).
  { rewrite pow2_succ, Ex. apply Qlt_shift_div_r; [exact Hd |]. nra. }
  assert (Hlower : 2 ^ (a - b - 1) <= n # d).
  { assert (Ek' : 2 * 2 ^ (a - b - 1) == 2 ^ (a - b)).
    { rewrite <- pow2_succ. now replace (a - b - 1 + 1)%Z with (a - b)%Z by lia. }
    assert (HK' := pow2_positive (a - b - 1)).
    rewrite Ex. apply Qle_shift_div_l; [exact Hd |]. nra. }
  destruct (Qle_bool (2 ^ (a - b)) (n # d)) eqn:Htest.
  - apply Qle_bool_iff in Htest. now split.
  - split; [exact Hlower |].
    replace (a - b - 1 + 1)%Z with (a - b)%Z by lia.
    apply Qnot_le_lt. intros Hle. apply Qle_bool_iff in Hle. congruence.
Qed.

Lemma exponent_monotone (x y : Q) :
  0 < x -> x <= y -> (exponent x <= exponent y)%Z.
Proof.
  intros Hx Hxy.
  destruct (exponent_spec x Hx) as [Hx1 _].
  destruct (exponent_spec y) as [_ Hy2]; [now apply Qlt_le_trans with x |].
  destruct (Z.le_gt_cases (exponent x) (exponent y)) as [Hle|Hgt]; [exact Hle |].
  exfalso. assert (Hp := pow2_le (exponent y + 1) (exponent x) ltac:(lia)). lra.
Qed.

Lemma nearest_even_bounds (q : Q) :
  (Qfloor q <= nearest_even q <= Qfloor q + 1)%Z.
Proof.
  unfold nearest_even. destruct (Qcompare _ _); [destruct (Z.even _) | |]; lia.
Qed.

Lemma nearest_even_monotone (p q : Q) :
  p <= q -> (nearest_even p <= nearest_even q)%Z.
Proof.
  intros Hpq. pose proof (Qfloor_resp_le _ _ Hpq) as Hfloor.
  destruct (Z.eq_dec (Qfloor p) (Qfloor q)) as [Heq|Hne].
  - unfold nearest_even. rewrite <- Heq.
    destruct (Qcompare_spec (p - inject_Z (Qfloor p)) (1 # 2)) as [Hp|Hp|Hp];
      destruct (Qcompare_spec (q - inject_Z (Qfloor p)) (1 # 2)) as [Hq|Hq|Hq];
      try destruct (Z.even (Qfloor p)); try lia; exfalso; lra.
  - pose proof (nearest_even_bounds p). pose proof (nearest_even_bounds q). lia.
Qed.

Lemma nearest_even_above (z : Z) (q : Q) :
  inject_Z z <= q -> (z <= nearest_even q)%Z.
Proof.
  intros Hz. apply Qfloor_resp_le in Hz. rewrite Qfloor_Z in Hz.
  pose proof (nearest_even_bounds q). lia.
Qed.

Lemma nearest_even_below (z : Z) (q : Q) :
  q < inject_Z z -> (nearest_even q <= z)%Z.
Proof.
  intros Hz. pose proof (Qfloor_le q) as Hf.
  assert (Hlt : (Qfloor q < z)%Z) by (rewrite Zlt_Qlt; lra).
  pose proof (nearest_even_bounds q). lia.
Qed.

(** A positive number rounds to a number of its own binade, the upper
    end included. *)
Lemma round_positive_bounds (x : Q) :
  0 < x ->
  2 ^ exponent x <= round_positive x /\ round_positive x <= 2 ^ (exponent x + 1).
Proof.
  intros Hx. destruct (exponent_spec x Hx) as [Hlow Hhigh].
  unfold round_positive.
  set (e := exponent x) in *. set (ulp := 2 ^ (e - 52)).
  assert (Hulp : 0 < ulp) by apply pow2_positive.
  assert (E52 : inject_Z (2 ^ 52) * ulp == 2 ^ e).
  { rewrite pow2_inject by lia. unfold ulp. rewrite <- pow2_add.
    now replace (52 + (e - 52))%Z with e by lia. }
  assert (E53 : inject_Z (2 ^ 53) * ulp == 2 ^ (e + 1)).
  { rewrite pow2_inject by lia. unfold ulp. rewrite <- pow2_add.
    now replace (53 + (e - 52))%Z with (e + 1)%Z by lia. }
  assert (Hq1 : inject_Z (2 ^ 52) <= x / ulp).
  { apply Qle_shift_div_l; [exact Hulp |]. now rewrite E52. }
  assert (Hq2 : x / ulp < inject_Z (2 ^ 53)).
  { apply Qlt_shift_div_r; [exact Hulp |]. now rewrite E53. }
  apply nearest_even_above in Hq1. apply nearest_even_below in Hq2.
  rewrite Zle_Qle in Hq1, Hq2.
  split.
  - rewrite <- E52. apply Qmult_le_compat_r; [exact Hq1 | lra].
  - rewrite <- E53. apply Qmult_le_compat_r; [exact Hq2 | lra].
Qed.

Lemma round_positive_monotone (x y : Q) :
  0 < x -> x <= y -> round_positive x <= round_positive y.
Proof.
  intros Hx Hxy. assert (Hy : 0 < y) by lra.
  pose proof (exponent_monotone x y Hx Hxy) as He.
  destruct (Z.eq_dec (exponent x) (exponent y)) as [Heq|Hne].
  - unfold round_positive. rewrite <- Heq.
    set (ulp := 2 ^ (exponent x - 52)).
    assert (Hulp : 0 < ulp) by apply pow2_positive.
    apply Qmult_le_compat_r; [| lra].
    rewrite <- Zle_Qle. apply nearest_even_monotone.
    apply Qle_shift_div_l; [exact Hulp |].
    unfold Qdiv. rewrite <- Qmult_assoc, (Qmult_comm (/ ulp)), Qmult_inv_r by lra.
    lra.
  - destruct (round_positive_bounds x Hx) as [_ Hxu].
    destruct (round_positive_bounds y Hy) as [Hyl _].
    assert (Hp := pow2_le (exponent x + 1) (exponent y) ltac:(lia)). lra.
Qed.

(** Rounding is monotone; it is used here on numbers that are not
    negative. *)
Lemma round_monotone (x y : Q) : 0 <= x -> x <= y -> round x <= round y.
Proof.
  intros Hx Hxy. unfold round.
  destruct (Qcompare_spec x 0) as [Ex|Ex|Ex]; [| lra |];
    destruct (Qcompare_spec y 0) as [Ey|Ey|Ey]; try lra.
  - destruct (round_positive_bounds y Ey) as [Hl _].
    pose proof (pow2_positive (exponent y)). lra.
  - now apply round_positive_monotone.
Qed.

End DoubleFacts.

(** ** The anti-ban manager *)

Module AntiBanFacts.
Import AntiBan.
Local Open Scope Q_scope.

Lemma geq_true (a b : Q) : geq a b = true <-> b <= a.
Proof. apply Qle_bool_iff. Qed.

Lemma geq_false (a b : Q) : geq a b = false <-> a < b.
Proof.
  unfold geq. split.
  - intros Hf. apply Qnot_le_lt. intros Hle.
    apply Qle_bool_iff in Hle. congruence.
  - intros Hlt. destruct (Qle_bool b a) eqn:E; [| reflexivity].
    apply Qle_bool_iff in E. apply Qlt_not_le in Hlt. contradiction.
Qed.

Lemma max_restart_if_over (duration now : Z) (w : rateWindow) :
  max (restart_if_over duration now w) = max w.
Proof. unfold restart_if_over. now destruct (_ <? _)%Z. Qed.

(** Case analysis on the next comparison of a ceiling check. *)
Ltac case_geq H :=
  match goal with
  | |- context [if geq ?a ?b then _ else _] => destruct (geq a b) eqn:H
  end.

(** What the check stores and what it answers, for a client with a
    limiter. *)
Lemma canSendMessage_stores (now : Z) (c : string) (m : manager) (l : limiter) :
  rateLimits m !! c = Some l ->
  snd (canSendMessage now c m)
  = mkManager (<[c := refresh_windows now l]> (rateLimits m)) (ban_alerts m).
Proof.
  intros Hl. unfold canSendMessage. rewrite Hl.
  repeat (destruct (geq _ _); [reflexivity |]). reflexivity.
Qed.


(** [Math.max(5, max / 2)] at the three ceilings a minute can have. *)
Lemma halved_ceiling_value (x : Q) :
  (x == 20 -> Math_max 5 (x / 2) == 10)
  /\ (x == 10 -> Math_max 5 (x / 2) == 5)
  /\ (x == 5 -> Math_max 5 (x / 2) == 5).
Proof.
  unfold Math_max.
  repeat split; intros E; destruct (Qle_bool 5 (x / 2)) eqn:B;
    try reflexivity; try (rewrite E; reflexivity).
  - assert (Hle : 5 <= x / 2) by (rewrite E; easy).
    apply Qle_bool_iff in Hle. congruence.
  - apply Qle_bool_iff in B. rewrite E in B. easy.
Qed.

(** The ceilings stay whole numbers: the only method that changes one is
    [triggerProtectiveMeasures], which takes 20 to 10, 10 to 5 and leaves
    5. *)
Lemma whole_ceilings_halved (l : limiter) :
  whole_ceilings l ->
  whole_ceilings
    (mkLimiter (clientId l)
       (mkLimits (mkWindow (Math_max 5 (max (perMinute (limits l)) / 2))
                           (current (perMinute (limits l)))
                           (window (perMinute (limits l))))
                 (perHour (limits l)) (perDay (limits l)))
       (suspiciousActivityCount l) (adaptiveThreshold l)).
Proof.
  intros (Hminute & Hhour & Hday). unfold whole_ceilings. simpl.
  split; [| now split].
  destruct (halved_ceiling_value (max (perMinute (limits l))))
    as (H20 & H10 & H5).
  destruct Hminute as [E|[E|E]]; auto.
Qed.

Lemma triggerProtectiveMeasures_invariant (c : string) (m : manager) :
  ceilings_invariant m -> ceilings_invariant (triggerProtectiveMeasures c m).
Proof.
  intros Hinv c' l'. unfold triggerProtectiveMeasures.
  destruct (rateLimits m !! c) as [l|] eqn:Hl; simpl; [| apply Hinv].
  destruct (decide (c = c')) as [->|Hne].
  - rewrite lookup_insert_eq. intros [= <-].
    apply whole_ceilings_halved. now apply Hinv with c'.
  - rewrite lookup_insert_ne by assumption. apply Hinv.
Qed.

Lemma reachable_ceilings (m : manager) : reachable m -> ceilings_invariant m.
Proof.
  induction 1 as [|now c org m _ IH|now c m _ IH|c m _ IH|c a m _ IH|c m _ IH];
    intros c' l'.
  - simpl. now rewrite lookup_empty.
  - simpl. destruct (decide (c = c')) as [->|Hne].
    + rewrite lookup_insert_eq. intros [= <-].
      repeat split; [left |..]; reflexivity.
    + rewrite lookup_insert_ne by assumption. apply IH.
  - destruct (rateLimits m !! c) as [l|] eqn:Hl.
    + rewrite (canSendMessage_stores _ _ _ _ Hl). simpl.
      destruct (decide (c = c')) as [->|Hne].
      * rewrite lookup_insert_eq. intros [= <-].
        destruct (IH _ _ Hl) as (Hminute & Hhour & Hday).
        unfold whole_ceilings. simpl. now rewrite !max_restart_if_over.
      * rewrite lookup_insert_ne by assumption. apply IH.
    + unfold canSendMessage. rewrite Hl. apply IH.
  - unfold recordMessageSend.
    destruct (rateLimits m !! c) as [l|] eqn:Hl; [| apply IH]. simpl.
    destruct (decide (c = c')) as [->|Hne].
    + rewrite lookup_insert_eq. intros [= <-]. exact (IH _ _ Hl).
    + rewrite lookup_insert_ne by assumption. apply IH.
  - unfold detectSuspiciousActivity.
    destruct (rateLimits m !! c) as [l|] eqn:Hl; [| apply IH].
    destruct (existsb _ _); [| apply IH].
    assert (Hcounted : ceilings_invariant
              (mkManager
                 (<[c := mkLimiter (clientId l) (limits l)
                           (suspiciousActivityCount l + 1)%Z
                           (adaptiveThreshold l)]> (rateLimits m))
                 (ban_alerts m ++ [mkAlert c "suspicious_activity" (Some a)]))).
    { intros c'' l''. simpl. destruct (decide (c = c'')) as [->|Hne].
      - rewrite lookup_insert_eq. intros [= <-]. exact (IH _ _ Hl).
      - rewrite lookup_insert_ne by assumption. apply IH. }
    cbn [suspiciousActivityCount]. destruct (3 <? _)%Z; cbn [snd].
    + exact (triggerProtectiveMeasures_invariant c _ Hcounted c' l').
    + exact (Hcounted c' l').
  - now apply triggerProtectiveMeasures_invariant.
Qed.





(** C6, as the code has it.  [canSendMessage] looks at the windows,
    once it has restarted those that were over, in the order minute,
    hour, day, and answers [allowed: false] for the first whose count is
    at or above its ceiling, naming that window in the reason, with
    [retryAfter] equal to the whole length of that window in seconds: 60,
    3600 or 86400, whatever the time left in the window.  It answers
    [allowed: true] exactly when no window is exhausted. *)
Theorem blocked_names_first_exhausted_window (now : Z) (c : string)
    (m : manager) (l : limiter) :
  rateLimits m !! c = Some l ->
  let r := fst (canSendMessage now c m) in
  let l' := refresh_windows now l in
  let exhausted (w : rateWindow) := max w <= inject_Z (current w) in
  (exhausted (perMinute (limits l')) ->
   allowed r = false
   /\ reason r = Some "Per-minute limit exceeded"%string
   /\ retryAfter r = Some 60%Z)
  /\ (~ exhausted (perMinute (limits l')) ->
      exhausted (perHour (limits l')) ->
      allowed r = false
      /\ reason r = Some "Per-hour limit exceeded"%string
      /\ retryAfter r = Some 3600%Z)
  /\ (~ exhausted (perMinute (limits l')) ->
      ~ exhausted (perHour (limits l')) ->
      exhausted (perDay (limits l')) ->
      allowed r = false
      /\ reason r = Some "Per-day limit exceeded"%string
      /\ retryAfter r = Some 86400%Z)
  /\ (~ exhausted (perMinute (limits l')) ->
      ~ exhausted (perHour (limits l')) ->
      ~ exhausted (perDay (limits l')) ->
      allowed r = true /\ reason r = None /\ retryAfter r = None).
Proof.
  intros Hl r l' exhausted. subst r l' exhausted. cbv beta.
  unfold canSendMessage. rewrite Hl. cbv zeta.
  case_geq Hminute.
  { apply geq_true in Hminute. simpl.
    split; [now repeat split |].
    split; [intros Hn; contradiction |].
    split; intros Hn; contradiction. }
  apply geq_false in Hminute. apply Qlt_not_le in Hminute.
  case_geq Hhour.
  { apply geq_true in Hhour. simpl.
    split; [intros Hy; contradiction |].
    split; [now repeat split |].
    split; intros _ Hn; contradiction. }
  apply geq_false in Hhour. apply Qlt_not_le in Hhour.
  case_geq Hday.
  { apply geq_true in Hday. simpl.
    split; [intros Hy; contradiction |].
    split; [intros _ Hy; contradiction |].
    split; [now repeat split |].
    intros _ _ Hn. contradiction. }
  apply geq_false in Hday. apply Qlt_not_le in Hday. simpl.
  split; [intros Hy; contradiction |].
  split; [intros _ Hy; contradiction |].
  split; [intros _ _ Hy; contradiction |].
  now repeat split.
Qed.

(** C6 as stated fails: the client has sent its 20 messages of the minute
    that started at time 0; asked after 30 seconds or after 59 seconds,
    the check answers [retryAfter: 60] both times, while the window
    restarts in 30 seconds and in 1 second. *)
Lemma retryAfter_counterexample :
  (perMinute ∘ limits) <$> (rateLimits example_full_minute !! "c1")
    = Some (mkWindow 20 20 0)
  /\ retryAfter (fst (canSendMessage 30000 "c1" example_full_minute)) = Some 60%Z
  /\ retryAfter (fst (canSendMessage 59000 "c1" example_full_minute)) = Some 60%Z
  /\ spec_retryAfterSeconds 60000 30000 (mkWindow 20 20 0) = 30%Z
  /\ spec_retryAfterSeconds 60000 59000 (mkWindow 20 20 0) = 1%Z
  /\ retryAfter (fst (canSendMessage 59000 "c1" example_full_minute))
     <> Some (spec_retryAfterSeconds 60000 59000 (mkWindow 20 20 0)).
Proof. repeat split; vm_compute; congruence. Qed.

Lemma blocked_names_first_exhausted_window_witness :
  reason (fst (canSendMessage 30000 "c1" example_full_minute))
  = Some "Per-minute limit exceeded"%string
  /\ retryAfter (fst (canSendMessage 30000 "c1" example_full_minute)) = Some 60%Z.
Proof.
  assert (Hl : rateLimits example_full_minute !! "c1"%string
               = Some (mkLimiter "c1"
                         (mkLimits (mkWindow 20 20 0) (mkWindow 100 20 0)
                                   (mkWindow 1000 20 0)) 0 0.8))
    by (vm_compute; reflexivity).
  destruct (blocked_names_first_exhausted_window 30000 "c1" example_full_minute _ Hl)
    as (Hminute & _).
  destruct Hminute as (_ & Hreason & Hretry).
  - vm_compute. discriminate.
  - split; [exact Hreason | exact Hretry].
Defined.

(** With the minute and the day both exhausted, the reason names the
    minute. *)
Example minute_is_named_before_day :
  let m := Nat.iter 1000 (recordMessageSend "c1")
             (snd (initializeRateLimiter 0 "c1" 1 constructor)) in
  reason (fst (canSendMessage 30000 "c1" m))
  = Some "Per-minute limit exceeded"%string.
Proof. vm_compute. reflexivity. Qed.

Lemma lt_true (a b : Q) : lt a b = true <-> a < b.
Proof.
  unfold lt. rewrite negb_true_iff. apply (geq_false a b).
Qed.

(** A random delay lies between its two ends, both included: the ends
    are doubles, and rounding is monotone. *)
Lemma randomDelay_range (random low high : Q) :
  0 <= random -> random < 1 -> 0 <= low -> low <= high ->
  Double.round (high - low) == high - low ->
  Double.round low == low -> Double.round high == high ->
  low <= _randomDelay random low high /\ _randomDelay random low high <= high.
Proof.
  intros H0 H1 Hlow0 Hlh Hwidth Hlow Hhigh. unfold _randomDelay.
  set (width := Double.round (high - low)) in *.
  assert (Hw0 : 0 <= width) by lra.
  assert (Hx0 : 0 <= random * width) by (apply Qmult_le_0_compat; assumption).
  assert (Hx1 : random * width <= 1 * width)
    by (apply Qmult_le_compat_r; [lra | exact Hw0]).
  assert (Hx2 : random * width <= high - low) by lra.
  pose proof (DoubleFacts.round_monotone 0 (random * width)
                ltac:(apply Qle_refl) Hx0) as Hp0.
  pose proof (DoubleFacts.round_monotone (random * width) (high - low) Hx0 Hx2)
    as Hp1.
  change (Double.round 0) with 0 in Hp0. fold width in Hp1.
  set (p := Double.round (random * width)) in *.
  pose proof (DoubleFacts.round_monotone low (p + low) Hlow0 ltac:(lra)) as Hr0.
  pose proof (DoubleFacts.round_monotone (p + low) high ltac:(lra) ltac:(lra))
    as Hr1.
  split; lra.
Qed.

(** The upper end is reached: for the draw [1 - 2^-52] the sum
    [r * 3000 + 2000] rounds to 5000, and [r * 40 + 60] to 100. *)
Example randomDelay_reaches_its_upper_end :
  _randomDelay (1 - (1 # 2 ^ 52)) 2000 5000 == 5000
  /\ _randomDelay (1 - (1 # 2 ^ 52)) 60 100 == 100.
Proof. split; vm_compute; reflexivity. Qed.

(** C7, as the code has it.  For the action ['message'], with draws of
    [Math.random()] in [0, 1), the function awaits one timer and then
    returns [true] and nothing else.  The delay of the timer is the double
    [r * 10000 + 5000] when the first draw is below 0.1 and the double
    [r * 3000 + 2000] otherwise, [r] being the second draw: a value of
    [5000, 15000] in the first case and of [2000, 5000] in the second,
    both ends included. *)
Theorem message_delay_is_awaited (random : nat -> Q) (c : string) :
  0 <= random 1%nat -> random 1%nat < 1 ->
  exists delay,
    simulateHumanBehavior random c "message" = (true, [delay])
    /\ (random 0%nat < 0.1 ->
        delay = _randomDelay (random 1%nat) 5000 15000
        /\ 5000 <= delay /\ delay <= 15000)
    /\ (~ random 0%nat < 0.1 ->
        delay = _randomDelay (random 1%nat) 2000 5000
        /\ 2000 <= delay /\ delay <= 5000).
Proof.
  intros H0 H1. unfold simulateHumanBehavior. simpl.
  destruct (lt (random 0%nat) 0.1) eqn:Hpause; eexists; (split; [reflexivity |]).
  - apply lt_true in Hpause. split; [| intros Hn; contradiction].
    intros _. split; [reflexivity |].
    apply randomDelay_range; try assumption; vm_compute; congruence.
  - assert (Hn : ~ random 0%nat < 0.1)
      by (intros Hlt; apply lt_true in Hlt; congruence).
    split; [intros Hlt; contradiction |].
    intros _. split; [reflexivity |].
    apply randomDelay_range; try assumption; vm_compute; congruence.
Qed.

Lemma message_delay_is_awaited_witness :
  exists delay,
    simulateHumanBehavior example_draws_high "c1" "message" = (true, [delay])
    /\ 2000 <= delay /\ delay <= 5000.
Proof.
  destruct (message_delay_is_awaited example_draws_high "c1")
    as (delay & Hrun & _ & Hbase).
  - vm_compute. discriminate.
  - vm_compute. reflexivity.
  - exists delay. split; [exact Hrun |].
    apply Hbase. vm_compute. discriminate.
Defined.

(** C7 as stated fails in its second half: the delay is not part of any
    result.  [simulateHumanBehavior] awaits the timer itself (here 3500 ms)
    and returns [true]; the object returned by [canSendMessage] has the
    properties [allowed] and [warnings] and no delay. *)
Lemma delay_exposed_counterexample :
  fst (simulateHumanBehavior example_draws "c1" "message") = true
  /\ (exists delay,
        snd (simulateHumanBehavior example_draws "c1" "message") = [delay]
        /\ delay == 3500)
  /\ snd (simulateHumanBehavior example_draws "c1" "message") <> []
  /\ fst (canSendMessage 1000 "c1" (snd (initializeRateLimiter 0 "c1" 1 constructor)))
     = mkAdmission true None None (Some []).
Proof.
  split; [reflexivity |].
  split; [eexists; split; [reflexivity | vm_compute; reflexivity] |].
  split; [discriminate | vm_compute; reflexivity].
Qed.

(** The check of the minute reads the ceiling stored for the client. *)
Lemma minute_check_reads_max (now : Z) (c : string) (m : manager) (l : limiter) :
  rateLimits m !! c = Some l ->
  reason (fst (canSendMessage now c m)) = Some "Per-minute limit exceeded"%string
  <-> max (perMinute (limits l))
      <= inject_Z (current (restart_if_over 60000 now (perMinute (limits l)))).
Proof.
  intros Hl. unfold canSendMessage. rewrite Hl. cbv zeta.
  unfold refresh_windows. cbn [limits perMinute perHour perDay adaptiveThreshold].
  rewrite max_restart_if_over.
  case_geq Hminute.
  - apply geq_true in Hminute. simpl. split; [intros _; exact Hminute | reflexivity].
  - apply geq_false in Hminute. apply Qlt_not_le in Hminute.
    split; [| intros Hfull; contradiction].
    repeat (let Hg := fresh "Hg" in
            case_geq Hg; [simpl; intros Hreason; discriminate Hreason |]).
    simpl. intros Hreason. discriminate Hreason.
Qed.

Lemma halved_ceiling_below (x : Q) : 5 <= x -> Math_max 5 (x / 2) <= x.
Proof.
  intros Hx. unfold Math_max. destruct (Qle_bool 5 (x / 2)) eqn:B; [| exact Hx].
  apply Qle_shift_div_r; [reflexivity | lra].
Qed.

Lemma triggerProtectiveMeasures_never_restores (c c' : string) (m : manager)
    (l : limiter) :
  rateLimits m !! c = Some l ->
  5 <= max (perMinute (limits l)) ->
  exists l2,
    rateLimits (triggerProtectiveMeasures c' m) !! c = Some l2
    /\ max (perMinute (limits l2)) <= max (perMinute (limits l))
    /\ suspiciousActivityCount l2 = suspiciousActivityCount l.
Proof.
  intros Hl H5. unfold triggerProtectiveMeasures.
  destruct (rateLimits m !! c') as [l'|] eqn:Hl'; simpl.
  - destruct (decide (c' = c)) as [->|Hne].
    + rewrite lookup_insert_eq. eexists. split; [reflexivity |]. simpl.
      rewrite Hl in Hl'. injection Hl' as <-.
      split; [now apply halved_ceiling_below | reflexivity].
    + rewrite lookup_insert_ne by assumption.
      exists l. split; [exact Hl |]. split; [apply Qle_refl | reflexivity].
  - exists l. split; [exact Hl |]. split; [apply Qle_refl | reflexivity].
Qed.

(** No method but [initializeRateLimiter] raises the per-minute ceiling of
    a client or lowers its count of suspicious activities. *)
Lemma perform_never_restores (k : call) (c : string) (m : manager) (l : limiter) :
  rateLimits m !! c = Some l ->
  5 <= max (perMinute (limits l)) ->
  initializes k <> Some c ->
  exists l2,
    rateLimits (perform m k) !! c = Some l2
    /\ max (perMinute (limits l2)) <= max (perMinute (limits l))
    /\ (suspiciousActivityCount l <= suspiciousActivityCount l2)%Z.
Proof.
  intros Hl H5 Hk.
  assert (Hsame : exists l2, rateLimits m !! c = Some l2
            /\ max (perMinute (limits l2)) <= max (perMinute (limits l))
            /\ (suspiciousActivityCount l <= suspiciousActivityCount l2)%Z).
  { exists l. split; [exact Hl |]. split; [apply Qle_refl | lia]. }
  destruct k as [now c' org|now c'|c'|c' a|c']; simpl in *.
  - rewrite lookup_insert_ne by congruence. exact Hsame.
  - destruct (rateLimits m !! c') as [l'|] eqn:Hl'.
    + rewrite (canSendMessage_stores _ _ _ _ Hl'). simpl.
      destruct (decide (c' = c)) as [->|Hne].
      * rewrite lookup_insert_eq. eexists. split; [reflexivity |].
        rewrite Hl in Hl'. injection Hl' as <-. simpl.
        rewrite max_restart_if_over. split; [apply Qle_refl | lia].
      * rewrite lookup_insert_ne by assumption. exact Hsame.
    + unfold canSendMessage. rewrite Hl'. exact Hsame.
  - unfold recordMessageSend.
    destruct (rateLimits m !! c') as [l'|] eqn:Hl'; [| exact Hsame]. simpl.
    destruct (decide (c' = c)) as [->|Hne].
    + rewrite lookup_insert_eq. eexists. split; [reflexivity |].
      rewrite Hl in Hl'. injection Hl' as <-. simpl. split; [apply Qle_refl | lia].
    + rewrite lookup_insert_ne by assumption. exact Hsame.
  - unfold detectSuspiciousActivity.
    destruct (rateLimits m !! c') as [l'|] eqn:Hl'; [| exact Hsame].
    destruct (existsb _ _); [| exact Hsame].
    set (counted := mkManager _ _).
    assert (Hcounted : exists l1, rateLimits counted !! c = Some l1
              /\ max (perMinute (limits l1)) = max (perMinute (limits l))
              /\ (suspiciousActivityCount l <= suspiciousActivityCount l1)%Z).
    { subst counted. simpl. destruct (decide (c' = c)) as [->|Hne].
      - rewrite lookup_insert_eq. eexists. split; [reflexivity |].
        rewrite Hl in Hl'. injection Hl' as <-. simpl. split; [reflexivity | lia].
      - rewrite lookup_insert_ne by assumption.
        exists l. split; [exact Hl |]. split; [reflexivity | lia]. }
    destruct Hcounted as (l1 & Hl1 & Hmax1 & Hcount1).
    cbn [suspiciousActivityCount]. destruct (3 <? _)%Z; cbn [snd].
    + destruct (triggerProtectiveMeasures_never_restores c c' counted l1 Hl1)
        as (l2 & Hl2 & Hmax2 & Hcount2); [now rewrite Hmax1 |].
      exists l2. split; [exact Hl2 |]. rewrite Hmax1 in Hmax2. split; [exact Hmax2 | lia].
    + exists l1. split; [exact Hl1 |]. rewrite Hmax1. split; [apply Qle_refl | lia].
  - destruct (triggerProtectiveMeasures_never_restores c c' m l Hl H5)
      as (l2 & Hl2 & Hmax2 & Hcount2).
    exists l2. split; [exact Hl2 |]. split; [exact Hmax2 | lia].
Qed.

(** C9, as the code has it.  In a manager that the methods of the class
    can produce, when [detectSuspiciousActivity] finds the activity of a
    client suspicious, it adds one to the count of the client, and, each
    time the new count is above 3, replaces the per-minute ceiling by
    [Math.max(5, max / 2)]: half of it, with a floor of 5.  The counts of
    the windows and the other two ceilings are left as they are, and so
    is everything when the new count is at most 3.  The admission checks
    that follow read the ceiling so stored.  Nothing decays: no call of
    another method raises the ceiling or lowers the count, except
    [initializeRateLimiter], which, called again for the client, stores a
    fresh limiter with the ceiling 20 and the count 0. *)
Theorem protective_measures_halve_with_floor_5 (c : string) (a : activity)
    (m : manager) (l : limiter) :
  reachable m ->
  rateLimits m !! c = Some l ->
  fst (detectSuspiciousActivity c a m) = true ->
  let m' := snd (detectSuspiciousActivity c a m) in
  exists l',
    rateLimits m' !! c = Some l'
    /\ suspiciousActivityCount l' = (suspiciousActivityCount l + 1)%Z
    /\ max (perMinute (limits l'))
       = (if (3 <? suspiciousActivityCount l')%Z
          then Math_max 5 (max (perMinute (limits l)) / 2)
          else max (perMinute (limits l)))
    /\ 5 <= Math_max 5 (max (perMinute (limits l)) / 2)
    /\ current (perMinute (limits l')) = current (perMinute (limits l))
    /\ window (perMinute (limits l')) = window (perMinute (limits l))
    /\ perHour (limits l') = perHour (limits l)
    /\ perDay (limits l') = perDay (limits l)
    /\ (forall now,
          reason (fst (canSendMessage now c m'))
          = Some "Per-minute limit exceeded"%string
          <-> max (perMinute (limits l'))
              <= inject_Z (current (restart_if_over 60000 now
                                      (perMinute (limits l')))))
    /\ (forall k, initializes k <> Some c ->
          exists l2,
            rateLimits (perform m' k) !! c = Some l2
            /\ max (perMinute (limits l2)) <= max (perMinute (limits l'))
            /\ (suspiciousActivityCount l' <= suspiciousActivityCount l2)%Z)
    /\ (forall now organizationId,
          rateLimits (snd (initializeRateLimiter now c organizationId m')) !! c
          = Some (mkLimiter c
                    (mkLimits (mkWindow 20 0 now) (mkWindow 100 0 now)
                              (mkWindow 1000 0 now)) 0 0.8)).
Proof.
  intros Hreach Hl Hsuspicious m'.
  pose proof (reachable_ceilings _ (reachable_detectSuspiciousActivity c a m Hreach))
    as Hinv.
  fold m' in Hinv.
  assert (Hstored : exists l',
            rateLimits m' !! c = Some l'
            /\ suspiciousActivityCount l' = (suspiciousActivityCount l + 1)%Z
            /\ max (perMinute (limits l'))
               = (if (3 <? suspiciousActivityCount l')%Z
                  then Math_max 5 (max (perMinute (limits l)) / 2)
                  else max (perMinute (limits l)))
            /\ current (perMinute (limits l')) = current (perMinute (limits l))
            /\ window (perMinute (limits l')) = window (perMinute (limits l))
            /\ perHour (limits l') = perHour (limits l)
            /\ perDay (limits l') = perDay (limits l)).
  { subst m'. revert Hsuspicious. unfold detectSuspiciousActivity. rewrite Hl.
    destruct (existsb _ _); [| discriminate]. intros _.
    cbn [suspiciousActivityCount].
    destruct (3 <? suspiciousActivityCount l + 1)%Z eqn:Habove; cbn [snd].
    - unfold triggerProtectiveMeasures. simpl. rewrite lookup_insert_eq. simpl.
      rewrite lookup_insert_eq. eexists. split; [reflexivity |]. simpl.
      rewrite Habove. now repeat split.
    - simpl. rewrite lookup_insert_eq. eexists. split; [reflexivity |]. simpl.
      rewrite Habove. now repeat split. }
  destruct Hstored as (l' & Hl' & Hcount & Hmax & Hcur & Hwin & Hhour & Hday).
  assert (Hfloor : 5 <= Math_max 5 (max (perMinute (limits l)) / 2)).
  { unfold Math_max. destruct (Qle_bool 5 _) eqn:B.
    - now apply Qle_bool_iff.
    - apply Qle_refl. }
  assert (H5 : 5 <= max (perMinute (limits l'))).
  { destruct (Hinv _ _ Hl') as ([E|[E|E]] & _); rewrite E; discriminate. }
  exists l'.
  split; [exact Hl' |]. split; [exact Hcount |]. split; [exact Hmax |].
  split; [exact Hfloor |]. split; [exact Hcur |]. split; [exact Hwin |].
  split; [exact Hhour |]. split; [exact Hday |].
  split; [intros now; now apply minute_check_reads_max |].
  split; [intros k Hk; now apply perform_never_restores |].
  intros now organizationId. simpl. apply lookup_insert_eq.
Qed.

Lemma protective_measures_halve_with_floor_5_witness :
  exists l',
    rateLimits (example_suspected 4) !! "c1"%string = Some l'
    /\ suspiciousActivityCount l' = 4%Z
    /\ max (perMinute (limits l')) == 10.
Proof.
  assert (Hl : exists l, rateLimits (example_suspected 3) !! "c1"%string = Some l
                         /\ suspiciousActivityCount l = 3%Z
                         /\ max (perMinute (limits l)) = 20)
    by (eexists; vm_compute; repeat split).
  destruct Hl as (l & Hl & Hcount & Hmax).
  destruct (protective_measures_halve_with_floor_5 "c1" example_burst
              (example_suspected 3) l)
    as (l' & Hl' & Hcount' & Hmax' & _).
  - do 3 apply reachable_detectSuspiciousActivity.
    apply reachable_initializeRateLimiter, reachable_constructor.
  - exact Hl.
  - unfold detectSuspiciousActivity. rewrite Hl. simpl.
    now destruct (3 <? _)%Z.
  - exists l'. split; [exact Hl' |].
    rewrite Hcount' in Hmax'. rewrite Hcount in Hcount', Hmax'.
    rewrite Hmax in Hmax'.
    split; [exact Hcount' | rewrite Hmax'; reflexivity].
Defined.

(** C9 as stated fails: at the sixth suspicious activity of a client the
    per-minute ceiling is 5 and stays 5; halved with a floor of 1 it would
    be 2.5. *)
Lemma floor_of_one_counterexample :
  exists before after,
    rateLimits (example_suspected 5) !! "c1" = Some before
    /\ rateLimits (snd (detectSuspiciousActivity "c1" example_burst
                          (example_suspected 5))) !! "c1" = Some after
    /\ suspiciousActivityCount after = 6%Z
    /\ max (perMinute (limits before)) == 5
    /\ max (perMinute (limits after)) == 5
    /\ spec_halved_ceiling (max (perMinute (limits before))) == 2.5
    /\ ~ max (perMinute (limits after))
         == spec_halved_ceiling (max (perMinute (limits before))).
Proof.
  eexists _, _.
  split; [vm_compute; reflexivity |].
  split; [vm_compute; reflexivity |].
  repeat split; vm_compute; congruence.
Qed.

End AntiBanFacts.

(** ** The webhook manager: registering, listing, triggering, testing *)

Module WebhookTableFacts.
Import Crypto CryptoFacts WebhookManager WebhookFacts WebhookTable.

(** X1.  [_validateWebhookUrl] returns [true] or throws an error whose
    message starts with [Invalid webhook URL: ]; it never returns [false].
    It returns [true] exactly for the strings that [new URL] parses and,
    in production, whose protocol is [https:] and whose host is neither
    [localhost] nor [127.0.0.1]; outside production every string that
    parses passes. *)
Theorem validateWebhookUrl_rules (parse : string -> completion URL)
    (production : bool) (url : string) :
  (_validateWebhookUrl parse production url = Return true
   \/ exists message,
        _validateWebhookUrl parse production url
        = Throw (Error ("Invalid webhook URL: " +:+ message)))
  /\ (_validateWebhookUrl parse production url = Return true
      <-> exists u, parse url = Return u
                    /\ (production = true ->
                        protocol u = "https:" /\ hostname u <> "localhost"
                        /\ hostname u <> "127.0.0.1")).
Proof.
  unfold _validateWebhookUrl.
  destruct (parse url) as [u|e].
  2:{ split; [right; eauto |]. split; [discriminate | intros (u & [=] & _)]. }
  destruct production; simpl.
  2:{ split; [now left |]. split; [eauto | reflexivity]. intros _. exists u.
      split; [reflexivity | discriminate]. }
  destruct (decide (protocol u = "https:")) as [Hp|Hp].
  - rewrite (bool_decide_eq_true_2 _ Hp). simpl.
    destruct (decide (hostname u = "localhost")) as [Hl|Hl].
    + rewrite (bool_decide_eq_true_2 _ Hl). simpl.
      split; [right; eauto |]. split; [discriminate |].
      intros (u' & [= <-] & Hok). now destruct (Hok eq_refl) as (_ & ? & _).
    + rewrite (bool_decide_eq_false_2 _ Hl). simpl.
      destruct (decide (hostname u = "127.0.0.1")) as [H1|H1].
      * rewrite (bool_decide_eq_true_2 _ H1). simpl.
        split; [right; eauto |]. split; [discriminate |].
        intros (u' & [= <-] & Hok). now destruct (Hok eq_refl) as (_ & _ & ?).
      * rewrite (bool_decide_eq_false_2 _ H1). simpl.
        split; [now left |]. split; [| reflexivity]. intros _. exists u.
        now repeat split.
  - rewrite (bool_decide_eq_false_2 _ Hp). simpl.
    split; [right; eauto |]. split; [discriminate |].
    intros (u' & [= <-] & Hok). now destruct (Hok eq_refl) as (? & _).
Qed.

Section Registered.
Context {Payload : Type} `{JSON Payload}.
Variables (parse : string -> completion URL) (production : bool)
          (entropy : buffer) (organizationId userId : Z) (url : string)
          (events : list string).

Implicit Types (m : manager Payload).

Lemma registerWebhook_returns m (r : registration) (m' : manager Payload) :
  registerWebhook parse production entropy organizationId userId url events m
  = (Return r, m') ->
  webhooks m'
  = webhooks m ++ [mkWebhook (r_id r) organizationId url events
                             (Some (r_secretKey r))].
Proof.
  unfold registerWebhook.
  destruct (_validateWebhookUrl parse production url); [| discriminate].
  destruct (0 <? _); [discriminate |]. now intros [= <- <-].
Qed.

(** X2.  A registration that throws stores nothing.  One that returns
    appends exactly one row, with the URL and events given and, as secret,
    the value returned, which has two hexadecimal characters per byte of
    entropy; it touches neither the queue, the timers, the delivery log nor
    the count of POSTs. *)
Theorem registerWebhook_all_or_nothing m :
  match registerWebhook parse production entropy organizationId userId url events m with
  | (Throw _, m') => m' = m
  | (Return r, m') =>
      webhooks m'
      = webhooks m ++ [mkWebhook (r_id r) organizationId url events
                                 (Some (r_secretKey r))]
      /\ r_url r = url /\ r_events r = events
      /\ String.length (r_secretKey r) = (2 * length entropy)%nat
      /\ eventQueue m' = eventQueue m /\ timers m' = timers m
      /\ webhook_logs m' = webhook_logs m /\ posts m' = posts m
  end.
Proof.
  unfold registerWebhook.
  destruct (_validateWebhookUrl parse production url); [| reflexivity].
  destruct (0 <? _); [reflexivity |]. simpl.
  repeat split. apply length_hex.
Qed.

(** X3.  The secret returned by a registration is the key of the stored
    row: a signature made with the row's key over any payload verifies
    with the returned secret. *)
Theorem registered_secret_verifies m (r : registration) (m' : manager Payload)
    (w : webhook) (payload : Payload) :
  registerWebhook parse production entropy organizationId userId url events m
  = (Return r, m') ->
  last (webhooks m') = Some w ->
  exists signature,
    _generateSignature payload (secret_key w) = Return signature
    /\ verifyWebhookSignature payload signature (Some (r_secretKey r)) = Return true.
Proof.
  intros Hreg Hlast.
  rewrite (registerWebhook_returns _ _ _ Hreg), last_snoc in Hlast. injection Hlast as <-. simpl.
  eexists. split; [reflexivity |].
  unfold verifyWebhookSignature, _generateSignature. apply timingSafeEqual_same.
Qed.

(** X4.  A webhook just registered is listed by [getWebhooks] for its
    organization, with the URL and events given and without the secret. *)
Theorem registered_webhook_is_listed m (r : registration) (m' : manager Payload) :
  registerWebhook parse production entropy organizationId userId url events m
  = (Return r, m') ->
  mkWebhook (r_id r) organizationId url events None
  ∈ getWebhooks (map inserted (webhooks m')) organizationId.
Proof.
  intros Hreg. rewrite (registerWebhook_returns _ _ _ Hreg).
  unfold getWebhooks. rewrite map_app, List.filter_app, map_app. simpl.
  rewrite bool_decide_eq_true_2 by reflexivity. simpl.
  apply elem_of_app. right. apply list_elem_of_here.
Qed.

End Registered.

Lemma getWebhooks_listed (table : list webhook_row) (organizationId : Z)
    (w : webhook) :
  w ∈ getWebhooks table organizationId
  <-> exists r, r ∈ table /\ is_active r = true
                /\ organization_id (stored r) = organizationId
                /\ w = mkWebhook (w_id (stored r)) organizationId
                                 (w_url (stored r)) (w_events (stored r)) None.
Proof.
  unfold getWebhooks. rewrite list_elem_of_In, in_map_iff. split.
  - intros (r & <- & Hr). apply filter_In in Hr as [Hin Hok].
    apply andb_true_iff in Hok as [Horg Hact].
    apply bool_decide_eq_true_1 in Horg.
    exists r. rewrite list_elem_of_In. now rewrite Horg.
  - intros (r & Hin & Hact & Horg & ->). exists r.
    rewrite Horg. split; [reflexivity |].
    apply filter_In. rewrite <- list_elem_of_In. split; [assumption |].
    now rewrite Hact, bool_decide_eq_true_2.
Qed.


Section Triggering.
Context {Payload : Type} `{JSON Payload}.
Variable net : network Payload.

Implicit Types (d : delivery Payload) (m : manager Payload).

Lemma filter_nil_Forall {A : Type} (f : A -> bool) (l : list A) :
  Forall (fun x => f x = false) l -> List.filter f l = [].
Proof.
  induction 1 as [|x l Hx _ IH]; simpl; [reflexivity |]. now rewrite Hx.
Qed.

(** X6.  When the events of every stored row passed the validation of
    [registerWebhook], no event type that the specification and the server
    use reaches a subscriber: [triggerEvent] leaves the manager as it is. *)
Theorem validated_subscriptions_receive_nothing (table : list webhook_row)
    (organizationId : Z) (eventType : string) (payload : Payload) m :
  Forall (fun r => Forall (fun e => e ∈ validEvents) (w_events (stored r))) table ->
  eventType ∈ spec_event_types ->
  triggerEvent net table organizationId eventType payload m = m.
Proof.
  intros Hvalid Hspec. unfold triggerEvent.
  rewrite filter_nil_Forall; [reflexivity |].
  apply Forall_forall. intros w Hw.
  apply getWebhooks_listed in Hw as (r & Hr & _ & _ & ->).
  rewrite Forall_forall in Hvalid.
  pose proof (accepted_events_never_triggered (stored r) (Hvalid r Hr)) as Hnever.
  rewrite Forall_forall in Hnever. unfold listens in *. simpl.
  now apply Hnever.
Qed.

(** With an empty queue, pushing a delivery and processing the queue is
    one attempt followed by one arm of the [catch], whatever timers are
    pending. *)
Lemma push_and_process_empty_queue d m :
  eventQueue m = [] ->
  push_and_process net d m
  = match _deliverWebhook net d m with
    | (Return _, m1) => m1
    | (Throw e, m1) =>
        if retries d <? maxRetries d then schedule_retry d m1
        else record_failure d e m1
    end.
Proof.
  intros Hq. unfold push_and_process, _processQueue.
  destruct m as [mr tm q t i w l lg p]. simpl in *. subst q. simpl.
  unfold set_eventQueue at 1. simpl.
  destruct (_deliverWebhook net d _) as [c m1] eqn:Hd.
  destruct (deliverWebhook_effect _ _ _ _ _ Hd) as (Hq1 & _).
  simpl in Hq1.
  destruct c as [[]|e]; [now rewrite Hq1 |].
  destruct (retries d <? maxRetries d); simpl; now rewrite Hq1.
Qed.

Lemma push_and_process_keeps_queue_empty d m :
  eventQueue m = [] -> immediates m = O ->
  eventQueue (push_and_process net d m) = []
  /\ immediates (push_and_process net d m) = O.
Proof.
  intros Hq Hi. rewrite push_and_process_empty_queue by assumption.
  destruct (_deliverWebhook net d m) as [c m1] eqn:Hd.
  destruct (deliverWebhook_effect _ _ _ _ _ Hd) as (Hq1 & _ & Hi1 & _).
  rewrite Hq in Hq1. rewrite Hi in Hi1.
  destruct c as [[]|e]; [now split |].
  destruct (retries d <? maxRetries d); simpl; now split.
Qed.

Lemma turn_keeps_queue_empty m m' :
  eventQueue m = [] -> immediates m = O ->
  turn net m = Some m' ->
  eventQueue m' = [] /\ immediates m' = O.
Proof.
  intros Hq Hi. unfold turn. rewrite Hi.
  destruct (timers m) as [|[delay d] rest]; [discriminate |].
  intros [= <-]. now apply push_and_process_keeps_queue_empty.
Qed.

Lemma run_keeps_queue_empty (fuel : nat) : forall m,
  eventQueue m = [] -> immediates m = O ->
  eventQueue (run fuel net m) = [] /\ immediates (run fuel net m) = O.
Proof.
  induction fuel as [|fuel IH]; intros m Hq Hi; simpl; [now split |].
  destruct (turn net m) as [m'|] eqn:Hturn; [| now split].
  destruct (turn_keeps_queue_empty _ _ Hq Hi Hturn). now apply IH.
Qed.

(** X7.  Between the calls of the class the event queue is empty, and the
    immediate that [_processQueue] sets for a non-empty queue is never
    set: a delivery is taken from the queue in the call that put it
    there, with or without a signing key and whatever timers of other
    deliveries are pending. *)
Theorem queue_is_empty_between_calls (w : webhook) (eventType : string)
    (payload : Payload) m (fuel : nat) :
  eventQueue m = [] -> immediates m = O ->
  let m' := run fuel net (_queueWebhookDelivery net w eventType payload m) in
  eventQueue (_queueWebhookDelivery net w eventType payload m) = []
  /\ eventQueue m' = [] /\ immediates m' = O.
Proof.
  intros Hq Hi m'. unfold _queueWebhookDelivery in *.
  destruct (push_and_process_keeps_queue_empty
              (mkDelivery (w_id w) (w_url w) eventType payload (secret_key w) 0
                          (this_maxRetries m)) m Hq Hi) as [Hq1 Hi1].
  split; [exact Hq1 |]. now apply run_keeps_queue_empty.
Qed.

(** *** Deliveries without a signing key *)

Lemma deliverWebhook_keyless d m :
  secretKey d = None ->
  exists e, _deliverWebhook net d m = (Throw e, m).
Proof. intros Hkey. unfold _deliverWebhook. rewrite Hkey. simpl. eauto. Qed.

Lemma push_and_process_keyless d m :
  keyless m -> secretKey d = None -> retries d <= maxRetries d ->
  exists rows,
    keyless_progress m (push_and_process net d m) rows
    /\ ((retries d < maxRetries d /\ rows = []
         /\ timers (push_and_process net d m)
            = timers m ++ [(backoff (retries d + 1), increment_retries d)])
        \/ (retries d = maxRetries d /\ length rows = 1%nat
            /\ timers (push_and_process net d m) = timers m)).
Proof.
  intros (Hq & Hi & Ht) Hkey Hle.
  rewrite push_and_process_empty_queue by assumption.
  destruct (deliverWebhook_keyless d m Hkey) as [e ->].
  destruct (Z.ltb_spec (retries d) (maxRetries d)) as [Hlt|Hge].
  - exists []. split; [| left; now repeat split].
    unfold keyless_progress, keyless. simpl. rewrite app_nil_r.
    repeat split; try assumption; try constructor.
    apply Forall_app. split; [assumption |].
    constructor; [| constructor]. simpl. split; [assumption | lia].
  - eexists [_]. split; [| right; split; [lia | now split]].
    unfold keyless_progress, keyless. simpl.
    repeat split; try assumption. repeat constructor.
Qed.

Lemma turns_left_nil m : turns_left m = O -> timers m = [].
Proof.
  unfold turns_left. destruct (timers m); [reflexivity | simpl; lia].
Qed.

Lemma run_keyless (fuel : nat) : forall m,
  keyless m ->
  exists rows,
    keyless_progress m (run fuel net m) rows
    /\ (length rows + length (timers (run fuel net m)) = length (timers m))%nat
    /\ ((turns_left m <= fuel)%nat -> timers (run fuel net m) = []).
Proof.
  induction fuel as [|fuel IH]; intros m Hk.
  - exists []. simpl. split; [| split].
    + unfold keyless_progress. rewrite app_nil_r.
      split; [exact Hk |]. repeat split; constructor.
    + reflexivity.
    + intros Hle. apply turns_left_nil. lia.
  - simpl. unfold turn. destruct Hk as (Hq & Hi & Ht). rewrite Hi.
    destruct (timers m) as [|[delay d] rest] eqn:Htimers.
    + exists []. split; [| split].
      * unfold keyless_progress, keyless. rewrite app_nil_r, Htimers.
        repeat split; try assumption; constructor.
      * now rewrite Htimers.
      * intros _. exact Htimers.
    + apply Forall_cons in Ht as [[Hkey Hle] Hrest]. simpl in Hkey, Hle.
      assert (Hk0 : keyless (set_timers rest m)) by (now repeat split).
      destruct (push_and_process_keyless d _ Hk0 Hkey Hle)
        as (rows1 & (Hk1 & Hp1 & Hm1 & Hr1 & Hs1) & Hcase).
      destruct (IH _ Hk1) as (rows2 & (Hk2 & Hp2 & Hm2 & Hr2 & Hs2) & Hlen & Hdone).
      change (posts (set_timers rest m)) with (posts m) in Hp1.
      change (this_maxRetries (set_timers rest m)) with (this_maxRetries m) in Hm1.
      change (webhook_logs (set_timers rest m)) with (webhook_logs m) in Hr1.
      change (timers (set_timers rest m)) with rest in Hcase.
      exists (rows1 ++ rows2). split; [| split].
      * unfold keyless_progress. split; [exact Hk2 |].
        split; [congruence |]. split; [congruence |].
        split; [now rewrite Hr2, Hr1, app_assoc | now apply Forall_app].
      * rewrite length_app.
        destruct Hcase as [(_ & -> & Ht1)|(_ & Hone & Ht1)];
          rewrite Ht1 in Hlen; [rewrite length_app in Hlen |]; simpl in *; lia.
      * intros Hfuel. apply Hdone.
        unfold turns_left in *. rewrite Htimers in Hfuel. simpl in Hfuel.
        destruct Hcase as [(Hlt & _ & Ht1)|(Heq & _ & Ht1)]; rewrite Ht1.
        -- rewrite map_app, list_sum_app. simpl.
           replace (Z.to_nat (maxRetries d - retries d))
             with (S (Z.to_nat (maxRetries d - (retries d + 1)))) in Hfuel by lia.
           lia.
        -- simpl. lia.
Qed.

Lemma queue_keyless (ws : list webhook) (eventType : string) (payload : Payload) :
  Forall (fun w => secret_key w = None) ws ->
  forall m, keyless m ->
  let m' := fold_left (fun m w => _queueWebhookDelivery net w eventType payload m) ws m in
  exists rows,
    keyless_progress m m' rows
    /\ (length rows + length (timers m') = length (timers m) + length ws)%nat
    /\ (turns_left m'
        <= turns_left m + length ws * Z.to_nat (this_maxRetries m))%nat.
Proof.
  induction 1 as [|w ws Hw _ IH]; intros m Hk; simpl.
  - exists []. split; [| split; simpl; lia].
    unfold keyless_progress. rewrite app_nil_r.
    split; [exact Hk |]. repeat split; constructor.
  - set (d := mkDelivery (w_id w) (w_url w) eventType payload (secret_key w) 0
                         (this_maxRetries m)).
    change (_queueWebhookDelivery net w eventType payload m)
      with (push_and_process net d m).
    destruct (Z.le_gt_cases 0 (this_maxRetries m)) as [Hmax|Hmax].
    + destruct (push_and_process_keyless d m Hk Hw Hmax)
        as (rows1 & (Hk1 & Hp1 & Hm1 & Hr1 & Hs1) & Hcase).
      destruct (IH _ Hk1) as (rows2 & (Hk2 & Hp2 & Hm2 & Hr2 & Hs2) & Hlen & Hturns).
      exists (rows1 ++ rows2). split; [| split].
      * unfold keyless_progress. split; [exact Hk2 |].
        split; [congruence |]. split; [congruence |].
        split; [now rewrite Hr2, Hr1, app_assoc | now apply Forall_app].
      * rewrite length_app.
        destruct Hcase as [(_ & -> & Ht1)|(_ & Hone & Ht1)];
          rewrite Ht1 in Hlen; [rewrite length_app in Hlen |];
          cbn [length] in *; lia.
      * rewrite Hm1 in Hturns.
        assert (Hstep : (turns_left (push_and_process net d m)
                         <= turns_left m + Z.to_nat (this_maxRetries m))%nat).
        { unfold turns_left.
          destruct Hcase as [(Hlt & _ & Ht1)|(Heq & _ & Ht1)]; rewrite Ht1.
          - rewrite map_app, list_sum_app. subst d. simpl in *. lia.
          - lia. }
        cbn [length] in *. lia.
    + (* a negative [maxRetries]: the failure is recorded at once *)
      assert (Hpush : push_and_process net d m
                      = record_failure d (TypeError "ERR_INVALID_ARG_TYPE: key") m).
      { destruct Hk as (Hq & _). rewrite push_and_process_empty_queue by assumption.
        unfold _deliverWebhook. subst d. simpl. rewrite Hw. simpl.
        destruct (Z.ltb_spec 0 (this_maxRetries m)); [lia | reflexivity]. }
      assert (Hk1 : keyless (push_and_process net d m))
        by (rewrite Hpush; destruct Hk as (? & ? & ?); now repeat split).
      destruct (IH _ Hk1) as (rows2 & (Hk2 & Hp2 & Hm2 & Hr2 & Hs2) & Hlen & Hturns).
      assert (Hfail : posts (push_and_process net d m) = posts m
                /\ this_maxRetries (push_and_process net d m) = this_maxRetries m
                /\ webhook_logs (push_and_process net d m)
                   = webhook_logs m
                     ++ [failure_row d (TypeError "ERR_INVALID_ARG_TYPE: key")]
                /\ timers (push_and_process net d m) = timers m)
        by (rewrite Hpush; now repeat split).
      destruct Hfail as (Hp1 & Hm1 & Hr1 & Ht1).
      exists (failure_row d (TypeError "ERR_INVALID_ARG_TYPE: key") :: rows2).
      split; [| split].
      * unfold keyless_progress. split; [exact Hk2 |].
        split; [congruence |]. split; [congruence |].
        split; [rewrite Hr2, Hr1, <- app_assoc; reflexivity |].
        constructor; [reflexivity | assumption].
      * rewrite Ht1 in Hlen. cbn [length] in *. lia.
      * unfold turns_left in *. rewrite Ht1 in Hturns. cbn [length] in *. lia.
Qed.

Lemma queued_keyless_never_post (ws : list webhook) (eventType : string)
    (payload : Payload) m (fuel : nat) :
  Forall (fun w => secret_key w = None) ws ->
  quiescent m ->
  let m' := run fuel net
              (fold_left (fun m w => _queueWebhookDelivery net w eventType payload m)
                         ws m) in
  posts m' = posts m
  /\ exists rows,
       webhook_logs m' = webhook_logs m ++ rows
       /\ Forall (fun row => status_code row = 500) rows
       /\ (length rows <= length ws)%nat
       /\ ((length ws * Z.to_nat (this_maxRetries m) <= fuel)%nat ->
           quiescent m' /\ length rows = length ws).
Proof.
  intros Hkeyless (Hq & Ht & Hi) m'.
  assert (Hk : keyless m) by (repeat split; try assumption; rewrite Ht; constructor).
  destruct (queue_keyless _ eventType payload Hkeyless m Hk)
    as (rows1 & (Hk1 & Hp1 & Hm1 & Hr1 & Hs1) & Hlen1 & Hturns1).
  subst m'.
  destruct (run_keyless fuel _ Hk1)
    as (rows2 & (Hk2 & Hp2 & Hm2 & Hr2 & Hs2) & Hlen2 & Hdone).
  rewrite Ht in Hlen1. unfold turns_left at 2 in Hturns1. rewrite Ht in Hturns1.
  simpl in Hlen1, Hturns1.
  split; [congruence |].
  exists (rows1 ++ rows2). split; [now rewrite Hr2, Hr1, app_assoc |].
  split; [now apply Forall_app |].
  rewrite length_app. split; [lia |].
  intros Hfuel. assert (Hnone := Hdone ltac:(lia)).
  rewrite Hnone in Hlen2. simpl in Hlen2.
  destruct Hk2 as (Hq2 & Hi2 & _). split; [now repeat split | lia].
Qed.

Lemma listed_keyless (table : list webhook_row) (organizationId : Z)
    (f : webhook -> bool) :
  Forall (fun w => secret_key w = None)
         (List.filter f (getWebhooks table organizationId)).
Proof.
  apply Forall_forall. intros w Hw. apply list_elem_of_In, filter_In in Hw as [Hw _].
  apply list_elem_of_In, getWebhooks_listed in Hw as (r & _ & _ & _ & ->).
  reflexivity.
Qed.

(** X8.  A delivery queued by [triggerEvent] has no signing key, because
    [getWebhooks] does not select [secret_key]: every attempt throws before
    the POST.  However long the loop runs, no POST is made and every row
    logged has status 500; once [maxRetries] turns have run for each of
    the [k] listening webhooks, nothing is pending and exactly [k] rows
    have been logged. *)
Theorem triggered_deliveries_never_post (table : list webhook_row)
    (organizationId : Z) (eventType : string) (payload : Payload) m (fuel : nat) :
  quiescent m ->
  let k := length (List.filter (fun w => listens w eventType)
                               (getWebhooks table organizationId)) in
  let m' := run fuel net (triggerEvent net table organizationId eventType payload m) in
  posts m' = posts m
  /\ exists rows,
       webhook_logs m' = webhook_logs m ++ rows
       /\ Forall (fun row => status_code row = 500) rows
       /\ (length rows <= k)%nat
       /\ ((k * Z.to_nat (this_maxRetries m) <= fuel)%nat ->
           quiescent m' /\ length rows = k).
Proof.
  intros Hq k m'.
  assert (Htrigger : triggerEvent net table organizationId eventType payload m
                     = fold_left (fun m w => _queueWebhookDelivery net w eventType payload m)
                         (List.filter (fun w => listens w eventType)
                                      (getWebhooks table organizationId)) m).
  { unfold triggerEvent.
    destruct (List.filter _ (getWebhooks table organizationId)); reflexivity. }
  subst m' k. rewrite Htrigger.
  apply queued_keyless_never_post; [apply listed_keyless | exact Hq].
Qed.

(** X9.  [broadcastEvent] queues a delivery for the listening webhooks of
    the organization, all of them when [filter.url] is absent or empty and
    otherwise those whose URL contains it; as these come from
    [getWebhooks], none of the deliveries is ever posted, and each ends as
    one row of status 500. *)
Theorem broadcast_deliveries_never_post (table : list webhook_row)
    (organizationId : Z) (eventType : string) (payload : Payload)
    (filter_url : option string) m (fuel : nat) :
  quiescent m ->
  let listening := List.filter (fun w => listens w eventType)
                               (getWebhooks table organizationId) in
  let targets := match filter_url with
                 | None | Some "" => listening
                 | Some u => List.filter (fun w => includes u (w_url w)) listening
                 end in
  let m' := run fuel net
              (broadcastEvent net table organizationId eventType payload filter_url m) in
  posts m' = posts m
  /\ exists rows,
       webhook_logs m' = webhook_logs m ++ rows
       /\ Forall (fun row => status_code row = 500) rows
       /\ (length rows <= length targets)%nat
       /\ ((length targets * Z.to_nat (this_maxRetries m) <= fuel)%nat ->
           quiescent m' /\ length rows = length targets).
Proof.
  intros Hq listening targets m'.
  assert (Hb : broadcastEvent net table organizationId eventType payload filter_url m
               = fold_left (fun m w => _queueWebhookDelivery net w eventType payload m)
                           targets m).
  { unfold broadcastEvent. fold listening. subst targets.
    destruct filter_url as [[|c u]|]; reflexivity. }
  subst m'. rewrite Hb.
  apply queued_keyless_never_post; [| exact Hq].
  subst targets listening.
  destruct filter_url as [[|c u]|]; try apply listed_keyless.
  apply Forall_forall. intros w Hw. apply list_elem_of_In, filter_In in Hw as [Hw _].
  pose proof (listed_keyless table organizationId (fun w => listens w eventType)) as Hall.
  rewrite Forall_forall in Hall. apply Hall. now apply list_elem_of_In.
Qed.

(** *** The course of the deliveries without a signing key *)

Lemma triggerEvent_queues (table : list webhook_row) (organizationId : Z)
    (event : string) (payload : Payload) m :
  triggerEvent net table organizationId event payload m
  = fold_left (fun m w => _queueWebhookDelivery net w event payload m)
              (listening table organizationId event) m.
Proof.
  unfold triggerEvent, listening.
  destruct (List.filter _ (getWebhooks table organizationId)); reflexivity.
Qed.

Lemma broadcastEvent_queues (table : list webhook_row) (organizationId : Z)
    (event : string) (payload : Payload) (filter_url : option string) m :
  exists ws,
    Forall (fun w => secret_key w = None) ws
    /\ broadcastEvent net table organizationId event payload filter_url m
       = fold_left (fun m w => _queueWebhookDelivery net w event payload m) ws m.
Proof.
  unfold broadcastEvent.
  destruct filter_url as [u|]; [destruct (bool_decide (u = ""))|];
    eexists; (split; [| reflexivity]); try apply listed_keyless.
  apply Forall_forall. intros w Hw. apply list_elem_of_In, filter_In in Hw as [Hw _].
  pose proof (listed_keyless table organizationId (fun w => listens w event)) as Hall.
  rewrite Forall_forall in Hall. apply Hall. now apply list_elem_of_In.
Qed.

Lemma retry_timers_step d :
  retries d < maxRetries d ->
  retry_timers d
  = (backoff (retries d + 1), increment_retries d)
    :: retry_timers (increment_retries d).
Proof.
  intros Hlt. unfold retry_timers. simpl.
  replace (Z.to_nat (maxRetries d - retries d))
    with (S (Z.to_nat (maxRetries d - (retries d + 1)))) by lia.
  reflexivity.
Qed.

Lemma retry_timers_done d : maxRetries d <= retries d -> retry_timers d = [].
Proof.
  intros Hle. unfold retry_timers.
  replace (Z.to_nat (maxRetries d - retries d)) with O by lia. reflexivity.
Qed.

(** One attempt of a delivery without a signing key: it throws before the
    POST, and the [catch] either sets the timer of the next retry or
    closes the delivery with a row of status 500. *)
Lemma push_and_process_keyless_step d m :
  keyless m -> secretKey d = None ->
  keyless (push_and_process net d m)
  /\ posts (push_and_process net d m) = posts m
  /\ this_maxRetries (push_and_process net d m) = this_maxRetries m
  /\ ((retries d < maxRetries d
       /\ timers (push_and_process net d m)
          = timers m ++ [(backoff (retries d + 1), increment_retries d)]
       /\ webhook_logs (push_and_process net d m) = webhook_logs m)
      \/ (maxRetries d <= retries d
          /\ timers (push_and_process net d m) = timers m
          /\ exists row,
               webhook_logs (push_and_process net d m) = webhook_logs m ++ [row]
               /\ status_code row = 500
               /\ row_key row = (webhookId d, eventType d, retries d))).
Proof.
  intros (Hq & Hi & Ht) Hkey.
  rewrite push_and_process_empty_queue by assumption.
  destruct (deliverWebhook_keyless d m Hkey) as [e ->].
  destruct (Z.ltb_spec (retries d) (maxRetries d)) as [Hlt|Hge].
  - split; [| split; [reflexivity | split; [reflexivity |]]].
    + unfold keyless. simpl. split; [assumption |]. split; [assumption |].
      apply Forall_app. split; [assumption |].
      constructor; [| constructor]. simpl. split; [assumption | lia].
    + left. split; [assumption |]. split; reflexivity.
  - split; [| split; [reflexivity | split; [reflexivity |]]].
    + unfold keyless. simpl. now repeat split.
    + right. split; [assumption |]. split; [reflexivity |].
      eexists. split; [reflexivity |]. split; reflexivity.
Qed.

(** The loop, run until the pending deliveries are closed: no POST is
    made, the timers that fire are the pending ones and those of the
    retries that follow them, and each pending delivery is closed by one
    row of status 500 whose [retry_count] is its [maxRetries]. *)
Lemma run_keyless_course (fuel : nat) : forall m,
  keyless m -> (turns_left m <= fuel)%nat ->
  quiescent (run fuel net m)
  /\ posts (run fuel net m) = posts m
  /\ fired fuel net m ≡ₚ flat_map timers_after (timers m)
  /\ exists rows,
       webhook_logs (run fuel net m) = webhook_logs m ++ rows
       /\ Forall (fun row => status_code row = 500) rows
       /\ map row_key rows ≡ₚ map closing_key (timers m).
Proof.
  induction fuel as [|fuel IH]; intros m Hk Hfuel.
  - assert (Ht : timers m = []) by (apply turns_left_nil; lia).
    destruct Hk as (Hq & Hi & _). simpl. rewrite Ht.
    split; [now repeat split |]. split; [reflexivity |]. split; [reflexivity |].
    exists []. rewrite app_nil_r. split; [reflexivity |]. split; constructor.
  - destruct Hk as (Hq & Hi & Ht). cbn [run fired]. unfold turn. rewrite Hi.
    destruct (timers m) as [|[delay d] rest] eqn:Htimers.
    + split; [now repeat split |]. split; [reflexivity |]. split; [reflexivity |].
      exists []. rewrite app_nil_r. split; [reflexivity |]. split; constructor.
    + apply Forall_cons in Ht as [[Hkey Hle] Hrest]. simpl in Hkey, Hle.
      assert (Hk0 : keyless (set_timers rest m)) by (now repeat split).
      destruct (push_and_process_keyless_step d _ Hk0 Hkey)
        as (Hk1 & Hp1 & _ & Hcase).
      change (posts (set_timers rest m)) with (posts m) in Hp1.
      change (timers (set_timers rest m)) with rest in Hcase.
      change (webhook_logs (set_timers rest m)) with (webhook_logs m) in Hcase.
      assert (Hturns : (turns_left (push_and_process net d (set_timers rest m))
                        <= fuel)%nat).
      { unfold turns_left in *. rewrite Htimers in Hfuel. simpl in Hfuel.
        destruct Hcase as [(Hlt & Ht1 & _)|(_ & Ht1 & _)]; rewrite Ht1.
        - rewrite map_app, list_sum_app. simpl.
          replace (Z.to_nat (maxRetries d - retries d))
            with (S (Z.to_nat (maxRetries d - (retries d + 1)))) in Hfuel by lia.
          lia.
        - lia. }
      destruct (IH _ Hk1 Hturns) as (Hq2 & Hp2 & Hf2 & rows2 & Hr2 & Hs2 & Hkeys2).
      split; [exact Hq2 |]. split; [congruence |].
      cbn [flat_map timers_after snd app map].
      destruct Hcase as [(Hlt & Ht1 & Hl1)|(Hge & Ht1 & row & Hl1 & Hs1 & Hkey1)].
      * split.
        -- apply perm_skip. rewrite Hf2, Ht1, flat_map_app.
           cbn [flat_map timers_after snd]. rewrite app_nil_r.
           rewrite (retry_timers_step d Hlt). apply Permutation_app_comm.
        -- exists rows2. split; [now rewrite Hr2, Hl1 |]. split; [exact Hs2 |].
           rewrite Hkeys2, Ht1, map_app. symmetry.
           apply (Permutation_cons_append (map closing_key rest)
                                          (closing_key (delay, d))).
      * split.
        -- apply perm_skip. rewrite Hf2, Ht1, (retry_timers_done d Hge).
           reflexivity.
        -- exists (row :: rows2).
           split; [rewrite Hr2, Hl1, <- app_assoc; reflexivity |].
           split; [now constructor |].
           cbn [map]. rewrite Hkey1, Hkeys2, Ht1. unfold closing_key at 2.
           cbn [snd]. replace (retries d) with (maxRetries d) by lia.
           reflexivity.
Qed.

(** Queueing a delivery for each of the webhooks. *)
Lemma queue_keyless_course (ws : list webhook) (event : string)
    (payload : Payload) :
  Forall (fun w => secret_key w = None) ws ->
  forall m, keyless m ->
  let m1 := fold_left (fun m w => _queueWebhookDelivery net w event payload m)
                      ws m in
  exists rows,
    webhook_logs m1 = webhook_logs m ++ rows
    /\ Forall (fun row => status_code row = 500) rows
    /\ flat_map timers_after (timers m1)
       = flat_map timers_after (timers m)
         ++ flat_map (fun w => retry_timers (queued w event payload m)) ws
    /\ map row_key rows ++ map closing_key (timers m1)
       ≡ₚ map closing_key (timers m)
          ++ map (fun w => (w_id w, event, Z.max 0 (this_maxRetries m))) ws.
Proof.
  induction 1 as [|w ws Hw _ IH]; intros m Hk; cbn [fold_left flat_map map].
  - exists []. rewrite !app_nil_r. split; [reflexivity |].
    split; [constructor |]. split; reflexivity.
  - change (_queueWebhookDelivery net w event payload m)
      with (push_and_process net (queued w event payload m) m).
    destruct (push_and_process_keyless_step (queued w event payload m) m Hk Hw)
      as (Hk1 & _ & Hm1 & Hcase).
    destruct (IH _ Hk1) as (rows2 & Hr2 & Hs2 & Hf2 & Hkeys2).
    assert (Hsame : forall w',
               queued w' event payload
                      (push_and_process net (queued w event payload m) m)
               = queued w' event payload m)
      by (intros w'; unfold queued at 1 3; now rewrite Hm1).
    rewrite (flat_map_ext _ _ (fun w' => f_equal retry_timers (Hsame w'))) in Hf2.
    rewrite Hm1 in Hkeys2.
    destruct Hcase as [(Hlt & Ht1 & Hl1)|(Hge & Ht1 & row & Hl1 & Hs1 & Hkey1)];
      cbn [queued retries maxRetries webhookId eventType] in *.
    + exists rows2. split; [now rewrite Hr2, Hl1 |]. split; [exact Hs2 |].
      split.
      * rewrite Hf2, Ht1, flat_map_app. cbn [flat_map timers_after snd].
        rewrite app_nil_r, <- app_assoc.
        rewrite (retry_timers_step (queued w event payload m)) by exact Hlt.
        reflexivity.
      * rewrite Hkeys2, Ht1, map_app, <- app_assoc.
        replace (Z.max 0 (this_maxRetries m)) with (this_maxRetries m) by lia.
        reflexivity.
    + exists (row :: rows2).
      split; [rewrite Hr2, Hl1, <- app_assoc; reflexivity |].
      split; [now constructor |]. split.
      * rewrite Hf2, Ht1.
        rewrite (retry_timers_done (queued w event payload m)) by exact Hge.
        reflexivity.
      * cbn [map app]. rewrite Hkey1.
        replace (Z.max 0 (this_maxRetries m)) with 0 by lia.
        rewrite <- Ht1, <- Permutation_middle. apply perm_skip.
        rewrite Hkeys2, Ht1.
        replace (Z.max 0 (this_maxRetries m)) with 0 by lia. reflexivity.
Qed.

(** Every delivery queued for keyless webhooks, from the call that queues
    it to the row that closes it. *)
Lemma queued_course (ws : list webhook) (event : string) (payload : Payload)
    m (fuel : nat) :
  Forall (fun w => secret_key w = None) ws ->
  keyless m ->
  (turns_left m + length ws * Z.to_nat (this_maxRetries m) <= fuel)%nat ->
  let m1 := fold_left (fun m w => _queueWebhookDelivery net w event payload m)
                      ws m in
  quiescent (run fuel net m1)
  /\ posts (run fuel net m1) = posts m
  /\ fired fuel net m1
     ≡ₚ flat_map timers_after (timers m)
        ++ flat_map (fun w => retry_timers (queued w event payload m)) ws
  /\ exists rows,
       webhook_logs (run fuel net m1) = webhook_logs m ++ rows
       /\ Forall (fun row => status_code row = 500) rows
       /\ map row_key rows
          ≡ₚ map closing_key (timers m)
             ++ map (fun w => (w_id w, event, Z.max 0 (this_maxRetries m))) ws.
Proof.
  intros Hws Hk Hfuel m1.
  destruct (queue_keyless ws event payload Hws m Hk)
    as (rows0 & (Hk1 & Hp1 & _) & _ & Hturns).
  destruct (queue_keyless_course ws event payload Hws m Hk)
    as (rows1 & Hr1 & Hs1 & Hf1 & Hkeys1).
  fold m1 in Hk1, Hp1, Hturns, Hr1, Hf1, Hkeys1.
  destruct (run_keyless_course fuel m1 Hk1 ltac:(lia))
    as (Hq2 & Hp2 & Hf2 & rows2 & Hr2 & Hs2 & Hkeys2).
  split; [exact Hq2 |]. split; [congruence |].
  split; [now rewrite Hf2, Hf1 |].
  exists (rows1 ++ rows2). split; [now rewrite Hr2, Hr1, app_assoc |].
  split; [now apply Forall_app |].
  now rewrite map_app, Hkeys2.
Qed.

(** The timers of the deliveries without a signing key are those that
    [schedule_retry] sets. *)
Lemma push_and_process_pending d m :
  keyless m -> secretKey d = None -> 0 <= retries d ->
  Forall backed_off (timers m) ->
  keyless (push_and_process net d m)
  /\ Forall backed_off (timers (push_and_process net d m)).
Proof.
  intros Hk Hkey Hr Hb.
  destruct (push_and_process_keyless_step d m Hk Hkey) as (Hk1 & _ & _ & Hcase).
  split; [exact Hk1 |].
  destruct Hcase as [(_ & -> & _)|(_ & -> & _)]; [| exact Hb].
  apply Forall_app. split; [exact Hb |].
  constructor; [| constructor]. unfold backed_off. simpl. split; [lia | reflexivity].
Qed.

Lemma queued_pending (ws : list webhook) (event : string) (payload : Payload) :
  Forall (fun w => secret_key w = None) ws ->
  forall m, keyless m -> Forall backed_off (timers m) ->
  let m1 := fold_left (fun m w => _queueWebhookDelivery net w event payload m)
                      ws m in
  keyless m1 /\ Forall backed_off (timers m1).
Proof.
  induction 1 as [|w ws Hw _ IH]; intros m Hk Hb; cbn [fold_left]; [now split |].
  change (_queueWebhookDelivery net w event payload m)
    with (push_and_process net (queued w event payload m) m).
  destruct (push_and_process_pending (queued w event payload m) m Hk Hw)
    as [Hk1 Hb1]; [simpl; lia | exact Hb |].
  now apply IH.
Qed.

Lemma turn_pending m m' :
  keyless m -> Forall backed_off (timers m) ->
  turn net m = Some m' ->
  keyless m' /\ Forall backed_off (timers m').
Proof.
  intros (Hq & Hi & Ht) Hb. unfold turn. rewrite Hi.
  destruct (timers m) as [|[delay d] rest] eqn:Htimers; [discriminate |].
  intros [= <-].
  apply Forall_cons in Ht as [[Hkey Hle] Hrest].
  apply Forall_cons in Hb as [[Hone _] Hbrest]. simpl in Hkey, Hle, Hone.
  apply push_and_process_pending; try assumption; [now repeat split | lia].
Qed.

(** *** Deliveries with a signing key *)

Lemma deliverWebhook_succeeding d m key :
  secretKey d = Some key ->
  (forall q, succeeding (net (posts m) q)) ->
  exists m1 row,
    _deliverWebhook net d m = (Return tt, m1)
    /\ posts m1 = S (posts m)
    /\ webhook_logs m1 = webhook_logs m ++ [row]
    /\ outcome_of row = Delivered /\ retry_count row = retries d.
Proof.
  intros Hkey Hnet. unfold _deliverWebhook. rewrite Hkey. simpl.
  match goal with |- context [net ?n ?q] =>
    pose proof (Hnet q) as Hok; destruct (net n q) as [status text|message]
  end; [| contradiction].
  assert (Hst : negb (bool_decide (status = 200)) && negb (bool_decide (status = 204))
                = false).
  { destruct Hok as [->| ->]; reflexivity. }
  rewrite Hst. do 2 eexists. split; [reflexivity |]. simpl.
  repeat split.
  unfold outcome_of. simpl. destruct Hok as [->| ->]; reflexivity.
Qed.

Lemma deliverWebhook_failing_here d m key :
  secretKey d = Some key ->
  (forall q, failing (net (posts m) q)) ->
  exists e m1,
    _deliverWebhook net d m = (Throw e, m1) /\ posts m1 = S (posts m).
Proof.
  intros Hkey Hnet. unfold _deliverWebhook. rewrite Hkey. simpl.
  match goal with |- context [net ?n ?q] =>
    pose proof (Hnet q) as Hfail; destruct (net n q) as [status text|message]
  end.
  - destruct Hfail as [H200 H204].
    rewrite !bool_decide_eq_false_2 by assumption. simpl. eauto.
  - eauto.
Qed.

Lemma fired_quiescent m (fuel : nat) : quiescent m -> fired fuel net m = [].
Proof.
  intros (_ & Ht & Hi). destruct fuel; [reflexivity |].
  simpl. unfold turn. now rewrite Hi, Ht.
Qed.

(** The delays and the counts of retries of the timers of [n] retries in
    a row. *)
Lemma retries_from_delays (n : nat) : forall d,
  map fst (retries_from n d)
  = map (fun i : nat => backoff (retries d + 1 + Z.of_nat i)) (seq 0 n)
  /\ map (fun t => retries (snd t)) (retries_from n d)
     = map (fun i : nat => retries d + 1 + Z.of_nat i) (seq 0 n).
Proof.
  induction n as [|n IH]; intros d; [now split |].
  destruct (IH (increment_retries d)) as [IHd IHr].
  cbn [retries_from map seq fst snd].
  rewrite IHd, IHr, <- seq_shift, !map_map. simpl.
  rewrite !Z.add_0_r.
  split; f_equal; apply map_ext; intros i; [apply f_equal |]; lia.
Qed.

(** Up to the 21st retry the delay is within the range of Node's timers. *)
Lemma timeout_backoff (retries : Z) :
  (1 <= retries <= 21 -> timeout (backoff retries) = 2 ^ retries * 1000)
  /\ (22 <= retries -> timeout (backoff retries) = 1).
Proof.
  unfold backoff, timeout, TIMEOUT_MAX. split.
  - intros [H1 H21].
    destruct (Z.leb_spec retries 1014) as [_|]; [| lia].
    assert (Hlow : 2 ^ 1 <= 2 ^ retries) by (apply Z.pow_le_mono_r; lia).
    assert (Hhigh : 2 ^ retries <= 2 ^ 21) by (apply Z.pow_le_mono_r; lia).
    change (2 ^ 1) with 2 in Hlow. change (2 ^ 21) with 2097152 in Hhigh.
    change (2 ^ 31 - 1) with 2147483647.
    destruct (Z.leb_spec 1 (2 ^ retries * 1000)); [| lia].
    destruct (Z.leb_spec (2 ^ retries * 1000) 2147483647); [reflexivity | lia].
  - intros H22.
    destruct (Z.leb_spec retries 1014) as [_|]; [| reflexivity].
    assert (Hlow : 2 ^ 22 <= 2 ^ retries) by (apply Z.pow_le_mono_r; lia).
    change (2 ^ 22) with 4194304 in Hlow. change (2 ^ 31 - 1) with 2147483647.
    destruct (Z.leb_spec 1 (2 ^ retries * 1000)); [| reflexivity].
    destruct (Z.leb_spec (2 ^ retries * 1000) 2147483647); [lia | reflexivity].
Qed.

Lemma delivered_at (key : string) (k : nat) : forall d m (fuel : nat),
  quiescent m ->
  secretKey d = Some key ->
  (forall i q, (i < k)%nat -> failing (net (posts m + i)%nat q)) ->
  (forall q, succeeding (net (posts m + k)%nat q)) ->
  retries d + Z.of_nat k <= maxRetries d ->
  (k <= fuel)%nat ->
  quiescent (run fuel net (push_and_process net d m))
  /\ posts (run fuel net (push_and_process net d m)) = (posts m + k + 1)%nat
  /\ fired fuel net (push_and_process net d m) = retries_from k d
  /\ exists closing,
       last (webhook_logs (run fuel net (push_and_process net d m))) = Some closing
       /\ outcome_of closing = Delivered
       /\ retry_count closing = retries d + Z.of_nat k.
Proof.
  induction k as [|k IH]; intros d m fuel Hq Hkey Hfail Hok Hle Hfuel;
    rewrite push_and_process_quiescent by assumption.
  - rewrite Nat.add_0_r in Hok.
    destruct (deliverWebhook_succeeding d m key Hkey Hok)
      as (m1 & row & Hd & Hp & Hr & Ho & Hrc).
    rewrite Hd.
    pose proof (deliverWebhook_quiescent _ _ _ _ _ Hd Hq) as Hq1.
    rewrite run_quiescent, fired_quiescent by assumption.
    split; [exact Hq1 |]. split; [lia |]. split; [reflexivity |].
    exists row. rewrite Hr, last_snoc. repeat split; [assumption | lia].
  - assert (Hhere : forall q, failing (net (posts m) q)).
    { intros q. specialize (Hfail O q). rewrite Nat.add_0_r in Hfail.
      apply Hfail. lia. }
    destruct (deliverWebhook_failing_here d m key Hkey Hhere) as (e & m1 & Hd & Hp).
    rewrite Hd.
    pose proof (deliverWebhook_quiescent _ _ _ _ _ Hd Hq) as Hq1.
    destruct (Z.ltb_spec (retries d) (maxRetries d)) as [_|]; [| lia].
    destruct fuel as [|fuel]; [lia |].
    pose proof (turn_schedule_retry net d m1 Hq1) as Hturn.
    cbn [run fired]. rewrite Hturn.
    replace (immediates (schedule_retry d m1)) with O
      by (destruct Hq1 as (_ & _ & Hi); symmetry; exact Hi).
    replace (timers (schedule_retry d m1))
      with [(backoff (retries (increment_retries d)), increment_retries d)]
      by (destruct Hq1 as (_ & Ht & _); unfold schedule_retry; simpl;
          now rewrite Ht).
    destruct (timer_fired_effect d m1) as (_ & _ & Tp).
    destruct (IH (increment_retries d) (set_timers [] (schedule_retry d m1)) fuel)
      as (IHq & IHp & IHf & closing & IHlast & IHo & IHr).
    + now apply timer_fired_quiescent.
    + exact Hkey.
    + intros i q Hi. rewrite Tp, Hp.
      replace (S (posts m) + i)%nat with (posts m + S i)%nat by lia.
      apply Hfail. lia.
    + intros q. rewrite Tp, Hp.
      replace (S (posts m) + k)%nat with (posts m + S k)%nat by lia. apply Hok.
    + simpl. lia.
    + lia.
    + rewrite Tp, Hp in IHp. simpl in IHr.
      split; [exact IHq |]. split; [lia |].
      split; [cbn [retries_from]; now rewrite IHf |].
      exists closing. repeat split; try assumption. lia.
Qed.

(** X10.  A delivery with a signing key, queued on a manager with nothing
    pending, whose first [k] POSTs fail and whose next POST is answered
    200 or 204, with [k <= maxRetries]: it makes [k + 1] POSTs; the timers
    that fire in between are those of its [k] retries, set with the delays
    [Math.pow(2, i) * 1000] for [i] from 1 to [k], which Node fires after
    2, 4, ..., [2^k] seconds as long as [k <= 21]; and it ends with a
    Delivered row whose [retry_count] is [k], nothing being left
    pending. *)
Theorem delivered_after_failures (w : webhook) (key eventType : string)
    (payload : Payload) m (k : nat) :
  quiescent m ->
  secret_key w = Some key ->
  Z.of_nat k <= this_maxRetries m ->
  (forall i q, (i < k)%nat -> failing (net (posts m + i)%nat q)) ->
  (forall q, succeeding (net (posts m + k)%nat q)) ->
  let fuel := Z.to_nat (this_maxRetries m) in
  let m0 := _queueWebhookDelivery net w eventType payload m in
  let m' := run fuel net m0 in
  quiescent m'
  /\ posts m' = (posts m + k + 1)%nat
  /\ map fst (fired fuel net m0)
     = map (fun i : nat => backoff (Z.of_nat i + 1)) (seq 0 k)
  /\ map (fun t => retries (snd t)) (fired fuel net m0)
     = map (fun i : nat => Z.of_nat i + 1) (seq 0 k)
  /\ ((k <= 21)%nat ->
      map (fun t => timeout (fst t)) (fired fuel net m0)
      = map (fun i : nat => 2 ^ (Z.of_nat i + 1) * 1000) (seq 0 k))
  /\ exists closing,
       last (webhook_logs m') = Some closing
       /\ outcome_of closing = Delivered
       /\ retry_count closing = Z.of_nat k.
Proof.
  intros Hq Hkey Hk Hfail Hok fuel m0 m'. subst m' m0 fuel.
  unfold _queueWebhookDelivery.
  set (d := mkDelivery (w_id w) (w_url w) eventType payload (secret_key w) 0
                       (this_maxRetries m)).
  destruct (delivered_at key k d m (Z.to_nat (this_maxRetries m)) Hq Hkey Hfail Hok)
    as (Hq' & Hp & Hf & closing & Hlast & Ho & Hr); [simpl; lia | lia |].
  destruct (retries_from_delays k d) as [Hdelays Hretries].
  assert (Hfst : map fst (fired (Z.to_nat (this_maxRetries m)) net
                            (push_and_process net d m))
                 = map (fun i : nat => backoff (Z.of_nat i + 1)) (seq 0 k)).
  { rewrite Hf, Hdelays. apply map_ext. intros i. simpl. f_equal. lia. }
  split; [exact Hq' |]. split; [exact Hp |]. split; [exact Hfst |].
  split; [rewrite Hf, Hretries; apply map_ext; intros i; simpl; lia |].
  split.
  - intros H21.
    rewrite <- (map_map fst timeout), Hfst, map_map.
    apply map_ext_in. intros i Hi. apply in_seq in Hi.
    apply (proj1 (timeout_backoff (Z.of_nat i + 1))). lia.
  - exists closing. split; [exact Hlast |]. split; [exact Ho |]. simpl in Hr. lia.
Qed.

Lemma deliverWebhook_answered_failing d m key :
  secretKey d = Some key ->
  (forall n q, answered_failing (net n q)) ->
  exists e m1 row,
    _deliverWebhook net d m = (Throw e, m1)
    /\ webhook_logs m1 = webhook_logs m ++ [row]
    /\ outcome_of row = Failed /\ webhook_id row = webhookId d.
Proof.
  intros Hkey Hnet. unfold _deliverWebhook. rewrite Hkey. simpl.
  match goal with |- context [net ?n ?q] =>
    pose proof (Hnet n q) as Hfail; destruct (net n q) as [status text|message]
  end; [| contradiction].
  destruct Hfail as [H200 H204].
  rewrite !bool_decide_eq_false_2 by assumption. simpl.
  do 3 eexists. split; [reflexivity |]. simpl. split; [reflexivity |].
  split; [| reflexivity].
  unfold outcome_of. simpl. now rewrite !bool_decide_eq_false_2.
Qed.

Lemma completes_answered_failing d m m' key :
  secretKey d = Some key ->
  (forall n q, answered_failing (net n q)) ->
  retries d <= maxRetries d ->
  completes net d m m' ->
  exists rows,
    webhook_logs m' = webhook_logs m ++ rows
    /\ length rows = (Z.to_nat (maxRetries d - retries d) + 2)%nat
    /\ Forall (fun row => outcome_of row = Failed /\ webhook_id row = webhookId d)
              rows.
Proof.
  intros Hkey Hnet Hle Hc. revert Hkey Hle.
  induction Hc as [d m m1 Hd|d m e m1 Hd Hge|d m e m1 m' Hd Hlt _ IH];
    intros Hkey Hle;
    destruct (deliverWebhook_answered_failing d m key Hkey Hnet)
      as (e' & m1' & row & Hd' & Hr & Ho & Hid);
    rewrite Hd in Hd'; [discriminate | |]; injection Hd' as <- <-.
  - destruct (record_failure_effect d e m1) as (_ & Fr & _).
    exists [row; failure_row d e]. rewrite Fr, Hr, <- app_assoc.
    split; [reflexivity |]. split; [simpl; lia |].
    repeat constructor; assumption.
  - destruct (timer_fired_effect d m1) as (_ & Tr & _).
    destruct IH as (rows & IHr & IHlen & IHall); [exact Hkey | simpl; lia |].
    simpl in IHlen, IHall. rewrite Tr, Hr, <- app_assoc in IHr.
    exists (row :: rows). split; [exact IHr |]. split; [simpl; lia |].
    constructor; [now split | assumption].
Qed.

(** X11.  A delivery to a subscriber that answers every POST with a
    status other than 200 and 204 leaves [maxRetries + 2] rows in
    [webhook_logs], all of that webhook and all with a Failed outcome: one
    for each of the [maxRetries + 1] responses and one written when the
    retries are used up. *)
Theorem failed_delivery_rows (w : webhook) (key eventType : string)
    (payload : Payload) m :
  quiescent m ->
  secret_key w = Some key ->
  0 <= this_maxRetries m ->
  (forall n q, answered_failing (net n q)) ->
  let m' := run (Z.to_nat (this_maxRetries m)) net
                (_queueWebhookDelivery net w eventType payload m) in
  exists rows,
    webhook_logs m' = webhook_logs m ++ rows
    /\ length rows = (Z.to_nat (this_maxRetries m) + 2)%nat
    /\ Forall (fun row => outcome_of row = Failed /\ webhook_id row = w_id w) rows.
Proof.
  intros Hq Hkey Hmax Hnet m'.
  pose proof (queued_completes net w eventType payload m Hq) as Hc. fold m' in Hc.
  eapply (completes_answered_failing _ _ _ key) in Hc as (rows & Hr & Hlen & Hall);
    [| exact Hkey | exact Hnet | exact Hmax].
  simpl in Hlen, Hall. rewrite Z.sub_0_r in Hlen. eauto.
Qed.

(** *** Testing, updating and deleting a webhook *)

Lemma find_map_id (g : webhook_row -> webhook_row) (webhookId : Z)
    (table : list webhook_row) :
  (forall r, w_id (stored (g r)) = w_id (stored r)) ->
  List.find (fun r => bool_decide (w_id (stored r) = webhookId)) (map g table)
  = option_map g
      (List.find (fun r => bool_decide (w_id (stored r) = webhookId)) table).
Proof.
  intros Hg. induction table as [|r table IH]; simpl; [reflexivity |].
  rewrite Hg. destruct (bool_decide _); [reflexivity | exact IH].
Qed.

Lemma find_deleted (webhookId webhookId' : Z) (table : list webhook_row) :
  List.find (fun r => bool_decide (w_id (stored r) = webhookId'))
            (deleteWebhook webhookId table)
  = if bool_decide (webhookId' = webhookId) then None
    else List.find (fun r => bool_decide (w_id (stored r) = webhookId')) table.
Proof.
  unfold deleteWebhook.
  induction table as [|r table IH]; simpl; [now destruct (bool_decide _) |].
  destruct (decide (w_id (stored r) = webhookId)) as [Hid|Hid].
  - rewrite (bool_decide_eq_true_2 _ Hid). simpl. rewrite IH.
    destruct (decide (webhookId' = webhookId)) as [->|Hne].
    + now rewrite !bool_decide_eq_true_2.
    + rewrite (bool_decide_eq_false_2 _ Hne).
      rewrite bool_decide_eq_false_2 by congruence. reflexivity.
  - rewrite (bool_decide_eq_false_2 _ Hid). simpl. rewrite IH.
    destruct (decide (w_id (stored r) = webhookId')) as [Hid'|Hid'].
    + rewrite (bool_decide_eq_true_2 _ Hid').
      rewrite bool_decide_eq_false_2 by congruence. reflexivity.
    + rewrite (bool_decide_eq_false_2 _ Hid'). reflexivity.
Qed.

Lemma getWebhooks_deleted (webhookId organizationId : Z) (table : list webhook_row) :
  getWebhooks (deleteWebhook webhookId table) organizationId
  = List.filter (fun w => negb (bool_decide (w_id w = webhookId)))
                (getWebhooks table organizationId).
Proof.
  unfold getWebhooks, deleteWebhook.
  induction table as [|r table IH]; simpl; [reflexivity |].
  destruct (bool_decide (w_id (stored r) = webhookId)) eqn:Hid; simpl.
  - rewrite IH. destruct (_ && _); simpl; [now rewrite Hid | reflexivity].
  - destruct (_ && _); simpl; [rewrite Hid; simpl |]; now rewrite IH.
Qed.

(** X12.  [testWebhook] makes at most one POST and leaves no trace of it:
    it writes no row to [webhook_logs] and sets no timer, so a failed test
    is never retried; for an id that no row has, it throws
    [Webhook not found] without a POST, and for a row with a secret it
    makes exactly one. *)
Theorem testWebhook_leaves_no_trace (table : list webhook_row) (webhookId : Z)
    (testPayload : Payload) m :
  let result := testWebhook net table webhookId testPayload m in
  webhook_logs (snd result) = webhook_logs m
  /\ timers (snd result) = timers m
  /\ eventQueue (snd result) = eventQueue m
  /\ immediates (snd result) = immediates m
  /\ match List.find (fun r => bool_decide (w_id (stored r) = webhookId)) table with
     | None => result = (Throw (Error "Webhook not found"), m)
     | Some r => secret_key (stored r) <> None -> posts (snd result) = S (posts m)
     end.
Proof.
  unfold testWebhook.
  destruct (List.find _ table) as [r|]; [| now repeat split].
  destruct (secret_key (stored r)) as [key|]; simpl; [| now repeat split].
  destruct (net (posts m) _) as [status text|message]; [| now repeat split].
  destruct (_ && _); now repeat split.
Qed.

(** X13.  A subscriber that answers every POST with a status in
    [200, 300) other than 200 and 204, such as 201 or 202, passes
    [testWebhook], yet no delivery to it succeeds.  A delivery that carries
    the signing key of the stored row (no method of the class queues one:
    [triggerEvent] and [broadcastEvent] queue the rows of [getWebhooks],
    which have no key) is posted [maxRetries + 1] times and leaves
    [maxRetries + 2] rows in [webhook_logs], all with a Failed outcome.
    The deliveries that [triggerEvent] queues are never posted, and the
    rows they leave have a Failed outcome too. *)
Theorem test_passes_but_delivery_fails (table : list webhook_row) (webhookId : Z)
    (r : webhook_row) (key eventType : string) (testPayload payload : Payload)
    (organizationId : Z) m (fuel : nat) :
  List.find (fun r => bool_decide (w_id (stored r) = webhookId)) table = Some r ->
  secret_key (stored r) = Some key ->
  (forall n q, accepted_by_test_only (net n q)) ->
  quiescent m ->
  0 <= this_maxRetries m ->
  fst (testWebhook net table webhookId testPayload m) = Return success
  /\ (let m' := run (Z.to_nat (this_maxRetries m)) net
                    (_queueWebhookDelivery net (stored r) eventType payload m) in
      exists rows,
        webhook_logs m' = webhook_logs m ++ rows
        /\ length rows = (Z.to_nat (this_maxRetries m) + 2)%nat
        /\ Forall (fun row => outcome_of row = Failed) rows)
  /\ (let m' := run fuel net
                    (triggerEvent net table organizationId eventType payload m) in
      posts m' = posts m
      /\ exists rows,
           webhook_logs m' = webhook_logs m ++ rows
           /\ Forall (fun row => outcome_of row = Failed) rows).
Proof.
  intros Hfind Hkey Hnet Hq Hmax. split; [| split].
  - unfold testWebhook. rewrite Hfind, Hkey. simpl.
    match goal with |- context [net ?n ?q] =>
      pose proof (Hnet n q) as Hr; destruct (net n q) as [status text|message]
    end; [| contradiction].
    destruct Hr as ([Hlo Hhi] & _).
    apply Z.leb_le in Hlo. apply Z.ltb_lt in Hhi. now rewrite Hlo, Hhi.
  - intros m'.
    pose proof (queued_completes net (stored r) eventType payload m Hq) as Hc.
    fold m' in Hc.
    eapply (completes_answered_failing _ _ _ key) in Hc as (rows & Hr & Hlen & Hall);
      [| exact Hkey | | exact Hmax].
    + simpl in Hlen. rewrite Z.sub_0_r in Hlen.
      exists rows. split; [exact Hr |]. split; [exact Hlen |].
      eapply Forall_impl; [exact Hall |]. now intros row [Ho _].
    + intros n q. specialize (Hnet n q).
      destruct (net n q) as [status text|message]; [| contradiction].
      now destruct Hnet as (_ & H200 & H204).
  - intros m'. subst m'. rewrite triggerEvent_queues.
    destruct (queued_keyless_never_post
                (listening table organizationId eventType) eventType payload m fuel
                (listed_keyless table organizationId _) Hq)
      as (Hp & rows & Hr & Hs & _).
    split; [exact Hp |]. exists rows. split; [exact Hr |].
    eapply Forall_impl; [exact Hs |]. intros row Hrow.
    unfold outcome_of. now rewrite Hrow.
Qed.

(** X14.  After [deleteWebhook(id)] no event reaches the webhook and
    [testWebhook(id)] throws [Webhook not found]; for every other id the
    listing and the test are as before. *)
Theorem deleteWebhook_removes_only_that_webhook (table : list webhook_row)
    (webhookId webhookId' organizationId : Z) (testPayload : Payload) m :
  getWebhooks (deleteWebhook webhookId table) organizationId
  = List.filter (fun w => negb (bool_decide (w_id w = webhookId)))
                (getWebhooks table organizationId)
  /\ testWebhook net (deleteWebhook webhookId table) webhookId' testPayload m
     = if bool_decide (webhookId' = webhookId)
       then (Throw (Error "Webhook not found"), m)
       else testWebhook net table webhookId' testPayload m.
Proof.
  split; [apply getWebhooks_deleted |].
  unfold testWebhook. rewrite find_deleted.
  now destruct (bool_decide (webhookId' = webhookId)).
Qed.

(** X15.  Deactivating a webhook with [updateWebhook(id, {isActive:
    false})] is, for the events, the same as deleting it: [getWebhooks]
    lists the same webhooks and [triggerEvent] does the same.  The row
    stays, though: [testWebhook] still posts to it as before. *)
Theorem deactivated_webhook_gets_no_events (table : list webhook_row)
    (webhookId webhookId' organizationId : Z) (eventType : string)
    (payload testPayload : Payload) m :
  let deactivated :=
    updateWebhook webhookId (mkUpdates None None None (Some false)) table in
  getWebhooks deactivated organizationId
  = getWebhooks (deleteWebhook webhookId table) organizationId
  /\ triggerEvent net deactivated organizationId eventType payload m
     = triggerEvent net (deleteWebhook webhookId table) organizationId
                    eventType payload m
  /\ testWebhook net deactivated webhookId' testPayload m
     = testWebhook net table webhookId' testPayload m.
Proof.
  intros deactivated.
  assert (Hlist : getWebhooks deactivated organizationId
                  = getWebhooks (deleteWebhook webhookId table) organizationId).
  { subst deactivated. unfold getWebhooks, updateWebhook, deleteWebhook.
    induction table as [|r table IH]; simpl in *; [reflexivity |].
    destruct (bool_decide (w_id (stored r) = webhookId)) eqn:Hid; simpl in *.
    - rewrite andb_false_r. exact IH.
    - destruct (_ && _); simpl; now rewrite IH. }
  split; [exact Hlist |]. split.
  - unfold triggerEvent. now rewrite Hlist.
  - subst deactivated. unfold testWebhook, updateWebhook.
    rewrite find_map_id.
    + destruct (List.find _ table) as [r|]; simpl; [| reflexivity].
      now destruct (bool_decide (w_id (stored r) = webhookId)).
    + intros r. now destruct (bool_decide _).
Qed.

(** X16.  [updateWebhook] does not validate: event types that
    [registerWebhook] rejects, such as the dotted ones the server
    triggers, can be stored by an update, and the webhook is then listed
    as listening to them. *)
Theorem updateWebhook_bypasses_validation (table : list webhook_row)
    (r : webhook_row) (events : list string) (eventType : string) :
  r ∈ table ->
  is_active r = true ->
  eventType ∈ events ->
  exists w,
    w ∈ getWebhooks (updateWebhook (w_id (stored r))
                                    (mkUpdates None (Some events) None None) table)
                     (organization_id (stored r))
    /\ w_id w = w_id (stored r)
    /\ w_url w = w_url (stored r)
    /\ w_events w = events
    /\ listens w eventType = true.
Proof.
  intros Hin Hact Hev.
  exists (mkWebhook (w_id (stored r)) (organization_id (stored r))
                    (w_url (stored r)) events None).
  split.
  - apply getWebhooks_listed.
    exists (mkRow (mkWebhook (w_id (stored r)) (organization_id (stored r))
                             (w_url (stored r)) events (secret_key (stored r)))
                  (headers r) (is_active r)).
    split; [| now repeat split].
    unfold updateWebhook. apply list_elem_of_In, in_map_iff. exists r.
    rewrite bool_decide_eq_true_2 by reflexivity. simpl.
    split; [reflexivity | now apply list_elem_of_In].
  - simpl. repeat split. unfold listens. simpl. now apply bool_decide_eq_true_2.
Qed.

End Triggering.

(** *** The deliveries of the managers that the class can produce *)

(** Whatever was registered, triggered, broadcast and tested, and however
    far the loop has run, nothing waits in the queue and every pending
    timer carries a delivery without a signing key, set by
    [schedule_retry]. *)
Lemma reachable_pending {Payload : Type} `{JSON Payload} (m : manager Payload) :
  reachable m -> keyless m /\ Forall backed_off (timers m).
Proof.
  induction 1 as [maxRetries timeoutMs
                 | parse production entropy organizationId userId url events m _ [IHk IHb]
                 | net table organizationId event payload m _ [IHk IHb]
                 | net table organizationId event payload filter_url m _ [IHk IHb]
                 | net table webhookId testPayload m _ [IHk IHb]
                 | net m m' _ [IHk IHb] Hturn].
  - split; [| constructor]. repeat split. constructor.
  - unfold registerWebhook.
    destruct (_validateWebhookUrl parse production url);
      try (split; [exact IHk | exact IHb]).
    destruct (0 <? _); split; first [exact IHk | exact IHb].
  - rewrite triggerEvent_queues.
    apply queued_pending; [apply listed_keyless | exact IHk | exact IHb].
  - destruct (broadcastEvent_queues net table organizationId event payload
                                    filter_url m) as (ws & Hws & ->).
    now apply queued_pending.
  - unfold testWebhook.
    destruct (List.find _ table); [| split; [exact IHk | exact IHb]].
    destruct (_generateSignature _ _); try (split; [exact IHk | exact IHb]).
    destruct (net _ _); [destruct (_ && _) |];
      (split; [exact IHk | exact IHb]).
  - eapply turn_pending; eassumption.
Qed.

Section Triggered.
Context {Payload : Type} `{JSON Payload}.
Variable net : network Payload.

Implicit Types (d : delivery Payload) (m : manager Payload).

(** C1.  For every event that [triggerEvent] is called with and every
    subscription that listens to it, exactly one row of [webhook_logs] is
    written, whatever [maxRetries] is, and its outcome is Failed: once the
    loop has run the retries, nothing is pending and the rows added are,
    up to their order, one for each delivery that was pending before the
    call and one for each listening subscription, none twice and none
    missing.  All the deliveries of a manager come from [triggerEvent] and
    [broadcastEvent]. *)
Theorem one_row_per_triggered_subscription (table : list webhook_row)
    (organizationId : Z) (event : string) (payload : Payload) m (fuel : nat) :
  reachable m ->
  let subscriptions := listening table organizationId event in
  (turns_left m + length subscriptions * Z.to_nat (this_maxRetries m) <= fuel)%nat ->
  let m' := run fuel net (triggerEvent net table organizationId event payload m) in
  quiescent m'
  /\ exists rows,
       webhook_logs m' = webhook_logs m ++ rows
       /\ Forall (fun row => outcome_of row = Failed) rows
       /\ map subscription_of rows
          ≡ₚ map pending_subscription (timers m)
             ++ map (fun w => (w_id w, event)) subscriptions.
Proof.
  intros Hreach subscriptions Hfuel m'. subst m'.
  apply reachable_pending in Hreach as [Hk _].
  rewrite triggerEvent_queues.
  destruct (queued_course net subscriptions event payload m fuel
              (listed_keyless table organizationId _) Hk Hfuel)
    as (Hq & _ & _ & rows & Hr & Hs & Hkeys).
  split; [exact Hq |]. exists rows. split; [exact Hr |]. split.
  - eapply Forall_impl; [exact Hs |]. intros row Hrow.
    unfold outcome_of. now rewrite Hrow.
  - apply (Permutation_map fst) in Hkeys.
    rewrite map_app, !map_map in Hkeys. exact Hkeys.
Qed.



End Triggered.

(** The subscription of organization 2 in [example_table], as
    [getWebhooks] lists it. *)
Example listening_example :
  listening example_table 2 "message_sent"
  = [mkWebhook 9 2 "https://example.net/hook" ["message_sent"] None].
Proof. reflexivity. Qed.

Lemma one_row_per_triggered_subscription_witness :
  let m' := run 6 always_503
              (triggerEvent always_503 example_table 1 "message_sent" empty_object
                            (constructor None None)) in
  quiescent m'
  /\ map (fun row => (subscription_of row, outcome_of row)) (webhook_logs m')
     = [ (7, "message_sent", Failed); (8, "message_sent", Failed) ].
Proof.
  split; [| vm_compute; reflexivity].
  apply (one_row_per_triggered_subscription always_503 example_table 1
           "message_sent" empty_object (constructor None None) 6).
  - apply reachable_constructor.
  - vm_compute. lia.
Defined.





(** *** The properties on the sample subscriptions *)

Lemma registered_secret_verifies_witness :
  exists signature,
    _generateSignature empty_object (Some "010203") = Return signature
    /\ verifyWebhookSignature empty_object signature (Some "010203") = Return true.
Proof.
  apply (registered_secret_verifies example_parse true [1; 2; 3] 1 1
           "https://example.com/webhook" ["message_sent"] (constructor None None)
           (mkRegistration 1 "https://example.com/webhook" ["message_sent"] "010203")
           (set_webhooks [mkWebhook 1 1 "https://example.com/webhook"
                                    ["message_sent"] (Some "010203")]
                         (constructor None None))
           (mkWebhook 1 1 "https://example.com/webhook" ["message_sent"]
                      (Some "010203"))
           empty_object).
  - vm_compute. reflexivity.
  - vm_compute. reflexivity.
Defined.

Lemma registered_webhook_is_listed_witness :
  mkWebhook 1 1 "https://example.com/webhook" ["message_sent"] None
  ∈ getWebhooks
      (map inserted [mkWebhook 1 1 "https://example.com/webhook"
                               ["message_sent"] (Some "010203")]) 1.
Proof.
  apply (registered_webhook_is_listed (Payload := sample) example_parse true
           [1; 2; 3] 1 1
           "https://example.com/webhook" ["message_sent"] (constructor None None)
           (mkRegistration 1 "https://example.com/webhook" ["message_sent"] "010203")
           (set_webhooks [mkWebhook 1 1 "https://example.com/webhook"
                                    ["message_sent"] (Some "010203")]
                         (constructor None None))).
  vm_compute. reflexivity.
Defined.

Lemma validated_subscriptions_receive_nothing_witness :
  triggerEvent always_503 example_table 1 "message.sent" empty_object
               (constructor None None)
  = constructor None None.
Proof.
  apply validated_subscriptions_receive_nothing.
  - apply (bool_decide_unpack _). vm_compute. exact I.
  - apply (bool_decide_unpack _). vm_compute. exact I.
Defined.

Lemma queue_is_empty_between_calls_witness :
  eventQueue (run 2 always_503
                (_queueWebhookDelivery always_503 example_webhook "message_sent"
                   empty_object (constructor None None)))
  = [].
Proof.
  destruct (queue_is_empty_between_calls always_503 example_webhook "message_sent"
              empty_object (constructor None None) 2 eq_refl eq_refl)
    as (_ & Hq & _).
  exact Hq.
Defined.

Lemma triggered_deliveries_never_post_witness :
  posts (run 6 always_503
           (triggerEvent always_503 example_table 1 "message_sent" empty_object
              (constructor None None)))
  = O.
Proof.
  destruct (triggered_deliveries_never_post always_503 example_table 1
              "message_sent" empty_object (constructor None None) 6)
    as (Hp & _).
  - repeat split.
  - exact Hp.
Defined.

Lemma broadcast_deliveries_never_post_witness :
  posts (run 3 always_503
           (broadcastEvent always_503 example_table 1 "message_sent" empty_object
              (Some "example.org") (constructor None None)))
  = O.
Proof.
  destruct (broadcast_deliveries_never_post always_503 example_table 1
              "message_sent" empty_object (Some "example.org")
              (constructor None None) 3)
    as (Hp & _).
  - repeat split.
  - exact Hp.
Defined.

Lemma delivered_after_failures_witness :
  posts (example_run recovers_at_third) = 3%nat
  /\ map (fun t => timeout (fst t))
         (fired 3 recovers_at_third
            (_queueWebhookDelivery recovers_at_third example_webhook
               "message_sent" empty_object (constructor None None)))
     = [2000; 4000].
Proof.
  destruct (delivered_after_failures recovers_at_third example_webhook
              "0f1e2d3c4b5a69788796a5b4c3d2e1f0" "message_sent" empty_object
              (constructor None None) 2)
    as (_ & Hp & _ & _ & Hd & _).
  - repeat split.
  - reflexivity.
  - simpl. lia.
  - intros i q Hi. destruct i as [|[|i]]; [| | lia]; simpl; split; discriminate.
  - intros q. simpl. now left.
  - split; [exact Hp | apply Hd; lia].
Defined.

Lemma failed_delivery_rows_witness :
  exists rows,
    webhook_logs (example_run always_503) = rows /\ length rows = 5%nat.
Proof.
  destruct (failed_delivery_rows always_503 example_webhook
              "0f1e2d3c4b5a69788796a5b4c3d2e1f0" "message_sent" empty_object
              (constructor None None))
    as (rows & Hr & Hlen & _).
  - repeat split.
  - reflexivity.
  - simpl. lia.
  - intros n q. simpl. split; discriminate.
  - exists rows. split; [exact Hr | exact Hlen].
Defined.

Lemma test_passes_but_delivery_fails_witness :
  fst (testWebhook always_201 example_table 7 empty_object (constructor None None))
  = Return success.
Proof.
  destruct (test_passes_but_delivery_fails always_201 example_table 7
              (inserted example_webhook) "0f1e2d3c4b5a69788796a5b4c3d2e1f0"
              "message_sent" empty_object empty_object 1 (constructor None None) 6)
    as (Htest & _).
  - reflexivity.
  - reflexivity.
  - intros n q. simpl. repeat split; try lia; discriminate.
  - repeat split.
  - simpl. lia.
  - exact Htest.
Defined.

Lemma updateWebhook_bypasses_validation_witness :
  exists w,
    w ∈ getWebhooks (updateWebhook 7 (mkUpdates None (Some ["message.sent"]) None None)
                                    example_table) 1
    /\ listens w "message.sent" = true.
Proof.
  destruct (updateWebhook_bypasses_validation example_table
              (inserted example_webhook) ["message.sent"] "message.sent")
    as (w & Hw & _ & _ & _ & Hl).
  - apply list_elem_of_here.
  - reflexivity.
  - apply list_elem_of_here.
  - exists w. split; [exact Hw | exact Hl].
Defined.

End WebhookTableFacts.

(** ** The rate limiter over sequences of calls *)

Module AntiBanInvariants.
Import AntiBan AntiBanFacts.
Local Open Scope Q_scope.

(** A property of limiters that holds of a fresh limiter and that every
    update of a limiter keeps, holds of every limiter of a reachable
    manager. *)
Lemma reachable_limiters (P : string -> limiter -> Prop) :
  (forall now c,
     P c (mkLimiter c (mkLimits (mkWindow 20 0 now) (mkWindow 100 0 now)
                                (mkWindow 1000 0 now)) 0 0.8)) ->
  (forall now c l, P c l -> P c (refresh_windows now l)) ->
  (forall c l, P c l ->
     P c (mkLimiter (clientId l)
            (mkLimits (increment (perMinute (limits l)))
                      (increment (perHour (limits l)))
                      (increment (perDay (limits l))))
            (suspiciousActivityCount l) (adaptiveThreshold l))) ->
  (forall c l, P c l ->
     P c (mkLimiter (clientId l) (limits l) (suspiciousActivityCount l + 1)%Z
                    (adaptiveThreshold l))) ->
  (forall c l, P c l ->
     P c (mkLimiter (clientId l)
            (mkLimits (mkWindow (Math_max 5 (max (perMinute (limits l)) / 2))
                                (current (perMinute (limits l)))
                                (window (perMinute (limits l))))
                      (perHour (limits l)) (perDay (limits l)))
            (suspiciousActivityCount l) (adaptiveThreshold l))) ->
  forall m, reachable m -> forall c l, rateLimits m !! c = Some l -> P c l.
Proof.
  intros Hfresh Hrefresh Hcount Hsuspect Hhalve.
  assert (Htrigger : forall c m,
            (forall c' l', rateLimits m !! c' = Some l' -> P c' l') ->
            forall c' l', rateLimits (triggerProtectiveMeasures c m) !! c' = Some l' ->
                          P c' l').
  { intros c m IH c' l'. unfold triggerProtectiveMeasures.
    destruct (rateLimits m !! c) as [l|] eqn:Hl; simpl; [| apply IH].
    destruct (decide (c = c')) as [->|Hne].
    - rewrite lookup_insert_eq. intros [= <-]. now apply Hhalve, IH.
    - rewrite lookup_insert_ne by assumption. apply IH. }
  induction 1 as [|now c org m _ IH|now c m _ IH|c m _ IH|c a m _ IH|c m _ IH];
    intros c' l'.
  - simpl. now rewrite lookup_empty.
  - simpl. destruct (decide (c = c')) as [->|Hne].
    + rewrite lookup_insert_eq. intros [= <-]. apply Hfresh.
    + rewrite lookup_insert_ne by assumption. apply IH.
  - destruct (rateLimits m !! c) as [l|] eqn:Hl.
    + rewrite (canSendMessage_stores _ _ _ _ Hl). simpl.
      destruct (decide (c = c')) as [->|Hne].
      * rewrite lookup_insert_eq. intros [= <-]. now apply Hrefresh, IH.
      * rewrite lookup_insert_ne by assumption. apply IH.
    + unfold canSendMessage. rewrite Hl. apply IH.
  - unfold recordMessageSend.
    destruct (rateLimits m !! c) as [l|] eqn:Hl; [| apply IH]. simpl.
    destruct (decide (c = c')) as [->|Hne].
    + rewrite lookup_insert_eq. intros [= <-]. now apply Hcount, IH.
    + rewrite lookup_insert_ne by assumption. apply IH.
  - unfold detectSuspiciousActivity.
    destruct (rateLimits m !! c) as [l|] eqn:Hl; [| apply IH].
    destruct (existsb _ _); [| apply IH].
    assert (Hcounted : forall c'' l'',
              rateLimits
                (mkManager
                   (<[c := mkLimiter (clientId l) (limits l)
                             (suspiciousActivityCount l + 1)%Z
                             (adaptiveThreshold l)]> (rateLimits m))
                   (ban_alerts m ++ [mkAlert c "suspicious_activity" (Some a)]))
                !! c'' = Some l'' -> P c'' l'').
    { intros c'' l''. simpl. destruct (decide (c = c'')) as [->|Hne].
      - rewrite lookup_insert_eq. intros [= <-]. now apply Hsuspect, IH.
      - rewrite lookup_insert_ne by assumption. apply IH. }
    cbn [suspiciousActivityCount]. destruct (3 <? _)%Z; cbn [snd].
    + exact (Htrigger c _ Hcounted c' l').
    + exact (Hcounted c' l').
  - now apply Htrigger.
Qed.

(** X17.  Every limiter of a manager that the methods can produce is
    stored under its own client id, has the threshold 0.8 it was created
    with, a per-minute ceiling of 20, 10 or 5, a per-hour ceiling of 100
    and a per-day ceiling of 1000, and counts that are not negative. *)
Theorem reachable_limiter_invariant (m : manager) (c : string) (l : limiter) :
  reachable m ->
  rateLimits m !! c = Some l ->
  clientId l = c
  /\ adaptiveThreshold l = 0.8
  /\ (max (perMinute (limits l)) == 20 \/ max (perMinute (limits l)) == 10
      \/ max (perMinute (limits l)) == 5)
  /\ max (perHour (limits l)) == 100
  /\ max (perDay (limits l)) == 1000
  /\ Forall (fun w => (0 <= current w)%Z) (windows l)
  /\ (0 <= suspiciousActivityCount l)%Z.
Proof.
  intros Hreach. revert c l.
  apply (reachable_limiters
           (fun c l =>
              clientId l = c
              /\ adaptiveThreshold l = 0.8
              /\ (max (perMinute (limits l)) == 20 \/ max (perMinute (limits l)) == 10
                  \/ max (perMinute (limits l)) == 5)
              /\ max (perHour (limits l)) == 100
              /\ max (perDay (limits l)) == 1000
              /\ Forall (fun w => (0 <= current w)%Z) (windows l)
              /\ (0 <= suspiciousActivityCount l)%Z));
    [| | | | | exact Hreach].
  - intros now c. repeat split; try reflexivity; [now left |].
    repeat constructor; simpl; lia.
  - intros now c l (Hid & Hthr & Hmin & Hhour & Hday & Hcur & Hsus).
    unfold refresh_windows, windows in *. simpl.
    rewrite !max_restart_if_over.
    repeat split; try assumption.
    apply Forall_cons in Hcur as [C1 Hcur].
    apply Forall_cons in Hcur as [C2 Hcur].
    apply Forall_cons in Hcur as [C3 _].
    unfold restart_if_over.
    repeat constructor; destruct (_ <? _)%Z; simpl; lia.
  - intros c l (Hid & Hthr & Hmin & Hhour & Hday & Hcur & Hsus).
    unfold windows in *. simpl. repeat split; try assumption.
    apply Forall_cons in Hcur as [C1 Hcur].
    apply Forall_cons in Hcur as [C2 Hcur].
    apply Forall_cons in Hcur as [C3 _].
    repeat constructor; simpl; lia.
  - intros c l (Hid & Hthr & Hmin & Hhour & Hday & Hcur & Hsus).
    simpl. repeat split; try assumption. lia.
  - intros c l (Hid & Hthr & Hmin & Hhour & Hday & Hcur & Hsus).
    destruct (whole_ceilings_halved l) as (Hmin' & _); [now repeat split |].
    unfold windows in *. simpl in *. repeat split; try assumption.
    apply Forall_cons in Hcur as [C1 Hcur].
    constructor; assumption.
Qed.

(** X18.  A per-minute window that is full stays closed up to and
    including the 60000th millisecond after its start and opens after it:
    the check answers [Per-minute limit exceeded] exactly when at most
    60000 ms have passed since the window started. *)
Theorem minute_window_reopens_after_60000_ms (now : Z) (c : string)
    (m : manager) (l : limiter) :
  rateLimits m !! c = Some l ->
  0 < max (perMinute (limits l)) ->
  max (perMinute (limits l)) <= inject_Z (current (perMinute (limits l))) ->
  reason (fst (canSendMessage now c m)) = Some "Per-minute limit exceeded"%string
  <-> (now - window (perMinute (limits l)) <= 60000)%Z.
Proof.
  intros Hl Hpos Hfull. unfold canSendMessage. rewrite Hl.
  unfold refresh_windows. cbn [limits perMinute perHour perDay adaptiveThreshold].
  unfold restart_if_over at 1 2 3.
  destruct (Z.ltb_spec 60000 (now - window (perMinute (limits l)))) as [Hover|Hin].
  - cbn [max current].
    assert (Hopen : geq (inject_Z 0) (max (perMinute (limits l))) = false)
      by now apply geq_false.
    rewrite Hopen.
    split; [| lia].
    repeat (let Hg := fresh "Hg" in
            case_geq Hg; [simpl; intros Hreason; discriminate Hreason |]).
    simpl. intros Hreason. discriminate Hreason.
  - apply geq_true in Hfull. rewrite Hfull. simpl. split; [lia | reflexivity].
Qed.

Lemma refresh_windows_idempotent (now : Z) (l : limiter) :
  refresh_windows now (refresh_windows now l) = refresh_windows now l.
Proof.
  assert (Hw : forall duration w, (0 <= duration)%Z ->
            restart_if_over duration now (restart_if_over duration now w)
            = restart_if_over duration now w).
  { intros duration w Hd. unfold restart_if_over.
    destruct (Z.ltb_spec duration (now - window w)) as [Hover|Hin]; simpl.
    - destruct (Z.ltb_spec duration (now - now)); [lia | reflexivity].
    - destruct (Z.ltb_spec duration (now - window w)); [lia | reflexivity]. }
  unfold refresh_windows. simpl. now rewrite !Hw by lia.
Qed.

Lemma canSendMessage_answer (now : Z) (c : string) (m m' : manager)
    (l l' : limiter) :
  rateLimits m !! c = Some l ->
  rateLimits m' !! c = Some l' ->
  refresh_windows now l = refresh_windows now l' ->
  fst (canSendMessage now c m) = fst (canSendMessage now c m').
Proof.
  intros Hl Hl' Heq. unfold canSendMessage. rewrite Hl, Hl'. cbv zeta.
  rewrite Heq.
  repeat (destruct (geq _ _); [reflexivity |]). reflexivity.
Qed.

(** X19.  Asking reserves nothing: a second [canSendMessage] at the same
    time gives the same answer and leaves the manager as the first left
    it, so any number of checks made before the first
    [recordMessageSend] are all answered alike. *)
Theorem canSendMessage_reserves_nothing (now : Z) (c : string) (m : manager) :
  canSendMessage now c (snd (canSendMessage now c m)) = canSendMessage now c m.
Proof.
  destruct (rateLimits m !! c) as [l|] eqn:Hl.
  - assert (Hl' : rateLimits (snd (canSendMessage now c m)) !! c
                  = Some (refresh_windows now l)).
    { rewrite (canSendMessage_stores _ _ _ _ Hl). simpl. apply lookup_insert_eq. }
    apply injective_projections.
    + apply (canSendMessage_answer _ _ _ _ _ _ Hl' Hl), refresh_windows_idempotent.
    + rewrite (canSendMessage_stores _ _ _ _ Hl'), refresh_windows_idempotent.
      rewrite !(canSendMessage_stores _ _ _ _ Hl). simpl.
      now rewrite insert_insert_eq.
  - unfold canSendMessage. rewrite Hl. simpl. now rewrite Hl.
Qed.

(** X20.  [recordMessageSend] counts whatever the ceilings are: [n] calls
    add [n] to the count of each window of the client and change neither
    the ceilings nor the starts of the windows. *)
Theorem recordMessageSend_counts_unconditionally (n : nat) (c : string)
    (m : manager) (l : limiter) :
  rateLimits m !! c = Some l ->
  exists l',
    rateLimits (Nat.iter n (recordMessageSend c) m) !! c = Some l'
    /\ map current (windows l') = map (fun w => (current w + Z.of_nat n)%Z) (windows l)
    /\ map max (windows l') = map max (windows l)
    /\ map window (windows l') = map window (windows l).
Proof.
  intros Hl. induction n as [|n (l' & Hl' & Hcur & Hmax & Hwin)].
  - exists l. split; [exact Hl |]. unfold windows. simpl.
    rewrite !Z.add_0_r. now repeat split.
  - rewrite Nat.iter_succ. unfold recordMessageSend at 1. rewrite Hl'. simpl.
    rewrite lookup_insert_eq. eexists. split; [reflexivity |].
    unfold windows in *. simpl in *.
    injection Hcur as -> -> ->. injection Hmax as -> -> ->.
    injection Hwin as -> -> ->.
    split; [| now split].
    replace (Z.of_nat (S n)) with (Z.of_nat n + 1)%Z by lia.
    now rewrite !Z.add_assoc.
Qed.

Lemma perform_keeps_unknown (c : string) (k : call) (m : manager) :
  initializes k <> Some c ->
  rateLimits m !! c = None ->
  rateLimits (perform m k) !! c = None.
Proof.
  assert (Htrigger : forall c' m', rateLimits m' !! c = None ->
            rateLimits (triggerProtectiveMeasures c' m') !! c = None).
  { intros c' m' Hnone. unfold triggerProtectiveMeasures.
    destruct (rateLimits m' !! c') as [l|] eqn:Hl; simpl; [| exact Hnone].
    rewrite lookup_insert_ne; [exact Hnone | congruence]. }
  intros Hk Hnone. destruct k as [now c' org|now c'|c'|c' a|c']; simpl in *.
  - rewrite lookup_insert_ne; [exact Hnone | congruence].
  - destruct (rateLimits m !! c') as [l|] eqn:Hl.
    + rewrite (canSendMessage_stores _ _ _ _ Hl). simpl.
      rewrite lookup_insert_ne; [exact Hnone | congruence].
    + unfold canSendMessage. now rewrite Hl.
  - unfold recordMessageSend.
    destruct (rateLimits m !! c') as [l|] eqn:Hl; simpl; [| exact Hnone].
    rewrite lookup_insert_ne; [exact Hnone | congruence].
  - unfold detectSuspiciousActivity.
    destruct (rateLimits m !! c') as [l|] eqn:Hl; [| exact Hnone].
    destruct (existsb _ _); [| exact Hnone].
    cbn [suspiciousActivityCount]. destruct (3 <? _)%Z; cbn [snd].
    + apply Htrigger. simpl. rewrite lookup_insert_ne; [exact Hnone | congruence].
    + simpl. rewrite lookup_insert_ne; [exact Hnone | congruence].
  - now apply Htrigger.
Qed.

(** X21.  The limiter fails open.  A client for which
    [initializeRateLimiter] was never called has no limiter, whatever else
    was called and however many messages were recorded for it:
    [canSendMessage] answers [allowed: true] with the reason
    [No limiter], and the activity of the client is never found
    suspicious. *)
Theorem uninitialised_client_is_never_limited (calls : list call) (c : string)
    (now : Z) (a : activity) :
  Forall (fun k => initializes k <> Some c) calls ->
  let m := fold_left perform calls constructor in
  canSendMessage now c m = (mkAdmission true (Some "No limiter"%string) None None, m)
  /\ recordMessageSend c m = m
  /\ detectSuspiciousActivity c a m = (false, m).
Proof.
  intros Hcalls m.
  assert (Hnone : rateLimits m !! c = None).
  { subst m.
    assert (Hempty : rateLimits constructor !! c = None) by apply lookup_empty.
    revert Hempty Hcalls. generalize constructor.
    induction calls as [|k calls IH]; intros m0 Hm0 Hcalls; simpl; [exact Hm0 |].
    apply Forall_cons in Hcalls as [Hk Hcalls].
    apply IH; [now apply perform_keeps_unknown | exact Hcalls]. }
  unfold canSendMessage, recordMessageSend, detectSuspiciousActivity.
  now rewrite Hnone.
Qed.

Lemma gt_true (a b : Q) : gt a b = true <-> b < a.
Proof.
  unfold gt. rewrite negb_true_iff. apply (geq_false b a).
Qed.

(** X22.  For a client with a limiter, [detectSuspiciousActivity]
    returns [true] exactly when the activity has more than 10 messages in
    sequence, a failure rate above 0.3, more than 3 IP changes in the
    hour, a jump of more than 1000 or unusual content.  When it returns
    [false] it changes nothing; when it returns [true] it writes one
    [suspicious_activity] alert, followed by one
    [protective_measures_activated] alert exactly when the new count of
    the client is above 3. *)
Theorem detectSuspiciousActivity_alerts (c : string) (a : activity)
    (m : manager) (l : limiter) :
  rateLimits m !! c = Some l ->
  let result := detectSuspiciousActivity c a m in
  (fst result = true
   <-> (10 < messagesSentInSequence a)%Z \/ 0.3 < failureRate a
       \/ (3 < ipChangesInHour a)%Z \/ 1000 < geoLocationJump a
       \/ unusualMessageContent a = true)
  /\ (fst result = false -> snd result = m)
  /\ (fst result = true ->
      ban_alerts (snd result)
      = ban_alerts m
        ++ mkAlert c "suspicious_activity" (Some a)
           :: (if (3 <? suspiciousActivityCount l + 1)%Z
               then [mkAlert c "protective_measures_activated" None]
               else [])).
Proof.
  intros Hl result. subst result. unfold detectSuspiciousActivity. rewrite Hl.
  assert (Hiff : existsb (fun p : bool => p)
                   [(10 <? messagesSentInSequence a)%Z; gt (failureRate a) 0.3;
                    (3 <? ipChangesInHour a)%Z; gt (geoLocationJump a) 1000;
                    unusualMessageContent a] = true
                 <-> (10 < messagesSentInSequence a)%Z \/ 0.3 < failureRate a
                     \/ (3 < ipChangesInHour a)%Z \/ 1000 < geoLocationJump a
                     \/ unusualMessageContent a = true).
  { simpl. rewrite !orb_true_iff, !Z.ltb_lt, !gt_true. intuition discriminate. }
  destruct (existsb _ _) eqn:Hs.
  - cbn [suspiciousActivityCount].
    destruct (3 <? suspiciousActivityCount l + 1)%Z; cbn [fst snd].
    + split; [exact Hiff |]. split; [discriminate |]. intros _.
      unfold triggerProtectiveMeasures. simpl. rewrite lookup_insert_eq. simpl.
      now rewrite <- app_assoc.
    + split; [exact Hiff |]. split; [discriminate |]. reflexivity.
  - cbn [fst snd]. split; [exact Hiff |]. split; [reflexivity | discriminate].
Qed.

(** X23.  With draws of [Math.random()] in [0, 1),
    [simulateHumanBehavior] always returns [true]; it waits once, for at
    least 60 and at most 100 ms for ['type'], 100 to 300 ms for ['mouse'],
    200 to 500 ms for ['scroll'], both ends included, and for any action
    other than these three and ['message'] it does not wait at all. *)
Theorem simulateHumanBehavior_delays (random : nat -> Q) (c action : string) :
  (forall n, 0 <= random n /\ random n < 1) ->
  fst (simulateHumanBehavior random c action) = true
  /\ (action = "type"%string ->
      exists d, snd (simulateHumanBehavior random c action) = [d]
                /\ 60 <= d /\ d <= 100)
  /\ (action = "mouse"%string ->
      exists d, snd (simulateHumanBehavior random c action) = [d]
                /\ 100 <= d /\ d <= 300)
  /\ (action = "scroll"%string ->
      exists d, snd (simulateHumanBehavior random c action) = [d]
                /\ 200 <= d /\ d <= 500)
  /\ (action ∉ ["type"; "mouse"; "scroll"; "message"]%string ->
      snd (simulateHumanBehavior random c action) = []).
Proof.
  intros Hrandom. split; [reflexivity |].
  destruct (Hrandom O) as [H0 H1].
  split; [| split; [| split]].
  - intros ->. eexists. split; [reflexivity |].
    apply randomDelay_range; try assumption; vm_compute; congruence.
  - intros ->. eexists. split; [reflexivity |].
    apply randomDelay_range; try assumption; vm_compute; congruence.
  - intros ->. eexists. split; [reflexivity |].
    apply randomDelay_range; try assumption; vm_compute; congruence.
  - intros Hother. rewrite !not_elem_of_cons in Hother.
    destruct Hother as (Ht & Hm & Hs & Hg & _).
    unfold simulateHumanBehavior.
    now rewrite !bool_decide_eq_false_2 by assumption.
Qed.

(** *** The properties on the sample clients *)

Lemma reachable_limiter_invariant_witness :
  exists l,
    rateLimits example_full_minute !! "c1"%string = Some l
    /\ adaptiveThreshold l = 0.8
    /\ max (perHour (limits l)) == 100.
Proof.
  assert (Hl : exists l, rateLimits example_full_minute !! "c1"%string = Some l)
    by (eexists; vm_compute; reflexivity).
  destruct Hl as [l Hl].
  destruct (reachable_limiter_invariant example_full_minute "c1" l)
    as (_ & Hthr & _ & Hhour & _).
  - do 20 apply reachable_recordMessageSend.
    apply reachable_initializeRateLimiter, reachable_constructor.
  - exact Hl.
  - exists l. split; [exact Hl |]. split; [exact Hthr | exact Hhour].
Defined.

Lemma minute_window_reopens_after_60000_ms_witness :
  reason (fst (canSendMessage 60000 "c1" example_full_minute))
  = Some "Per-minute limit exceeded"%string.
Proof.
  assert (Hl : rateLimits example_full_minute !! "c1"%string
               = Some (mkLimiter "c1"
                         (mkLimits (mkWindow 20 20 0) (mkWindow 100 20 0)
                                   (mkWindow 1000 20 0)) 0 0.8))
    by (vm_compute; reflexivity).
  apply (minute_window_reopens_after_60000_ms 60000 "c1" example_full_minute _ Hl).
  - vm_compute. reflexivity.
  - vm_compute. discriminate.
  - simpl. lia.
Defined.

Lemma recordMessageSend_counts_unconditionally_witness :
  exists l',
    rateLimits (Nat.iter 25 (recordMessageSend "c1")
                  (snd (initializeRateLimiter 0 "c1" 1 constructor))) !! "c1"%string
    = Some l'
    /\ map current (windows l') = [25; 25; 25]%Z.
Proof.
  destruct (recordMessageSend_counts_unconditionally 25 "c1"
              (snd (initializeRateLimiter 0 "c1" 1 constructor))
              (mkLimiter "c1"
                 (mkLimits (mkWindow 20 0 0) (mkWindow 100 0 0) (mkWindow 1000 0 0))
                 0 0.8))
    as (l' & Hl' & Hcur & _).
  - vm_compute. reflexivity.
  - exists l'. split; [exact Hl' | exact Hcur].
Defined.

Lemma uninitialised_client_is_never_limited_witness :
  fst (canSendMessage 0 "c2"
         (fold_left perform
            [InitializeRateLimiter 0 "c1" 1; RecordMessageSend "c2";
             RecordMessageSend "c2"; TriggerProtectiveMeasures "c2"]
            constructor))
  = mkAdmission true (Some "No limiter"%string) None None.
Proof.
  destruct (uninitialised_client_is_never_limited
              [InitializeRateLimiter 0 "c1" 1; RecordMessageSend "c2";
               RecordMessageSend "c2"; TriggerProtectiveMeasures "c2"]
              "c2" 0%Z example_burst)
    as (Hcan & _).
  - repeat constructor; simpl; congruence.
  - now rewrite Hcan.
Defined.

Lemma detectSuspiciousActivity_alerts_witness :
  fst (detectSuspiciousActivity "c1" example_burst (example_suspected 3)) = true.
Proof.
  assert (Hl : exists l, rateLimits (example_suspected 3) !! "c1"%string = Some l)
    by (eexists; vm_compute; reflexivity).
  destruct Hl as [l Hl].
  destruct (detectSuspiciousActivity_alerts "c1" example_burst
              (example_suspected 3) l Hl)
    as ([_ Hsuspicious] & _).
  apply Hsuspicious. left. simpl. lia.
Defined.

Lemma simulateHumanBehavior_delays_witness :
  exists d,
    snd (simulateHumanBehavior example_draws_high "c1" "type") = [d]
    /\ 60 <= d /\ d <= 100.
Proof.
  destruct (simulateHumanBehavior_delays example_draws_high "c1" "type")
    as (_ & Htype & _).
  - intros n. split; vm_compute; [discriminate | reflexivity].
  - now apply Htype.
Defined.

End AntiBanInvariants.

(** ** The proxy pool *)

Module ProxyPoolFacts.
Import ProxyPool.

(** [before] is a strict weak order. *)
Ltac order_cases :=
  unfold before;
  repeat match goal with
         | |- context [last_used ?r] => destruct (last_used r)
         end;
  repeat match goal with
         | |- context [(?a <? ?b)] => destruct (Z.ltb_spec a b)
         | |- context [(?a =? ?b)] => destruct (Z.eqb_spec a b)
         end;
  simpl; intros; try reflexivity; try discriminate; try lia.

Lemma before_irreflexive (r : proxy_row) : before r r = false.
Proof. order_cases. Qed.

Lemma before_transitive (a b c : proxy_row) :
  before a b = true -> before b c = true -> before a c = true.
Proof. order_cases. Qed.

Lemma before_negatively_transitive (a b c : proxy_row) :
  before a b = false -> before b c = false -> before a c = false.
Proof. order_cases. Qed.

Lemma before_asymmetric (a b : proxy_row) :
  before a b = true -> before b a = false.
Proof. order_cases. Qed.

Lemma first_row_from (rows : list proxy_row) : forall b,
  exists r,
    fold_left (fun best r =>
                 match best with
                 | None => Some r
                 | Some b => if before r b then Some r else Some b
                 end) rows (Some b) = Some r
    /\ (r = b \/ In r rows)
    /\ before b r = false
    /\ Forall (fun q => before q r = false) rows.
Proof.
  induction rows as [|x rows IH]; intros b; simpl.
  - exists b. split; [reflexivity |]. split; [now left |].
    split; [apply before_irreflexive | constructor].
  - destruct (before x b) eqn:Hxb.
    + destruct (IH x) as (r & Hr & Hin & Hxr & Hall).
      exists r. split; [exact Hr |].
      split; [right; destruct Hin as [->|Hin]; [now left | now right] |].
      assert (Hbr : before b r = false).
      { destruct (before b r) eqn:Hbr; [| reflexivity].
        rewrite (before_transitive _ _ _ Hxb Hbr) in Hxr. discriminate. }
      split; [exact Hbr |]. constructor; assumption.
    + destruct (IH b) as (r & Hr & Hin & Hbr & Hall).
      exists r. split; [exact Hr |].
      split; [destruct Hin as [->|Hin]; [now left | right; now right] |].
      split; [exact Hbr |]. constructor; [| exact Hall].
      now apply before_negatively_transitive with b.
Qed.

(** What [LIMIT 1] returns: nothing for no rows, and otherwise a row that
    no row sorts before. *)
Lemma first_row_spec (rows : list proxy_row) :
  match first_row rows with
  | None => rows = []
  | Some r => In r rows /\ Forall (fun q => before q r = false) rows
  end.
Proof.
  unfold first_row. destruct rows as [|x rows]; simpl; [reflexivity |].
  destruct (first_row_from rows x) as (r & -> & Hin & Hxr & Hall).
  split; [destruct Hin as [->|Hin]; [now left | now right] | now constructor].
Qed.

Lemma candidate_mark_used (now id organizationId : Z) (table : list proxy_row) :
  List.filter (candidate organizationId) (mark_used now id table)
  = mark_used now id (List.filter (candidate organizationId) table).
Proof.
  unfold mark_used. induction table as [|r table IH]; simpl; [reflexivity |].
  assert (Hc : candidate organizationId
                 (if bool_decide (p_id r = id)
                  then mkProxy (p_id r) (p_organization_id r) (ip_address r)
                               (password_encrypted r) (p_status r) (Some now)
                               (failure_count r)
                  else r)
               = candidate organizationId r)
    by now destruct (bool_decide _).
  rewrite Hc. destruct (candidate organizationId r); simpl; now rewrite IH.
Qed.

Lemma mark_used_again (now now' id : Z) (table : list proxy_row) :
  mark_used now' id (mark_used now id table) = mark_used now' id table.
Proof.
  unfold mark_used. rewrite map_map. apply map_ext. intros r.
  destruct (bool_decide (p_id r = id)) eqn:Hid; simpl; now rewrite Hid.
Qed.

Lemma same_id_same_row (rows : list proxy_row) (a b : proxy_row) :
  NoDup (map p_id rows) -> In a rows -> In b rows -> p_id a = p_id b -> a = b.
Proof.
  induction rows as [|x rows IH]; simpl; [tauto |].
  intros Hnd. inversion Hnd as [|? ? Hx Hnd']; subst.
  intros [->|Ha] [->|Hb] Hid; try reflexivity.
  - exfalso. apply Hx. rewrite Hid. apply list_elem_of_In, in_map, Hb.
  - exfalso. apply Hx. rewrite <- Hid. apply list_elem_of_In, in_map, Ha.
  - now apply IH.
Qed.

Lemma NoDup_filter_ids (f : proxy_row -> bool) (rows : list proxy_row) :
  NoDup (map p_id rows) -> NoDup (map p_id (List.filter f rows)).
Proof.
  induction rows as [|x rows IH]; simpl; [constructor |].
  intros Hnd. inversion Hnd as [|? ? Hx Hnd']; subst.
  destruct (f x); simpl; [| now apply IH].
  constructor; [| now apply IH].
  intros Hin. apply Hx. apply list_elem_of_In in Hin.
  apply in_map_iff in Hin as (y & Hy & Hin). apply filter_In in Hin as [Hin _].
  rewrite <- Hy. apply list_elem_of_In, in_map, Hin.
Qed.

(** In a table where the proxy [r] is the only candidate that has been
    used, the query selects [r]. *)
Lemma first_row_of_marked (now : Z) (rows : list proxy_row) (r : proxy_row) :
  NoDup (map p_id rows) ->
  Forall (fun q => last_used q = None) rows ->
  In r rows ->
  first_row (mark_used now (p_id r) rows)
  = Some (mkProxy (p_id r) (p_organization_id r) (ip_address r)
                  (password_encrypted r) (p_status r) (Some now)
                  (failure_count r)).
Proof.
  intros Hnd Hnull Hin.
  set (r' := mkProxy (p_id r) (p_organization_id r) (ip_address r)
                     (password_encrypted r) (p_status r) (Some now)
                     (failure_count r)).
  assert (Hr' : In r' (mark_used now (p_id r) rows)).
  { unfold mark_used. apply in_map_iff. exists r.
    now rewrite bool_decide_eq_true_2. }
  pose proof (first_row_spec (mark_used now (p_id r) rows)) as Hspec.
  destruct (first_row _) as [x|]; [| rewrite Hspec in Hr'; contradiction].
  destruct Hspec as [Hx Hmin]. f_equal.
  unfold mark_used in Hx. apply in_map_iff in Hx as (q & Hq & Hqin).
  destruct (decide (p_id q = p_id r)) as [Hid|Hid].
  - rewrite (bool_decide_eq_true_2 _ Hid) in Hq.
    rewrite (same_id_same_row rows q r Hnd Hqin Hin Hid) in Hq. now subst x.
  - rewrite (bool_decide_eq_false_2 _ Hid) in Hq. subst x.
    rewrite Forall_forall in Hmin, Hnull. specialize (Hmin r').
    assert (Hlast : last_used q = None).
    { apply Hnull, list_elem_of_In, Hqin. }
    assert (Hbefore : before r' q = true) by (unfold before; now rewrite Hlast).
    rewrite Hmin in Hbefore; [discriminate |].
    now apply list_elem_of_In.
Qed.

Section Decrypt.
Variable decryptSensitive : string -> completion string.

(** X24.  The proxy that [getAvailableProxy] returns is an active proxy
    of the organization and no active proxy of the organization sorts
    before it.  As [NULL] sorts last, a proxy that was never used is
    returned only when no active proxy of the organization has been used:
    the proxies already in use are recycled before a fresh one is
    touched. *)
Theorem getAvailableProxy_prefers_used_proxies (now organizationId : Z)
    (table table' : list proxy_row) (p : proxy_object) :
  getAvailableProxy decryptSensitive now organizationId table = (Some p, table') ->
  row p ∈ table
  /\ p_organization_id (row p) = organizationId
  /\ p_status (row p) = "active"
  /\ Forall (fun q => candidate organizationId q = true -> before q (row p) = false)
            table
  /\ (last_used (row p) = None ->
      Forall (fun q => candidate organizationId q = true -> last_used q = None) table).
Proof.
  unfold getAvailableProxy.
  pose proof (first_row_spec (List.filter (candidate organizationId) table)) as Hspec.
  destruct (first_row _) as [r|]; [| discriminate].
  destruct Hspec as [Hin Hmin]. intros [= Hp <-].
  assert (Hrow : row p = r).
  { unfold with_password in Hp.
    destruct (password_encrypted r) as [text|]; [| now injection Hp as <-].
    destruct (bool_decide _); [now injection Hp as <- |].
    destruct (decryptSensitive text); [now injection Hp as <- | discriminate]. }
  rewrite Hrow. apply filter_In in Hin as [Hin Hc].
  pose proof Hc as Hc'. unfold candidate in Hc'.
  apply andb_true_iff in Hc' as [Horg Hact].
  apply bool_decide_eq_true_1 in Horg, Hact.
  assert (Hbefore : Forall (fun q => candidate organizationId q = true ->
                                     before q r = false) table).
  { apply Forall_forall. intros q Hq Hcq. rewrite Forall_forall in Hmin.
    apply Hmin, list_elem_of_In, filter_In. split; [now apply list_elem_of_In | exact Hcq]. }
  split; [now apply list_elem_of_In |]. split; [exact Horg |]. split; [exact Hact |].
  split; [exact Hbefore |].
  intros Hnull. eapply Forall_impl; [exact Hbefore |].
  intros q Hq Hcq. specialize (Hq Hcq). unfold before in Hq. rewrite Hnull in Hq.
  destruct (last_used q); [discriminate | reflexivity].
Qed.

Lemma getAvailableProxy_unused_pool (now organizationId : Z)
    (table : list proxy_row) (r : proxy_row) :
  NoDup (map p_id table) ->
  Forall (fun q => candidate organizationId q = true -> last_used q = None) table ->
  In r table -> candidate organizationId r = true ->
  forall used,
    getAvailableProxy decryptSensitive now organizationId (mark_used used (p_id r) table)
    = (with_password decryptSensitive
                     (mkProxy (p_id r) (p_organization_id r) (ip_address r)
                              (password_encrypted r) (p_status r) (Some used)
                              (failure_count r)),
       mark_used now (p_id r) table).
Proof.
  intros Hnd Hnull Hin Hc used. unfold getAvailableProxy.
  rewrite candidate_mark_used, (first_row_of_marked used _ r).
  - simpl. now rewrite mark_used_again.
  - now apply NoDup_filter_ids.
  - apply Forall_forall. intros q Hq. apply list_elem_of_In, filter_In in Hq as [Hq Hcq].
    rewrite Forall_forall in Hnull. apply Hnull; [now apply list_elem_of_In | exact Hcq].
  - apply filter_In. now split.
Qed.

(** X25.  In a pool whose active proxies have never been used, the
    rotation does not rotate: every [rotateProxy] of the organization,
    for whatever client and at whatever time, gets the proxy that the
    first call got, with the same password; and when the first call
    returned [null] they all return [null]. *)
Theorem unused_pool_never_rotates (organizationId : Z) (table : list proxy_row)
    (calls : list (string * Z * Z)) (st : gmap string rotation) :
  NoDup (map p_id table) ->
  Forall (fun q => candidate organizationId q = true -> last_used q = None) table ->
  let summary := option_map (fun p => (p_id (row p), ip_address (row p), password p)) in
  match fst (rotations decryptSensitive calls organizationId (st, table)) with
  | [] => True
  | first :: later => Forall (fun result => summary result = summary first) later
  end.
Proof.
  intros Hnd Hnull summary.
  destruct calls as [|[[c db_now] now] calls]; simpl; [exact I |].
  unfold rotateProxy at 1. unfold getAvailableProxy at 1. cbn [snd fst].
  pose proof (first_row_spec (List.filter (candidate organizationId) table)) as Hspec.
  destruct (first_row _) as [r|] eqn:Hfirst.
  - destruct Hspec as [Hin _]. apply filter_In in Hin as [Hin Hc].
    assert (Hlater : forall calls used st',
              Forall (fun result => summary result = summary (with_password decryptSensitive r))
                     (fst (rotations decryptSensitive calls organizationId
                             (st', mark_used used (p_id r) table)))).
    { clear - Hnd Hnull Hin Hc. intros calls.
      induction calls as [|[[c db_now] now] calls IH]; intros used st'; simpl;
        [constructor |].
      unfold rotateProxy at 1. cbn [snd fst].
      rewrite (getAvailableProxy_unused_pool _ _ _ r Hnd Hnull Hin Hc).
      assert (Hsame : summary (with_password decryptSensitive
                         (mkProxy (p_id r) (p_organization_id r) (ip_address r)
                                  (password_encrypted r) (p_status r) (Some used)
                                  (failure_count r)))
                      = summary (with_password decryptSensitive r)).
      { unfold with_password. simpl.
        destruct (password_encrypted r) as [text|]; [| reflexivity].
        destruct (bool_decide _); [reflexivity |].
        now destruct (decryptSensitive text). }
      destruct (with_password decryptSensitive (mkProxy _ _ _ _ _ _ _)) as [p|];
        match goal with
        | |- context [rotations _ calls _ (?s, mark_used ?u _ _)] =>
            specialize (IH u s)
        end;
        destruct (rotations _ calls _ _) as [results st'']; simpl in *;
        constructor; assumption. }
    destruct (with_password decryptSensitive r) as [p|] eqn:Hp;
      match goal with
      | |- context [rotations _ calls _ (?s, mark_used ?u _ _)] =>
          specialize (Hlater calls u s)
      end;
      destruct (rotations _ calls _ _) as [results st'']; simpl in *;
      exact Hlater.
  - assert (Hnone : forall calls st',
              Forall (fun result => summary result = summary None)
                     (fst (rotations decryptSensitive calls organizationId (st', table)))).
    { clear - Hfirst. intros calls.
      induction calls as [|[[c db_now] now] calls IH]; intros st'; simpl;
        [constructor |].
      unfold rotateProxy at 1. unfold getAvailableProxy at 1. cbn [snd fst].
      rewrite Hfirst. specialize (IH st').
      destruct (rotations _ calls _ _) as [results st'']; simpl in *.
      constructor; [reflexivity | assumption]. }
    specialize (Hnone calls st).
    destruct (rotations _ calls _ _) as [results st'']; simpl in *.
    exact Hnone.
Qed.

End Decrypt.

Lemma recordProxyFailure_row (proxyId : Z) (n : nat) (table : list proxy_row) :
  Nat.iter n (recordProxyFailure proxyId) table
  = map (fun r =>
           if bool_decide (p_id r = proxyId)
           then mkProxy (p_id r) (p_organization_id r) (ip_address r)
                        (password_encrypted r)
                        (if (0 <? Z.of_nat n) && (6 <=? failure_count r + Z.of_nat n)
                         then "blocked" else p_status r)
                        (last_used r)
                        (failure_count r + Z.of_nat n)
           else r) table.
Proof.
  induction n as [|n IH].
  - simpl. rewrite <- (map_id table) at 1. apply map_ext. intros r.
    destruct (bool_decide _); [| reflexivity].
    rewrite Z.add_0_r. now destruct r.
  - rewrite Nat.iter_succ, IH. unfold recordProxyFailure. rewrite map_map.
    apply map_ext. intros r.
    destruct (bool_decide (p_id r = proxyId)) eqn:Hid; simpl; rewrite Hid;
      [| reflexivity].
    f_equal; [| lia].
    destruct (Z.leb_spec 5 (failure_count r + Z.of_nat n)) as [H5|H5];
      destruct (Z.ltb_spec 0 (Z.of_nat n)) as [Hn|Hn];
      destruct (Z.leb_spec 6 (failure_count r + Z.of_nat n)) as [H6|H6];
      destruct (Z.ltb_spec 0 (Z.of_nat (S n))) as [Hn'|Hn'];
      destruct (Z.leb_spec 6 (failure_count r + Z.of_nat (S n))) as [H6'|H6'];
      simpl; try reflexivity; try lia.
Qed.

(** X26.  A proxy that is active and has no failure on record stays
    active through five failures and is blocked by the sixth: after [n]
    calls of [recordProxyFailure] its count is [n], and its status is
    ['blocked'] exactly when [n >= 6]. *)
Theorem proxy_blocked_at_sixth_failure (table : list proxy_row) (r : proxy_row)
    (n : nat) :
  r ∈ table ->
  failure_count r = 0 ->
  p_status r = "active" ->
  exists r',
    r' ∈ Nat.iter n (recordProxyFailure (p_id r)) table
    /\ p_id r' = p_id r
    /\ failure_count r' = Z.of_nat n
    /\ (p_status r' = "blocked" <-> (6 <= n)%nat)
    /\ (p_status r' = "active" <-> (n <= 5)%nat).
Proof.
  intros Hin Hzero Hactive. rewrite recordProxyFailure_row.
  eexists. split.
  - apply list_elem_of_In, in_map_iff. exists r.
    split; [reflexivity | now apply list_elem_of_In].
  - rewrite bool_decide_eq_true_2 by reflexivity. simpl.
    split; [reflexivity |]. split; [lia |]. rewrite Hzero, Hactive.
    destruct (Z.ltb_spec 0 (Z.of_nat n)) as [Hn|Hn];
      destruct (Z.leb_spec 6 (0 + Z.of_nat n)) as [H6|H6]; simpl;
      split; split; intros Hs; try lia; try reflexivity; try discriminate Hs.
Qed.

(** *** The properties on the sample pool *)

Lemma getAvailableProxy_prefers_used_proxies_witness :
  mkProxy 1 1 "10.0.0.1" None "active" None 0 ∈ example_pool
  /\ Forall (fun q => candidate 1 q = true -> last_used q = None) example_pool.
Proof.
  destruct (getAvailableProxy_prefers_used_proxies example_decrypt 100 1 example_pool
              (mark_used 100 1 example_pool)
              (mkObject (mkProxy 1 1 "10.0.0.1" None "active" None 0) None))
    as (Hin & _ & _ & _ & Hnull).
  - vm_compute. reflexivity.
  - split; [exact Hin | now apply Hnull].
Defined.

Lemma unused_pool_never_rotates_witness :
  match fst (rotations example_decrypt
               [("c1", 100, 100); ("c2", 200, 200); ("c3", 300, 300)] 1
               (∅, example_pool)) with
  | [] => True
  | first :: later =>
      Forall (fun result =>
                option_map (fun p => (p_id (row p), ip_address (row p), password p))
                           result
                = option_map (fun p => (p_id (row p), ip_address (row p), password p))
                             first) later
  end.
Proof.
  apply (unused_pool_never_rotates example_decrypt 1 example_pool
           [("c1", 100, 100); ("c2", 200, 200); ("c3", 300, 300)] ∅).
  - apply (bool_decide_unpack _). vm_compute. exact I.
  - repeat constructor.
Defined.

Lemma proxy_blocked_at_sixth_failure_witness :
  exists r',
    r' ∈ Nat.iter 6 (recordProxyFailure 1) example_pool
    /\ failure_count r' = 6
    /\ p_status r' = "blocked".
Proof.
  destruct (proxy_blocked_at_sixth_failure example_pool
              (mkProxy 1 1 "10.0.0.1" None "active" None 0) 6)
    as (r' & Hin & _ & Hcount & Hblocked & _).
  - apply list_elem_of_here.
  - reflexivity.
  - reflexivity.
  - exists r'. split; [exact Hin |]. split; [exact Hcount |].
    apply Hblocked. lia.
Defined.

End ProxyPoolFacts.

(** ** Sessions and random choices *)

Module SessionsFacts.
Import Crypto CryptoFacts Sessions.

Section WithMetadata.
Context {Metadata : Type} `{JSON Metadata}.

Lemma active_sessions_app (c : string) (t1 t2 : list session_row) :
  active_sessions c (t1 ++ t2) = active_sessions c t1 ++ active_sessions c t2.
Proof. apply List.filter_app. Qed.

Lemma active_sessions_invalidate (c c' : string) (table : list session_row) :
  active_sessions c' (invalidate c table)
  = if bool_decide (c' = c) then [] else active_sessions c' table.
Proof.
  unfold active_sessions, invalidate.
  destruct (decide (c' = c)) as [->|Hne].
  - rewrite bool_decide_eq_true_2 by reflexivity.
    induction table as [|r table IH]; simpl; [reflexivity |].
    destruct (bool_decide (client_id r = c)) eqn:Hr; simpl; rewrite Hr; simpl;
      [rewrite ?andb_false_r |]; exact IH.
  - rewrite (bool_decide_eq_false_2 _ Hne).
    induction table as [|r table IH]; simpl; [reflexivity |].
    destruct (decide (client_id r = c)) as [Hr|Hr].
    + rewrite (bool_decide_eq_true_2 _ Hr). simpl.
      rewrite !bool_decide_eq_false_2 by congruence. simpl. exact IH.
    + rewrite (bool_decide_eq_false_2 _ Hr). now rewrite IH.
Qed.

(** X27.  [createSession] adds one active session and closes none: the
    active sessions of the client are those it had, followed by the new
    one, and those of the other clients are as before.  The session hash
    has two hexadecimal characters per byte of entropy, and the device
    fingerprint has 64 and depends on the metadata alone. *)
Theorem createSession_keeps_old_sessions (entropy entropy' : buffer)
    (created active created' active' : Z) (c c' : string)
    (organizationId organizationId' : option Z) (metadata : Metadata)
    (table table' : list session_row) :
  let result := createSession entropy created active c organizationId metadata table in
  active_sessions c' (snd result)
  = active_sessions c' table
    ++ (if bool_decide (c' = c)
        then [mkSession c (sessionHash (fst result)) (deviceFingerprint (fst result)) true]
        else [])
  /\ String.length (sessionHash (fst result)) = (2 * length entropy)%nat
  /\ String.length (deviceFingerprint (fst result)) = 64%nat
  /\ deviceFingerprint
       (fst (createSession entropy' created' active' c' organizationId' metadata table'))
     = deviceFingerprint (fst result).
Proof.
  intros result. subst result. unfold createSession.
  cbn [fst snd sessionHash deviceFingerprint].
  split; [| split; [| split]].
  - rewrite active_sessions_app. f_equal. unfold active_sessions. simpl.
    destruct (decide (c' = c)) as [->|Hne].
    + now rewrite bool_decide_eq_true_2.
    + rewrite (bool_decide_eq_false_2 _ Hne).
      rewrite bool_decide_eq_false_2 by congruence. reflexivity.
  - apply length_hex.
  - now rewrite length_hex, length_sha256.
  - reflexivity.
Qed.

(** X28.  After [rotateSession] the client has exactly one active
    session, the one returned; no row is deleted, and the sessions of the
    other clients are as before. *)
Theorem rotateSession_leaves_one_active_session (rotatedFrom : Z -> Metadata)
    (entropy : buffer) (now created active : Z) (c c' : string)
    (table : list session_row) :
  let result := rotateSession rotatedFrom entropy now created active c table in
  active_sessions c' (snd result)
  = (if bool_decide (c' = c)
     then [mkSession c (sessionHash (fst result)) (deviceFingerprint (fst result)) true]
     else active_sessions c' table)
  /\ length (snd result) = S (length table)
  /\ map session_hash (snd result)
     = map session_hash table ++ [sessionHash (fst result)].
Proof.
  intros result. subst result. unfold rotateSession, createSession.
  cbn [fst snd sessionHash deviceFingerprint].
  split; [| split].
  - rewrite active_sessions_app, active_sessions_invalidate.
    unfold active_sessions. simpl.
    destruct (decide (c' = c)) as [->|Hne].
    + now rewrite !bool_decide_eq_true_2.
    + rewrite (bool_decide_eq_false_2 _ Hne).
      rewrite bool_decide_eq_false_2 by congruence. simpl. apply app_nil_r.
  - unfold invalidate. rewrite length_app, length_map. simpl. lia.
  - unfold invalidate. rewrite map_app, map_map. simpl. f_equal.
    apply map_ext. intros r. now destruct (bool_decide _).
Qed.

End WithMetadata.

End SessionsFacts.

Module RandomChoicesFacts.
Import RandomChoices.
Local Open Scope Q_scope.

Lemma pick_defined {A : Type} (choices : list A) (random : Q) :
  choices <> [] ->
  0 <= random -> random < 1 ->
  exists x, pick choices random = Some x /\ x ∈ choices.
Proof.
  intros Hne H0 H1. unfold pick.
  set (n := Z.of_nat (length choices)).
  assert (Hn : (0 < n)%Z) by (subst n; destruct choices; [congruence | simpl; lia]).
  assert (Hnq : 0 < inject_Z n) by (change 0 with (inject_Z 0); now rewrite <- Zlt_Qlt).
  set (x := random * inject_Z n).
  assert (Hx0 : 0 <= x) by (subst x; nra).
  assert (Hxn : x < inject_Z n) by (subst x; nra).
  assert (Hlow : (0 <= Qfloor x)%Z).
  { change 0%Z with (Qfloor 0). now apply Qfloor_resp_le. }
  assert (Hhigh : (Qfloor x < n)%Z).
  { rewrite Zlt_Qlt. apply Qle_lt_trans with x; [apply Qfloor_le | exact Hxn]. }
  destruct (Z.ltb_spec (Qfloor x) 0) as [Hneg|_]; [lia |].
  destruct (lookup_lt_is_Some_2 choices (Z.to_nat (Qfloor x))) as [y Hy];
    [subst n; lia |].
  exists y. split; [exact Hy |]. now apply list_elem_of_lookup_2 in Hy.
Qed.

(** X29.  With a draw of [Math.random()] in [0, 1), the index
    [Math.floor(random * length)] falls inside the array: the accept
    language, the time zone, the screen resolution, the colour depth and
    the device memory of a browser profile are never [undefined], and each
    is one of the listed choices. *)
Theorem random_choices_are_defined (random : Q) :
  0 <= random -> random < 1 ->
  (exists s, _randomAcceptLanguage random = Some s /\ s ∈ languages)
  /\ (exists s, _randomTimezone random = Some s /\ s ∈ timezones)
  /\ (exists s, _randomScreenResolution random = Some s /\ s ∈ resolutions)
  /\ (exists d, colorDepth random = Some d /\ d ∈ [16; 24; 32]%Z)
  /\ (exists d, deviceMemory random = Some d /\ d ∈ [4; 8; 16; 32]%Z).
Proof.
  intros H0 H1.
  repeat split; apply pick_defined; try assumption; discriminate.
Qed.

Lemma random_choices_are_defined_witness :
  exists s, _randomTimezone 0.99 = Some s /\ s ∈ timezones.
Proof.
  destruct (random_choices_are_defined 0.99) as (_ & Hzone & _).
  - vm_compute. discriminate.
  - vm_compute. reflexivity.
  - exact Hzone.
Defined.

End RandomChoicesFacts.
